(** * GetTotal: a shallow embedding of the code-metrics engine

    The development follows [src/GetTotal.py]:
    - [PyStr]: the Python string operations the engine relies on
      ([str.strip], [in], [str.find], [str.startswith], slicing,
      [readlines]);
    - [Json]: [json.dump] and [json.load] as the snapshots use them;
    - [CodeAnalyzer]: [analyze_file] (the line scanner) and
      [get_language_from_extension] (the file classifier);
    - [ModernCodeCounterApp]: [collect_files] (tree walk and pattern
      filter), [export_results] / [import_results] (snapshots) and
      [perform_comparison] (the comparator).

    Python strings are sequences of Unicode code points, modelled as
    [list N]; Python integers are modelled as [Z]. *)

From stdpp Require Import gmap list sorting strings.
From Stdlib Require Import ZArith NArith Ascii Lia.

Open Scope Z_scope.

(** ** Python strings *)

Module PyStr.

Abbreviation pystr := (list N).

(** A literal: the code points of an ASCII string. *)
Definition str (s : string) : pystr :=
  map N_of_ascii (String.list_ascii_of_string s).

(** [len(s)] *)
Definition len (s : pystr) : Z := Z.of_nat (length s).

(** The characters [str.strip()] removes: Python's Unicode whitespace
    (U+0009..U+000D, U+001C..U+0020, U+0085, U+00A0, U+1680,
    U+2000..U+200A, U+2028, U+2029, U+202F, U+205F, U+3000). *)
Definition isspace (c : N) : bool :=
  (((9 <=? c) && (c <=? 13)) || ((28 <=? c) && (c <=? 32))
   || (c =? 133) || (c =? 160) || (c =? 5760)
   || ((8192 <=? c) && (c <=? 8202))
   || (c =? 8232) || (c =? 8233) || (c =? 8239) || (c =? 8287)
   || (c =? 12288))%N.

Fixpoint lstrip (s : pystr) : pystr :=
  match s with
  | [] => []
  | c :: t => if isspace c then lstrip t else s
  end.

Definition rstrip (s : pystr) : pystr := rev (lstrip (rev s)).

(** [s.strip()] *)
Definition strip (s : pystr) : pystr := rstrip (lstrip s).

(** A character that [strip] keeps. *)
Definition nonspace (c : N) : bool := negb (isspace c).

(** Truthiness of a string: [if s:] *)
Definition truthy (s : pystr) : bool :=
  match s with [] => false | _ :: _ => true end.

(** [s.startswith(prefix)] *)
Fixpoint startswith (s prefix : pystr) {struct prefix} : bool :=
  match prefix with
  | [] => true
  | p :: prefix' =>
      match s with
      | [] => false
      | c :: s' => (c =? p)%N && startswith s' prefix'
      end
  end.

(** Offset of the first occurrence of [sub] in [s], if any. *)
Fixpoint find_first (sub s : pystr) {struct s} : option nat :=
  if startswith s sub then Some 0%nat
  else match s with
       | [] => None
       | _ :: t => option_map S (find_first sub t)
       end.

(** [sub in s] *)
Definition contains (sub s : pystr) : bool :=
  match find_first sub s with Some _ => true | None => false end.

(** [s.find(sub, start)]: lowest index at or after [start] where [sub]
    occurs, [-1] when there is none. A negative [start] counts from the
    end of [s], as in Python. *)
Definition find (s sub : pystr) (start : Z) : Z :=
  let start' := if start <? 0 then Z.max 0 (start + len s) else start in
  if len s <? start' then -1
  else match find_first sub (drop (Z.to_nat start') s) with
       | Some i => start' + Z.of_nat i
       | None => -1
       end.

(** [s[i:]] *)
Definition slice_from (s : pystr) (i : Z) : pystr :=
  let i' := if i <? 0 then Z.max 0 (i + len s) else i in
  drop (Z.to_nat i') s.

(** Text-mode reading translates ["\r\n"] and ["\r"] to ["\n"]. *)
Fixpoint universal_newlines (s : pystr) : pystr :=
  match s with
  | [] => []
  | c :: t =>
      if (c =? 13)%N then
        match t with
        | d :: t' =>
            if (d =? 10)%N then 10%N :: universal_newlines t'
            else 10%N :: universal_newlines t
        | [] => [10%N]
        end
      else c :: universal_newlines t
  end.

Fixpoint split_lines (cur s : pystr) : list pystr :=
  match s with
  | [] => match cur with [] => [] | _ :: _ => [cur] end
  | c :: t =>
      if (c =? 10)%N then (cur ++ [c]) :: split_lines [] t
      else split_lines (cur ++ [c]) t
  end.

(** [f.readlines()] on the decoded text of a file: every line keeps its
    terminating newline. *)
Definition readlines (text : pystr) : list pystr :=
  split_lines [] (universal_newlines text).

End PyStr.

Import PyStr.

(** ** JSON documents *)

(** The part of Python's [json] module that [export_results] and
    [import_results] call: [json.dump(obj, f, indent=2,
    ensure_ascii=False)] and [json.load(f)], as CPython 3.11 has
    them. The limits of the interpreter (recursion depth, memory) are
    not modelled. *)

Module Json.

(** A value handed to [json.dump]: [None], a [bool], an [int], a
    [str], a [list], or a [dict] with [str] keys in the order the
    dict holds them. *)
#[warnings="-register-all"] Inductive pyobj :=
| PNone
| PBool (b : bool)
| PInt (z : Z)
| PStr (s : pystr)
| PList (items : list pyobj)
| PDict (members : list (pystr * pyobj)).

(** A decoded document. An integer literal decodes to [JInt]; a
    literal with a fraction or an exponent, [NaN] and the infinities
    decode to a float, which stands here as the literal it was read
    from. An object keeps its members as they are written. *)
#[warnings="-register-all"] Inductive json :=
| JNull
| JBool (b : bool)
| JInt (z : Z)
| JFloat (literal : pystr)
| JStr (s : pystr)
| JArr (items : list json)
| JObj (members : list (pystr * json)).

(** The document that reads as a given value. *)
Fixpoint to_json (v : pyobj) : json :=
  match v with
  | PNone => JNull
  | PBool b => JBool b
  | PInt z => JInt z
  | PStr s => JStr s
  | PList items => JArr (to_json <$> items)
  | PDict members => JObj ((fun kv => (kv.1, to_json kv.2)) <$> members)
  end.

(** *** Encoding *)

Definition hex_digit (n : N) : N :=
  if (n <? 10)%N then (48 + n)%N else (87 + n)%N.

(** The escapes of [encode_basestring] ([ensure_ascii=False]): quote,
    backslash and the control characters; every other character is
    written as it is. *)
Definition escape_char (c : N) : pystr :=
  if (c =? 34)%N then [92; 34]%N
  else if (c =? 92)%N then [92; 92]%N
  else if (c =? 10)%N then [92; 110]%N
  else if (c =? 13)%N then [92; 114]%N
  else if (c =? 9)%N then [92; 116]%N
  else if (c =? 8)%N then [92; 98]%N
  else if (c =? 12)%N then [92; 102]%N
  else if (c <? 32)%N
       then [92; 117; 48; 48; hex_digit (c / 16); hex_digit (c mod 16)]%N
  else [c].

Definition encode_basestring (s : pystr) : pystr :=
  34%N :: flat_map escape_char s ++ [34%N].

(** Decimal digits of a natural number, most significant first. *)
Fixpoint digits_fuel (fuel : nat) (n : N) : pystr :=
  match fuel with
  | O => []
  | S f =>
      if (n <? 10)%N then [(48 + n)%N]
      else digits_fuel f (n / 10) ++ [(48 + n mod 10)%N]
  end.

Definition digits (n : N) : pystr :=
  digits_fuel (S (N.to_nat (N.log2 n))) n.

(** [sys.get_int_max_str_digits()]: CPython (3.11, and the security
    releases of 3.7 to 3.10) converts no [int] of more digits to or
    from decimal text; the conversion raises [ValueError]. *)
Definition int_max_str_digits : nat := 4300.

(** [int.__repr__]; [None] when it raises. *)
Definition int_str (z : Z) : option pystr :=
  let ds := digits (Z.abs_N z) in
  if bool_decide (length ds <= int_max_str_digits)%nat
  then Some (if z <? 0 then 45%N :: ds else ds)
  else None.

(** A newline and [level] times the two blanks of [indent=2]. *)
Definition newline_indent (level : nat) : pystr :=
  10%N :: List.repeat 32%N (2 * level).

Definition is_container (v : pyobj) : bool :=
  match v with
  | PList _ | PDict _ => true
  | _ => false
  end.

(** A chunk the encoder yields; [None] when producing it raises. *)
Definition chunk := option pystr.

(** In a list the pending text [buf] and a scalar item form one
    chunk ([yield buf + ...]); before a container item [buf] is a
    chunk of its own. *)
Definition with_buf (buf : pystr) (v : pyobj) (chunks : list chunk)
    : list chunk :=
  if is_container v then Some buf :: chunks
  else match chunks with
       | [c] => [(fun text => buf ++ text) <$> c]
       | _ => Some buf :: chunks
       end.

(** [JSONEncoder(indent=2, ensure_ascii=False).iterencode(obj)] (the
    generators of [_make_iterencode]): the chunks [json.dump] writes
    one after the other. [level] is [_current_indent_level]. *)
Fixpoint iterencode (level : nat) (v : pyobj) {struct v} : list chunk :=
  match v with
  | PNone => [Some (str "null")]
  | PBool b => [Some (if b then str "true" else str "false")]
  | PInt z => [int_str z]
  | PStr s => [Some (encode_basestring s)]
  | PList items =>
      match items with
      | [] => [Some (str "[]")]
      | first :: rest =>
          with_buf (91%N :: newline_indent (S level)) first
            (iterencode (S level) first)
          ++ flat_map
               (fun x =>
                  with_buf (44%N :: newline_indent (S level)) x
                    (iterencode (S level) x))
               rest
          ++ [Some (newline_indent level); Some [93%N]]
      end
  | PDict members =>
      match members with
      | [] => [Some (str "{}")]
      | first :: rest =>
          [Some [123%N]; Some (newline_indent (S level))]
          ++ [Some (encode_basestring first.1); Some (str ": ")]
          ++ iterencode (S level) first.2
          ++ flat_map
               (fun kv =>
                  [Some (44%N :: newline_indent (S level));
                   Some (encode_basestring kv.1); Some (str ": ")]
                  ++ iterencode (S level) kv.2)
               rest
          ++ [Some (newline_indent level); Some [125%N]]
      end
  end.

(** *** Decoding *)

(** JSON whitespace: blank, tab, newline, carriage return. *)
Definition is_ws (c : N) : bool :=
  ((c =? 32) || (c =? 9) || (c =? 10) || (c =? 13))%N.

Fixpoint skip_ws (s : pystr) : pystr :=
  match s with
  | [] => []
  | c :: t => if is_ws c then skip_ws t else s
  end.

Definition is_digit (c : N) : bool := ((48 <=? c) && (c <=? 57))%N.

Definition hex_value (c : N) : option N :=
  if is_digit c then Some (c - 48)%N
  else if ((97 <=? c) && (c <=? 102))%N then Some (c - 87)%N
  else if ((65 <=? c) && (c <=? 70))%N then Some (c - 55)%N
  else None.

(** The four hexadecimal digits after [\u]. *)
Definition hex4 (a b c d : N) : option N :=
  match hex_value a, hex_value b, hex_value c, hex_value d with
  | Some x, Some y, Some z, Some w =>
      Some (((x * 16 + y) * 16 + z) * 16 + w)%N
  | _, _, _, _ => None
  end.

(** The character a one-letter escape stands for. *)
Definition simple_escape (e : N) : option N :=
  if (e =? 34)%N then Some 34%N
  else if (e =? 92)%N then Some 92%N
  else if (e =? 47)%N then Some 47%N
  else if (e =? 98)%N then Some 8%N
  else if (e =? 102)%N then Some 12%N
  else if (e =? 110)%N then Some 10%N
  else if (e =? 114)%N then Some 13%N
  else if (e =? 116)%N then Some 9%N
  else None.

Definition is_high_surrogate (c : N) : bool := ((55296 <=? c) && (c <=? 56319))%N.
Definition is_low_surrogate (c : N) : bool := ((56320 <=? c) && (c <=? 57343))%N.

(** [scanstring] (the C scanner, strict mode) after the opening
    quote: the decoded string and the text after the closing quote.
    Control characters must be escaped; a high surrogate escape
    followed by a low surrogate escape gives one character. *)
Fixpoint scanstring (s acc : pystr) {struct s} : option (pystr * pystr) :=
  match s with
  | [] => None
  | c :: t =>
      if (c =? 34)%N then Some (acc, t)
      else if (c =? 92)%N then
        match t with
        | [] => None
        | e :: t1 =>
            if (e =? 117)%N then
              match t1 with
              | h1 :: h2 :: h3 :: h4 :: t2 =>
                  match hex4 h1 h2 h3 h4 with
                  | None => None
                  | Some uni =>
                      if is_high_surrogate uni then
                        match t2 with
                        | b :: u :: g1 :: g2 :: g3 :: g4 :: t3 =>
                            if ((b =? 92) && (u =? 117))%N then
                              match hex4 g1 g2 g3 g4 with
                              | None => None
                              | Some uni2 =>
                                  if is_low_surrogate uni2
                                  then scanstring t3
                                         (acc ++ [(65536 + (uni - 55296) * 1024
                                                   + (uni2 - 56320))%N])
                                  else scanstring t2 (acc ++ [uni])
                              end
                            else scanstring t2 (acc ++ [uni])
                        | _ => scanstring t2 (acc ++ [uni])
                        end
                      else scanstring t2 (acc ++ [uni])
                  end
              | _ => None
              end
            else
              match simple_escape e with
              | Some ch => scanstring t1 (acc ++ [ch])
              | None => None
              end
        end
      else if (c <? 32)%N then None
      else scanstring t (acc ++ [c])
  end.

(** The longest run of decimal digits in front of the text. *)
Fixpoint span_digits (s : pystr) : pystr * pystr :=
  match s with
  | [] => ([], [])
  | c :: t =>
      if is_digit c then let '(ds, r) := span_digits t in (c :: ds, r)
      else ([], s)
  end.

(** Value of a run of decimal digits. *)
Definition digits_value (ds : pystr) : N :=
  fold_left (fun a c => (a * 10 + (c - 48))%N) ds 0%N.

(** The integer part of a number: an optional minus sign, then [0] or
    a run of digits that does not start with [0]. *)
Definition scan_int_part (s : pystr) : option (bool * pystr * pystr) :=
  let '(negative, s1) :=
    match s with
    | c :: t => if (c =? 45)%N then (true, t) else (false, s)
    | [] => (false, s)
    end in
  match s1 with
  | [] => None
  | c :: t =>
      if (c =? 48)%N then Some (negative, [c], t)
      else if is_digit c then
        let '(ds, r) := span_digits s1 in Some (negative, ds, r)
      else None
  end.

(** The optional fraction: a point and at least one digit. *)
Definition scan_frac (s : pystr) : pystr * pystr :=
  match s with
  | c :: t =>
      if (c =? 46)%N then
        match span_digits t with
        | ([], _) => ([], s)
        | (ds, r) => (c :: ds, r)
        end
      else ([], s)
  | [] => ([], s)
  end.

(** The optional exponent: [e] or [E], an optional sign, at least one
    digit. *)
Definition scan_exp (s : pystr) : pystr * pystr :=
  match s with
  | c :: t =>
      if ((c =? 101) || (c =? 69))%N then
        let '(sign, t1) :=
          match t with
          | g :: t' =>
              if ((g =? 45) || (g =? 43))%N then ([g], t') else ([], t)
          | [] => ([], t)
          end in
        match span_digits t1 with
        | ([], _) => ([], s)
        | (ds, r) => (c :: sign ++ ds, r)
        end
      else ([], s)
  | [] => ([], s)
  end.

(** A number: an integer when it has neither fraction nor exponent.
    [int(text)] raises on more than [int_max_str_digits] digits. *)
Definition scan_number (s : pystr) : option (json * pystr) :=
  match scan_int_part s with
  | None => None
  | Some (negative, ds, r) =>
      let '(frac, r1) := scan_frac r in
      let '(exp, r2) := scan_exp r1 in
      match frac, exp with
      | [], [] =>
          if bool_decide (length ds <= int_max_str_digits)%nat
          then Some (JInt (if negative then - Z.of_N (digits_value ds)
                           else Z.of_N (digits_value ds)), r2)
          else None
      | _, _ =>
          Some (JFloat ((if negative then [45%N] else []) ++ ds ++ frac ++ exp),
                r2)
      end
  end.

(** [null], [true], [false], a number, [NaN], [Infinity],
    [-Infinity]. *)
Definition scan_literal (s : pystr) : option (json * pystr) :=
  if startswith s (str "null") then Some (JNull, drop 4 s)
  else if startswith s (str "true") then Some (JBool true, drop 4 s)
  else if startswith s (str "false") then Some (JBool false, drop 5 s)
  else
    match scan_number s with
    | Some r => Some r
    | None =>
        if startswith s (str "NaN") then Some (JFloat (str "NaN"), drop 3 s)
        else if startswith s (str "Infinity")
        then Some (JFloat (str "Infinity"), drop 8 s)
        else if startswith s (str "-Infinity")
        then Some (JFloat (str "-Infinity"), drop 9 s)
        else None
    end.

(** [scan_once] with its two loops, [JSONArray] at an item and
    [JSONObject] at a key. [fuel] bounds the values read one inside
    or after the other; [loads] passes one more than the length of
    the text. *)
Fixpoint scan_once (fuel : nat) (s : pystr) {struct fuel}
    : option (json * pystr) :=
  match fuel with
  | O => None
  | S f =>
      match s with
      | [] => None
      | c :: t =>
          if (c =? 34)%N then
            match scanstring t [] with
            | Some (x, r) => Some (JStr x, r)
            | None => None
            end
          else if (c =? 123)%N then
            match skip_ws t with
            | [] => None
            | d :: r =>
                if (d =? 125)%N then Some (JObj [], r)
                else object_loop f (d :: r) []
            end
          else if (c =? 91)%N then
            match skip_ws t with
            | [] => None
            | d :: r =>
                if (d =? 93)%N then Some (JArr [], r)
                else array_loop f (d :: r) []
            end
          else scan_literal s
      end
  end
with array_loop (fuel : nat) (s : pystr) (acc : list json) {struct fuel}
    : option (json * pystr) :=
  match fuel with
  | O => None
  | S f =>
      match scan_once f s with
      | None => None
      | Some (v, r) =>
          match skip_ws r with
          | [] => None
          | d :: r1 =>
              if (d =? 93)%N then Some (JArr (acc ++ [v]), r1)
              else if (d =? 44)%N then array_loop f (skip_ws r1) (acc ++ [v])
              else None
          end
      end
  end
with object_loop (fuel : nat) (s : pystr) (acc : list (pystr * json))
    {struct fuel} : option (json * pystr) :=
  match fuel with
  | O => None
  | S f =>
      match s with
      | [] => None
      | q :: t =>
          if (q =? 34)%N then
            match scanstring t [] with
            | None => None
            | Some (key, r) =>
                match skip_ws r with
                | [] => None
                | colon :: r1 =>
                    if (colon =? 58)%N then
                      match scan_once f (skip_ws r1) with
                      | None => None
                      | Some (v, r2) =>
                          match skip_ws r2 with
                          | [] => None
                          | d :: r3 =>
                              if (d =? 125)%N
                              then Some (JObj (acc ++ [(key, v)]), r3)
                              else if (d =? 44)%N
                              then object_loop f (skip_ws r3)
                                     (acc ++ [(key, v)])
                              else None
                          end
                      end
                    else None
                end
            end
          else None
      end
  end.

(** [json.loads(text)]: no byte-order mark, one value, nothing but
    whitespace around it. *)
Definition loads (text : pystr) : option json :=
  if startswith text [65279%N] then None
  else
    match scan_once (S (length text)) (skip_ws text) with
    | None => None
    | Some (v, r) =>
        match skip_ws r with
        | [] => Some v
        | _ :: _ => None
        end
    end.

(** [d.get(key)] on a decoded object: when a key is written more than
    once the last value counts. *)
Fixpoint dict_get (key : pystr) (members : list (pystr * json)) : option json :=
  match members with
  | [] => None
  | (k, v) :: rest =>
      match dict_get key rest with
      | Some later => Some later
      | None => if bool_decide (k = key) then Some v else None
      end
  end.

(** *** Writing a text file encoded as UTF-8 *)

(** UTF-8 has no encoding for a surrogate code point; a string with
    one cannot be written. *)
Definition is_surrogate (c : N) : bool := ((55296 <=? c) && (c <=? 57343))%N.

Definition encodable (s : pystr) : bool := forallb (fun c => negb (is_surrogate c)) s.

(** [for chunk in iterable: fp.write(chunk)]: the text that reaches
    the file, and whether the loop ran to its end. The loop stops at
    the first chunk that raises or cannot be encoded, and nothing more
    is written. *)
Fixpoint write_chunks (chunks : list chunk) (written : pystr) : pystr * bool :=
  match chunks with
  | [] => (written, true)
  | None :: _ => (written, false)
  | Some text :: rest =>
      if encodable text then write_chunks rest (written ++ text)
      else (written, false)
  end.

End Json.

Import Json.

(** ** The analyzer *)

Module CodeAnalyzer.

(** [single_line_comment] holds one marker or a list of markers. *)
Inductive single_line_spec :=
| SingleMarker (m : pystr)
| MarkerList (ms : list pystr).

(** A language configuration is a dict; every key may be absent. *)
Record language_config := LanguageConfig {
  extensions : option (list pystr);
  single_line_comment : option single_line_spec;
  multi_line_comment : option (list (pystr * pystr));
  string_delimiters : option (list pystr)
}.

Definition empty_config : language_config :=
  LanguageConfig None None None None.

Definition dquote : pystr := [34%N].
Definition triple_dquote : pystr := [34%N; 34%N; 34%N].

Definition mk_lang (exts : list string) (single : single_line_spec)
    (multi : list (pystr * pystr)) (delims : list pystr) : language_config :=
  LanguageConfig (Some (map str exts)) (Some single) (Some multi) (Some delims).

Definition c_style : list (pystr * pystr) := [(str "/*", str "*/")].
Definition quotes2 : list pystr := [dquote; str "'"].

Definition DEFAULT_LANGUAGES : list (pystr * language_config) :=
  [ (str "C/C++",
     mk_lang [".c"; ".cpp"; ".cxx"; ".cc"; ".h"; ".hpp"; ".hxx"]
       (SingleMarker (str "//")) c_style quotes2);
    (str "C#",
     mk_lang [".cs"] (SingleMarker (str "//")) c_style quotes2);
    (str "Python",
     mk_lang [".py"; ".pyw"] (SingleMarker (str "#"))
       [(triple_dquote, triple_dquote); (str "'''", str "'''")] quotes2);
    (str "Java",
     mk_lang [".java"] (SingleMarker (str "//")) c_style quotes2);
    (str "Kotlin",
     mk_lang [".kt"; ".kts"] (SingleMarker (str "//")) c_style quotes2);
    (str "JavaScript/TypeScript",
     mk_lang [".js"; ".jsx"; ".ts"; ".tsx"] (SingleMarker (str "//")) c_style
       [dquote; str "'"; str "`"]);
    (str "HTML/CSS",
     mk_lang [".html"; ".htm"; ".css"; ".scss"; ".sass"; ".less"]
       (SingleMarker (str "//"))
       [(str "<!--", str "-->"); (str "/*", str "*/")] quotes2);
    (str "PHP",
     mk_lang [".php"; ".php3"; ".php4"; ".php5"; ".phtml"]
       (MarkerList [str "//"; str "#"]) c_style quotes2);
    (str "Ruby",
     mk_lang [".rb"; ".rbw"; ".rake"] (SingleMarker (str "#"))
       [(str "=begin", str "=end")] quotes2);
    (str "Rust",
     mk_lang [".rs"] (SingleMarker (str "//")) c_style quotes2);
    (str "Go",
     mk_lang [".go"] (SingleMarker (str "//")) c_style quotes2);
    (str "Shell",
     mk_lang [".sh"; ".bash"; ".zsh"; ".fish"] (SingleMarker (str "#"))
       [] quotes2);
    (str "Assembly",
     mk_lang [".asm"; ".s"; ".S"] (MarkerList [str ";"; str "#"])
       [] quotes2) ].

(** [language_configs.get(lang, {})] *)
Fixpoint get_config (table : list (pystr * language_config)) (lang : pystr)
    : language_config :=
  match table with
  | [] => empty_config
  | (l, cfg) :: rest => if bool_decide (l = lang) then cfg else get_config rest lang
  end.

(** A Python call either returns a value or raises. *)
Inductive py_result (A : Type) :=
| Return (a : A)
| Raise.
Arguments Return {A} a.
Arguments Raise {A}.

(** The local variables of the loop of [analyze_file]. *)
Record scan_state := ScanState {
  empty_lines : Z;
  comment_lines : Z;
  code_lines : Z;
  in_block_comment : bool;
  block_comment_start : option pystr;
  block_comment_end : option pystr
}.

Definition initial_state : scan_state :=
  ScanState 0 0 0 false None None.

Definition add_empty (st : scan_state) : scan_state :=
  ScanState (empty_lines st + 1) (comment_lines st) (code_lines st)
    (in_block_comment st) (block_comment_start st) (block_comment_end st).

Definition add_comment (st : scan_state) : scan_state :=
  ScanState (empty_lines st) (comment_lines st + 1) (code_lines st)
    (in_block_comment st) (block_comment_start st) (block_comment_end st).

Definition add_code (st : scan_state) : scan_state :=
  ScanState (empty_lines st) (comment_lines st) (code_lines st + 1)
    (in_block_comment st) (block_comment_start st) (block_comment_end st).

Definition enter_block (start_marker end_marker : pystr) (st : scan_state)
    : scan_state :=
  ScanState (empty_lines st) (comment_lines st) (code_lines st)
    true (Some start_marker) (Some end_marker).

Definition leave_block (st : scan_state) : scan_state :=
  ScanState (empty_lines st) (comment_lines st) (code_lines st)
    false None None.

(** The loop [for start_marker, end_marker in multi_line_comments]. It
    returns the updated locals and [line_comment_check]; every [break]
    is a return without visiting the remaining pairs. *)
Fixpoint scan_pairs (pairs : list (pystr * pystr)) (st : scan_state)
    (line_comment_check : pystr) : py_result (scan_state * pystr) :=
  match pairs with
  | [] => Return (st, line_comment_check)
  | (start_marker, end_marker) :: rest =>
      if negb (in_block_comment st) then
        if contains start_marker line_comment_check then
          if contains end_marker line_comment_check then
            let start_idx := find line_comment_check start_marker 0 in
            let end_idx :=
              find line_comment_check end_marker (start_idx + len start_marker) in
            if negb (end_idx =? -1) then
              let st1 := add_comment st in
              let after_comment :=
                strip (slice_from line_comment_check (end_idx + len end_marker)) in
              let st2 := if truthy after_comment then add_code st1 else st1 in
              Return (st2, [])
            else scan_pairs rest st line_comment_check
          else
            Return (add_comment (enter_block start_marker end_marker st), [])
        else scan_pairs rest st line_comment_check
      else
        let st1 := add_comment st in
        match block_comment_end st1 with
        | None => Raise
        | Some active_end =>
            Return (if contains active_end line_comment_check
                    then leave_block st1 else st1, [])
        end
  end.

(** [single_line_comments], normalised to a list. *)
Definition single_line_markers (cfg : language_config) : list pystr :=
  match single_line_comment cfg with
  | None => []
  | Some (MarkerList ms) => ms
  | Some (SingleMarker m) => [m]
  end.

(** The loop [for comment_marker in single_line_comments]; the boolean
    is [is_comment]. *)
Fixpoint scan_single (markers : list pystr) (st : scan_state)
    (line_comment_check : pystr) : scan_state * bool :=
  match markers with
  | [] => (st, false)
  | comment_marker :: rest =>
      if truthy comment_marker && startswith line_comment_check comment_marker
      then (add_comment st, true)
      else scan_single rest st line_comment_check
  end.

(** One iteration of [for line in lines]. *)
Definition scan_line (cfg : language_config) (st : scan_state) (line : pystr)
    : py_result scan_state :=
  let stripped_line := strip line in
  if negb (truthy stripped_line) then Return (add_empty st)
  else
    let multi_line_comments := default [] (multi_line_comment cfg) in
    let after_pairs :=
      match multi_line_comments with
      | [] => Return (st, stripped_line)
      | _ :: _ => scan_pairs multi_line_comments st stripped_line
      end in
    match after_pairs with
    | Raise => Raise
    | Return (st1, line_comment_check) =>
        if negb (truthy line_comment_check) then Return st1
        else
          let '(st2, is_comment) :=
            scan_single (single_line_markers cfg) st1 line_comment_check in
          Return (if negb is_comment then add_code st2 else st2)
    end.

Fixpoint scan_lines (cfg : language_config) (st : scan_state)
    (lines : list pystr) : py_result scan_state :=
  match lines with
  | [] => Return st
  | line :: rest =>
      match scan_line cfg st line with
      | Raise => Raise
      | Return st' => scan_lines cfg st' rest
      end
  end.

(** The dict returned by [analyze_file]. *)
Record file_metrics := FileMetrics {
  total_lines : Z;
  fm_empty_lines : Z;
  fm_comment_lines : Z;
  fm_code_lines : Z;
  file_path : pystr;
  file_name : pystr
}.

(** [os.path.basename]: what follows the last ["/"]. *)
Fixpoint basename_aux (cur path : pystr) : pystr :=
  match path with
  | [] => cur
  | c :: t => if (c =? 47)%N then basename_aux [] t else basename_aux (cur ++ [c]) t
  end.

Definition basename (path : pystr) : pystr := basename_aux [] path.

(** [analyze_file] once the lines are read. *)
Definition analyze_lines (path : pystr) (cfg : language_config)
    (lines : list pystr) : py_result file_metrics :=
  match scan_lines cfg initial_state lines with
  | Raise => Raise
  | Return st =>
      Return (FileMetrics (Z.of_nat (length lines)) (empty_lines st)
                (comment_lines st) (code_lines st) path (basename path))
  end.

(** [analyze_file]: [content] is the decoded text of the file, [None]
    when opening or reading it fails (the function then returns
    [None]). *)
Definition analyze_file (content : option pystr) (path : pystr)
    (cfg : language_config) : py_result (option file_metrics) :=
  match content with
  | None => Return None
  | Some text =>
      match analyze_lines path cfg (readlines text) with
      | Raise => Raise
      | Return m => Return (Some m)
      end
  end.

(** [get_language_from_extension]. [suffix] stands for
    [Path(file_path).suffix] and [lower] for [str.lower]. *)
Section Classifier.
Variable suffix : pystr -> pystr.
Variable lower : pystr -> pystr.

(** ["extensions" in config and ext in config["extensions"]] *)
Definition has_extension (cfg : language_config) (ext : pystr) : bool :=
  match extensions cfg with
  | None => false
  | Some exts => bool_decide (ext ∈ exts)
  end.

Fixpoint first_language (table : list (pystr * language_config))
    (ext : pystr) : pystr :=
  match table with
  | [] => str "Unknown"
  | (lang, config) :: rest =>
      if has_extension config ext then lang else first_language rest ext
  end.

Definition get_language_from_extension (file_path : pystr)
    (language_configs : list (pystr * language_config)) : pystr :=
  let ext := lower (suffix file_path) in
  first_language language_configs ext.
End Classifier.

End CodeAnalyzer.

Import CodeAnalyzer.

(** ** The application: tree walk, snapshots, comparison *)

Module ModernCodeCounterApp.

(** *** [collect_files] *)

(** What [os.walk] finds below a directory: its sub-directories by name
    and the names of its regular files. *)
#[warnings="-register-all"] Inductive dir_tree :=
| Dir (subdirs : list (pystr * dir_tree)) (filenames : list pystr).

Definition endswith_sep (a : pystr) : bool :=
  match last a with
  | Some c => (c =? 47)%N
  | None => false
  end.

(** [os.path.join(a, b)] with ["/"] as separator. *)
Definition path_join (a b : pystr) : pystr :=
  if startswith b (str "/") then b
  else if negb (truthy a) || endswith_sep a then a ++ b
  else a ++ str "/" ++ b.

(** [os.walk(top)] under the pruning [dirs[:] = [d for d in dirs if not
    d.startswith('.')]]: the visited directories, top-down, each with
    its file names. *)
Fixpoint os_walk (root_dir : pystr) (t : dir_tree)
    : list (pystr * list pystr) :=
  match t with
  | Dir subdirs filenames =>
      (root_dir, filenames) ::
      (fix descend (ds : list (pystr * dir_tree)) : list (pystr * list pystr) :=
         match ds with
         | [] => []
         | (d, sub) :: rest =>
             if startswith d (str ".") then descend rest
             else os_walk (path_join root_dir d) sub ++ descend rest
         end) subdirs
  end.

(** The loop over [self.exclude_patterns]; the result is [skip]. *)
Fixpoint exclude_loop (exclude_patterns : list pystr) (file_path : pystr)
    : bool :=
  match exclude_patterns with
  | [] => false
  | pattern :: rest =>
      if truthy pattern && negb (bool_decide (pattern = str "*"))
         && contains pattern file_path
      then true
      else exclude_loop rest file_path
  end.

(** The loop over [self.include_patterns] in the [else] branch. *)
Fixpoint include_loop (include_patterns : list pystr) (file_path : pystr)
    : bool :=
  match include_patterns with
  | [] => false
  | pattern :: rest =>
      if truthy pattern && contains pattern file_path then true
      else include_loop rest file_path
  end.

(** The value of [include] for a path that was not skipped. *)
Definition include_flag (include_patterns : list pystr) (file_path : pystr)
    : bool :=
  if bool_decide (str "*" ∈ include_patterns) then true
  else include_loop include_patterns file_path.

(** The loop [for filename in filenames]. *)
Fixpoint collect_in_dir (include_patterns exclude_patterns : list pystr)
    (root_dir : pystr) (filenames : list pystr) : list pystr :=
  match filenames with
  | [] => []
  | filename :: rest =>
      let file_path := path_join root_dir filename in
      if exclude_loop exclude_patterns file_path
      then collect_in_dir include_patterns exclude_patterns root_dir rest
      else if include_flag include_patterns file_path
      then file_path :: collect_in_dir include_patterns exclude_patterns root_dir rest
      else collect_in_dir include_patterns exclude_patterns root_dir rest
  end.

Fixpoint collect_walk (include_patterns exclude_patterns : list pystr)
    (visited : list (pystr * list pystr)) : list pystr :=
  match visited with
  | [] => []
  | (root_dir, filenames) :: rest =>
      collect_in_dir include_patterns exclude_patterns root_dir filenames
      ++ collect_walk include_patterns exclude_patterns rest
  end.

Definition collect_files (include_patterns exclude_patterns : list pystr)
    (current_directory : pystr) (tree : dir_tree) : list pystr :=
  collect_walk include_patterns exclude_patterns
    (os_walk current_directory tree).

(** Every path the walk offers to the filter. *)
Fixpoint walk_paths (visited : list (pystr * list pystr)) : list pystr :=
  match visited with
  | [] => []
  | (root_dir, filenames) :: rest =>
      (path_join root_dir <$> filenames) ++ walk_paths rest
  end.

Definition candidate_paths (current_directory : pystr) (tree : dir_tree)
    : list pystr :=
  walk_paths (os_walk current_directory tree).

(** *** Scan results and snapshots *)

(** One entry of [self.results]: the per-language aggregate. *)
Record lang_data := LangData {
  files : list file_metrics;
  ld_total_lines : Z;
  ld_code_lines : Z;
  ld_comment_lines : Z;
  ld_empty_lines : Z
}.

(** The ["config"] entry of an exported document. *)
Record export_config := ExportConfig {
  ec_include_patterns : list pystr;
  ec_exclude_patterns : list pystr;
  ec_selected_languages : list pystr
}.

(** A snapshot document. A document read back from disk may lack the
    ["results"] key. *)
Record snapshot := Snapshot {
  directory : pystr;
  timestamp : pystr;
  snap_results : option (gmap pystr lang_data);
  snap_config : export_config
}.

(** The fields of the application object the engine reads and writes.
    [selected_languages] is set by [update_config_from_ui], which every
    scan runs first. *)
Record app := App {
  results : gmap pystr lang_data;
  current_directory : pystr;
  include_patterns : list pystr;
  exclude_patterns : list pystr;
  selected_languages : list pystr
}.

Definition set_results (self : app) (r : gmap pystr lang_data) : app :=
  App r (current_directory self) (include_patterns self)
    (exclude_patterns self) (selected_languages self).

(** [import_data.get("results", {})] *)
Definition get_results (data : snapshot) : gmap pystr lang_data :=
  default ∅ (snap_results data).

(** *** [export_results] and [import_results] *)

(** The files: the text of every file that can be opened and decoded,
    and the paths [open(path, 'w')] refuses (a directory, a missing
    parent directory, no permission). Text is kept as it is handed to
    [write]; the line separator that text mode writes for a newline
    is read back as that newline. *)
Record file_system := FileSystem {
  contents : gmap pystr pystr;
  unwritable : gset pystr
}.

(** The dict [analyze_file] returns. *)
Definition file_obj (m : file_metrics) : pyobj :=
  PDict [(str "total_lines", PInt (total_lines m));
         (str "empty_lines", PInt (fm_empty_lines m));
         (str "comment_lines", PInt (fm_comment_lines m));
         (str "code_lines", PInt (fm_code_lines m));
         (str "file_path", PStr (file_path m));
         (str "file_name", PStr (file_name m))].

(** The dict [analyze_directory] keeps for a language. *)
Definition language_obj (d : lang_data) : pyobj :=
  PDict [(str "files", PList (file_obj <$> files d));
         (str "total_lines", PInt (ld_total_lines d));
         (str "code_lines", PInt (ld_code_lines d));
         (str "comment_lines", PInt (ld_comment_lines d));
         (str "empty_lines", PInt (ld_empty_lines d))].

(** [self.results]. [order] lists its keys in the order the dict
    holds them (the order in which the languages were first met),
    which the map does not record. *)
Definition results_obj (order : list pystr) (r : gmap pystr lang_data)
    : pyobj :=
  PDict (omap (fun k => (fun d => (k, language_obj d)) <$> r !! k) order).

Definition str_list (l : list pystr) : pyobj := PList (PStr <$> l).

(** The dict [export_results] builds. *)
Definition export_data (self : app) (order : list pystr) (now : pystr)
    : pyobj :=
  PDict [(str "directory", PStr (current_directory self));
         (str "timestamp", PStr now);
         (str "results", results_obj order (results self));
         (str "config",
          PDict [(str "include_patterns", str_list (include_patterns self));
                 (str "exclude_patterns", str_list (exclude_patterns self));
                 (str "selected_languages",
                  str_list (selected_languages self))])].

Inductive export_outcome :=
| ExportRefused
| ExportCancelled
| ExportDone (fs : file_system)
| ExportFailed (fs : file_system).

(** [export_results]. An empty result is refused with a warning
    before the save dialog is opened. Otherwise [chosen] is the path
    the dialog returns (empty when cancelled) and [now] is
    [datetime.now().isoformat()]. [configured] tells whether
    [update_config_from_ui] has run in this session: it alone sets
    the attribute [selected_languages], and without it building the
    dict raises before any file is opened. An exception inside the
    [try] ends in the error dialog; the file, once opened, keeps what
    was written before. *)
Definition export_results (self : app) (configured : bool)
    (order : list pystr) (chosen now : pystr) (fs : file_system)
    : export_outcome :=
  if bool_decide (results self = ∅) then ExportRefused
  else if truthy chosen then
    if configured then
      if bool_decide (chosen ∈ unwritable fs) then ExportFailed fs
      else
        let '(written, complete) :=
          write_chunks (iterencode 0 (export_data self order now)) [] in
        let fs' :=
          FileSystem (<[chosen := written]> (contents fs)) (unwritable fs) in
        if complete then ExportDone fs' else ExportFailed fs'
    else ExportFailed fs
  else ExportCancelled.

(** [d[key]] where an [int] is expected, on a decoded object. *)
Definition get_int (key : pystr) (members : list (pystr * json)) : option Z :=
  match dict_get key members with
  | Some (JInt z) => Some z
  | _ => None
  end.

Definition get_str (key : pystr) (members : list (pystr * json))
    : option pystr :=
  match dict_get key members with
  | Some (JStr s) => Some s
  | _ => None
  end.

(** The object has no other key than [keys]. *)
Definition only_keys (keys : list pystr) (members : list (pystr * json))
    : bool :=
  forallb (fun kv => bool_decide (kv.1 ∈ keys)) members.

(** The file record a decoded object stands for, when it is one. *)
Definition file_of_json (j : json) : option file_metrics :=
  match j with
  | JObj ms =>
      if only_keys [str "total_lines"; str "empty_lines"; str "comment_lines";
                    str "code_lines"; str "file_path"; str "file_name"] ms
      then
        total ← get_int (str "total_lines") ms;
        empty ← get_int (str "empty_lines") ms;
        comment ← get_int (str "comment_lines") ms;
        code ← get_int (str "code_lines") ms;
        path ← get_str (str "file_path") ms;
        name ← get_str (str "file_name") ms;
        Some (FileMetrics total empty comment code path name)
      else None
  | _ => None
  end.

(** The language record a decoded object stands for, when it is
    one. *)
Definition language_of_json (j : json) : option lang_data :=
  match j with
  | JObj ms =>
      if only_keys [str "files"; str "total_lines"; str "code_lines";
                    str "comment_lines"; str "empty_lines"] ms
      then
        match dict_get (str "files") ms with
        | Some (JArr items) =>
            fs ← mapM file_of_json items;
            total ← get_int (str "total_lines") ms;
            code ← get_int (str "code_lines") ms;
            comment ← get_int (str "comment_lines") ms;
            empty ← get_int (str "empty_lines") ms;
            Some (LangData fs total code comment empty)
        | _ => None
        end
      else None
  | _ => None
  end.

(** The result a decoded value stands for, when it has the shape of
    one. A key written twice keeps its last value. *)
Definition results_of_json (j : json) : option (gmap pystr lang_data) :=
  match j with
  | JObj ms =>
      let m : gmap pystr json := list_to_map (reverse ms) in
      if bool_decide (map_Forall (fun _ v => is_Some (language_of_json v)) m)
      then Some (omap language_of_json m)
      else None
  | _ => None
  end.

Inductive import_outcome :=
| ImportCancelled
| ImportFailed
| ImportDone (self' : app)
| ImportOther (value : json).

(** [import_results]. [chosen] is the path the open dialog returns.
    A missing or malformed file, or a document that is not an object,
    raises before the assignment and [self.results] stays as it was
    ([ImportFailed]). Otherwise [self.results] becomes the value of
    the ["results"] key, or [{}] without that key: [ImportDone] when
    that value has the shape of a result, [ImportOther] with the value
    when it has not. *)
Definition import_results (self : app) (chosen : pystr) (fs : file_system)
    : import_outcome :=
  if truthy chosen then
    match contents fs !! chosen with
    | None => ImportFailed
    | Some text =>
        match loads (universal_newlines text) with
        | Some (JObj members) =>
            match dict_get (str "results") members with
            | None => ImportDone (set_results self ∅)
            | Some value =>
                match results_of_json value with
                | Some r => ImportDone (set_results self r)
                | None => ImportOther value
                end
            end
        | _ => ImportFailed
        end
    end
  else ImportCancelled.

(** *** [perform_comparison] *)

(** Python's order on strings: lexicographic on code points. *)
Fixpoint str_leb (a b : pystr) : bool :=
  match a, b with
  | [], _ => true
  | _ :: _, [] => false
  | x :: a', y :: b' =>
      if (x <? y)%N then true
      else if (y <? x)%N then false
      else str_leb a' b'
  end.

Definition str_le (a b : pystr) : Prop := Is_true (str_leb a b).

#[global] Instance str_le_dec (a b : pystr) : Decision (str_le a b).
Proof. unfold str_le. apply _. Defined.

(** [sum(f(data) for data in results.values())] *)
Definition sum_values (f : lang_data -> Z) (r : gmap pystr lang_data) : Z :=
  foldr (fun kv acc => f kv.2 + acc) 0 (map_to_list r).

Definition file_count (data : lang_data) : Z := Z.of_nat (length (files data)).

(** The default of [results.get(language, {...})]: no files, zero
    lines. *)
Definition absent_language : lang_data := LangData [] 0 0 0 0.

(** One per-language block of the comparison text: the three
    [old → new (delta)] lines. *)
Record language_delta := LanguageDelta {
  language : pystr;
  files1 : Z; files2 : Z; files_diff : Z;
  lines1 : Z; lines2 : Z; lines_diff : Z;
  code1 : Z; code2 : Z; code_diff : Z
}.

(** The numbers [perform_comparison] writes into the comparison pane. *)
Record comparison := Comparison {
  total_files1 : Z; total_files2 : Z; total_files_diff : Z;
  total_lines1 : Z; total_lines2 : Z; total_lines_diff : Z;
  per_language : list language_delta
}.

Definition compare_language (results1 results2 : gmap pystr lang_data)
    (lang : pystr) : language_delta :=
  let data1 := default absent_language (results1 !! lang) in
  let data2 := default absent_language (results2 !! lang) in
  let f1 := file_count data1 in
  let f2 := file_count data2 in
  let l1 := ld_total_lines data1 in
  let l2 := ld_total_lines data2 in
  let c1 := ld_code_lines data1 in
  let c2 := ld_code_lines data2 in
  LanguageDelta lang f1 f2 (f2 - f1) l1 l2 (l2 - l1) c1 c2 (c2 - c1).

(** [sorted(set(results1.keys()) | set(results2.keys()))] *)
Definition all_languages (results1 results2 : gmap pystr lang_data)
    : list pystr :=
  merge_sort str_le (elements (dom results1 ∪ dom results2 : gset pystr)).

Definition perform_comparison (data1 data2 : snapshot) : comparison :=
  let results1 := get_results data1 in
  let results2 := get_results data2 in
  let tf1 := sum_values file_count results1 in
  let tf2 := sum_values file_count results2 in
  let tl1 := sum_values ld_total_lines results1 in
  let tl2 := sum_values ld_total_lines results2 in
  Comparison tf1 tf2 (tf2 - tf1) tl1 tl2 (tl2 - tl1)
    (compare_language results1 results2
       <$> all_languages results1 results2).

(** *** [analyze_directory] and [update_results_ui] *)

(** The entry a language gets when its first file is aggregated. *)
Definition fresh_language : lang_data := LangData [] 0 0 0 0.

(** The body of [if result:]: create the entry when the language is
    new, append the file, add its four counters. *)
Definition add_result (results : gmap pystr lang_data) (lang : pystr)
    (result : file_metrics) : gmap pystr lang_data :=
  let entry := default fresh_language (results !! lang) in
  <[lang := LangData (files entry ++ [result])
              (ld_total_lines entry + total_lines result)
              (ld_code_lines entry + fm_code_lines result)
              (ld_comment_lines entry + fm_comment_lines result)
              (ld_empty_lines entry + fm_empty_lines result)]> results.

Section Analysis.
Variable suffix : pystr -> pystr.
Variable lower : pystr -> pystr.

(** [read path] is the decoded text of the file at [path], [None] when
    it cannot be opened. *)
Variable read : pystr -> option pystr.

(** The loop [for i, file_path in enumerate(files)] of
    [analyze_directory], on [self.results]. [Raise] stands for the
    [except] branch (the error dialog). *)
Fixpoint analyze_files (language_configs : list (pystr * language_config))
    (selected : list pystr) (file_paths : list pystr)
    (results : gmap pystr lang_data) : py_result (gmap pystr lang_data) :=
  match file_paths with
  | [] => Return results
  | file_path :: rest =>
      let lang :=
        get_language_from_extension suffix lower file_path language_configs in
      if negb (bool_decide (lang ∈ selected))
         && negb (bool_decide (lang = str "Unknown"))
      then analyze_files language_configs selected rest results
      else
        match analyze_file (read file_path) file_path
                (get_config language_configs lang) with
        | Raise => Raise
        | Return None => analyze_files language_configs selected rest results
        | Return (Some result) =>
            analyze_files language_configs selected rest
              (add_result results lang result)
        end
  end.

(** [analyze_directory]: collect the files, then scan and aggregate
    them. [language_configs] is [self.language_configs]. *)
Definition analyze_directory (self : app)
    (language_configs : list (pystr * language_config)) (tree : dir_tree)
    : py_result app :=
  match analyze_files language_configs (selected_languages self)
          (collect_files (include_patterns self) (exclude_patterns self)
             (current_directory self) tree)
          (results self) with
  | Raise => Raise
  | Return r => Return (set_results self r)
  end.
End Analysis.

(** The numbers of the summary label written by [update_results_ui]. *)
Record summary := Summary {
  sum_files : Z;
  sum_lines : Z;
  sum_code : Z;
  sum_comment : Z;
  sum_empty : Z
}.

Definition update_results_ui (results : gmap pystr lang_data) : summary :=
  Summary (sum_values file_count results)
    (sum_values ld_total_lines results)
    (sum_values ld_code_lines results)
    (sum_values ld_comment_lines results)
    (sum_values ld_empty_lines results).

(** *** [update_config_from_ui] and the pattern entries *)

(** [s.split(sep)] for a one-character separator. *)
Fixpoint split_on (sep : N) (cur s : pystr) : list pystr :=
  match s with
  | [] => [cur]
  | c :: t =>
      if (c =? sep)%N then cur :: split_on sep [] t
      else split_on sep (cur ++ [c]) t
  end.

(** [[p.strip() for p in text.split(",") if p.strip()]] *)
Fixpoint strip_pieces (pieces : list pystr) : list pystr :=
  match pieces with
  | [] => []
  | p :: rest =>
      if truthy (strip p) then strip p :: strip_pieces rest
      else strip_pieces rest
  end.

Definition parse_patterns (entry_text : pystr) : list pystr :=
  strip_pieces (split_on 44 [] entry_text).

(** [[lang for lang, var in self.lang_vars.items() if var.get()]] *)
Fixpoint checked_languages (lang_vars : list (pystr * bool)) : list pystr :=
  match lang_vars with
  | [] => []
  | (lang, var) :: rest =>
      if var then lang :: checked_languages rest else checked_languages rest
  end.

(** [update_config_from_ui], from the texts of the two entries and the
    check boxes. *)
Definition update_config_from_ui (self : app) (include_text exclude_text : pystr)
    (lang_vars : list (pystr * bool)) : app :=
  App (results self) (current_directory self)
    (parse_patterns include_text) (parse_patterns exclude_text)
    (checked_languages lang_vars).

(** [sep.join(items)] *)
Fixpoint join (sep : pystr) (items : list pystr) : pystr :=
  match items with
  | [] => []
  | x :: rest =>
      match rest with
      | [] => x
      | _ :: _ => x ++ sep ++ join sep rest
      end
  end.

(** The text [reload_config] puts into a pattern entry. *)
Definition entry_text (patterns : list pystr) : pystr :=
  join (str ", ") patterns.

(** *** [select_directory] *)

(** [l.remove(x)] for an [x] that is in [l]: drop its first
    occurrence. *)
Fixpoint list_remove (x : pystr) (l : list pystr) : list pystr :=
  match l with
  | [] => []
  | y :: rest => if bool_decide (y = x) then rest else y :: list_remove x rest
  end.

(** [select_directory] on [self.current_directory] and
    [self.config["recent_directories"]] ([None]: the key is absent,
    and indexing it raises). [directory] is the answer of the dialog,
    empty when cancelled. *)
Definition select_directory (directory : pystr) (current : pystr)
    (recent : option (list pystr))
    : py_result (pystr * option (list pystr)) :=
  if truthy directory then
    match recent with
    | None => Raise
    | Some l =>
        let l1 :=
          if bool_decide (directory ∈ l) then list_remove directory l else l in
        Return (directory, Some (take 10 (directory :: l1)))
    end
  else Return (current, recent).

(** *** [load_custom_language_configs] *)

(** [d[k] = v] on a dict kept in insertion order. *)
Fixpoint dict_set (d : list (pystr * language_config)) (k : pystr)
    (v : language_config) : list (pystr * language_config) :=
  match d with
  | [] => [(k, v)]
  | (k', v') :: rest =>
      if bool_decide (k' = k) then (k, v) :: rest
      else (k', v') :: dict_set rest k v
  end.

(** [d.update(other)] *)
Fixpoint dict_update (d other : list (pystr * language_config))
    : list (pystr * language_config) :=
  match other with
  | [] => d
  | (k, v) :: rest => dict_update (dict_set d k v) rest
  end.

(** [load_custom_language_configs] on [self.language_configs]:
    [custom] is the parsed content of the custom-languages file,
    [None] when the file is missing or malformed. *)
Definition load_custom_language_configs
    (language_configs : list (pystr * language_config))
    (custom : option (list (pystr * language_config)))
    : list (pystr * language_config) :=
  match custom with
  | None => language_configs
  | Some custom_configs => dict_update language_configs custom_configs
  end.

End ModernCodeCounterApp.

Import ModernCodeCounterApp.

(** ** Predicates used in the statements *)

Module Spec.

(** Inside a block comment the scanner knows the end marker it waits
    for. *)
Definition well_formed (st : scan_state) : Prop :=
  in_block_comment st = true -> is_Some (block_comment_end st).

(** The pair loop moves past a pair without acting on it: its start
    marker is absent from the line, or its end marker occurs in the
    line but not after the first start marker. *)
Definition passed_over (line : pystr) (p : pystr * pystr) : bool :=
  negb (contains p.1 line)
  || (contains p.2 line
      && (find line p.2 (find line p.1 0 + len p.1) =? -1)).

(** What one line adds to the three counters: one blank, or one
    comment (and possibly one code as well), or one code. *)
Definition counted_once (st st' : scan_state) : Prop :=
  (empty_lines st' = empty_lines st + 1
   /\ comment_lines st' = comment_lines st
   /\ code_lines st' = code_lines st)
  \/ (empty_lines st' = empty_lines st
      /\ comment_lines st' = comment_lines st + 1
      /\ (code_lines st' = code_lines st \/ code_lines st' = code_lines st + 1))
  \/ (empty_lines st' = empty_lines st
      /\ comment_lines st' = comment_lines st
      /\ code_lines st' = code_lines st + 1).

Definition c_config : language_config :=
  get_config DEFAULT_LANGUAGES (str "C/C++").
Definition python_config : language_config :=
  get_config DEFAULT_LANGUAGES (str "Python").
Definition html_config : language_config :=
  get_config DEFAULT_LANGUAGES (str "HTML/CSS").

Definition newline : pystr := [10%N].

(** Sample inputs. *)
Definition inside_c_block : scan_state :=
  ScanState 0 1 0 true (Some (str "/*")) (Some (str "*/")).
Definition blank_sample : pystr := str "   " ++ newline.
Definition docstring_open : pystr := triple_dquote ++ str "doc" ++ newline.
Definition docstring_file : list pystr :=
  [docstring_open; str "more" ++ newline; triple_dquote ++ newline].
Definition mixed_markers : pystr := str "--> <!-- /* x */ y" ++ newline.

(** A configuration holding only the given block-comment pairs. *)
Definition only_pairs (pairs : list (pystr * pystr)) : language_config :=
  LanguageConfig None None (Some pairs) None.

(** [sub] occurs in [s]. *)
Definition substring (sub s : pystr) : Prop :=
  exists a b, s = a ++ sub ++ b.

(** Some exclude pattern other than the empty string and ["*"] occurs
    in the path. *)
Definition excluded_by (exclude_patterns : list pystr) (path : pystr) : Prop :=
  exists pattern,
    pattern ∈ exclude_patterns /\ pattern <> [] /\ pattern <> str "*"
    /\ substring pattern path.

(** The include patterns hold ["*"], or a non-empty one occurs in the
    path. *)
Definition included_by (include_patterns : list pystr) (path : pystr) : Prop :=
  str "*" ∈ include_patterns
  \/ exists pattern,
       pattern ∈ include_patterns /\ pattern <> [] /\ substring pattern path.

(** The configuration has an extension list and the list holds
    [ext]. *)
Definition lists_extension (cfg : language_config) (ext : pystr) : Prop :=
  exists exts, extensions cfg = Some exts /\ ext ∈ exts.

(** Instances of [Path.suffix] and [str.lower] for the sample paths.
    [posix_suffix] is [PurePosixPath(path).suffix]: the final
    component is the last one that is neither empty nor ["."], and
    the suffix starts at its last dot, unless that dot is its first
    or last character. [ascii_lower] lowers the letters [A] to [Z]
    and leaves every other character alone, as [str.lower] does on
    ASCII text. *)
Fixpoint from_last_dot (name : pystr) : option pystr :=
  match name with
  | [] => None
  | c :: t =>
      match from_last_dot t with
      | Some s => Some s
      | None => if (c =? 46)%N then Some (c :: t) else None
      end
  end.

(** [PurePosixPath(path).name] *)
Definition path_name (path : pystr) : pystr :=
  default []
    (last (List.filter
             (fun part => negb (bool_decide (part = []))
                          && negb (bool_decide (part = str ".")))
             (split_on 47%N [] path))).

Definition posix_suffix (path : pystr) : pystr :=
  match path_name path with
  | [] => []
  | _ :: t =>
      match from_last_dot t with
      | Some (dot :: c :: s) => dot :: c :: s
      | _ => []
      end
  end.

Definition ascii_lower (s : pystr) : pystr :=
  (fun c => if ((65 <=? c) && (c <=? 90))%N then (c + 32)%N else c) <$> s.

(** A small tree: [a.py], [test_a.py], [src/b.c] and a hidden
    directory [.git] holding [config]. *)
Definition sample_tree : dir_tree :=
  Dir [ (str ".git", Dir [] [str "config"]);
        (str "src", Dir [] [str "b.c"]) ]
      [str "a.py"; str "test_a.py"].

Definition sample_file : file_metrics :=
  FileMetrics 3 1 1 1 (str "proj/a.py") (str "a.py").

Definition sample_results : gmap pystr lang_data :=
  {[ str "Python" := LangData [sample_file] 3 1 1 1 ]}.

Definition other_results : gmap pystr lang_data :=
  {[ str "C/C++" := LangData [sample_file; sample_file] 10 6 2 2 ]}.

Definition sample_app : app :=
  App sample_results (str "proj") [str "*"] [] [str "Python"].

Definition empty_app : app :=
  App ∅ (str "proj") [str "*"] [] [str "Python"].

Definition stale_app : app :=
  App other_results (str "old") [str "*"] [] [str "C/C++"].

Definition snapshot_of (r : gmap pystr lang_data) : snapshot :=
  Snapshot (str "proj") (str "2024-01-01T00:00:00") (Some r)
    (ExportConfig [str "*"] [] []).

(** *** Predicates for the further properties *)

(** The line is blank for the scanner. *)
Definition is_blank (line : pystr) : bool := negb (truthy (strip line)).

(** The stripped line starts with a non-empty single-line marker. *)
Definition marker_prefix (cfg : language_config) (line : pystr) : bool :=
  existsb (fun m => truthy m && startswith (strip line) m)
    (single_line_markers cfg).

(** Number of lines satisfying a test. *)
Definition count_lines (f : pystr -> bool) (lines : list pystr) : Z :=
  Z.of_nat (length (List.filter f lines)).

(** The block-comment variables agree: outside a block both markers
    are unset, inside they are the markers of one configured pair. *)
Definition state_consistent (cfg : language_config) (st : scan_state) : Prop :=
  (in_block_comment st = false
   /\ block_comment_start st = None /\ block_comment_end st = None)
  \/ (in_block_comment st = true
      /\ exists s e,
           (s, e) ∈ default [] (multi_line_comment cfg)
           /\ block_comment_start st = Some s
           /\ block_comment_end st = Some e).

(** A tree without its hidden directories, at every depth. *)
Fixpoint prune (t : dir_tree) : dir_tree :=
  match t with
  | Dir subdirs filenames =>
      Dir ((fix go (ds : list (pystr * dir_tree)) : list (pystr * dir_tree) :=
              match ds with
              | [] => []
              | (d, sub) :: rest =>
                  if startswith d (str ".") then go rest
                  else (d, prune sub) :: go rest
              end) subdirs)
          filenames
  end.

(** The two pattern tests of [collect_files] on one path. *)
Definition passes (inc exc : list pystr) (p : pystr) : bool :=
  negb (exclude_loop exc p) && include_flag inc p.

(** A pattern as the entry parser produces them: not empty, without
    surrounding whitespace, without comma. *)
Definition clean_pattern (p : pystr) : Prop :=
  p <> [] /\ strip p = p /\ 44%N ∉ p.

(** Sum of one counter over a list of file records. *)
Definition sum_metrics (f : file_metrics -> Z) (l : list file_metrics) : Z :=
  foldr (fun m acc => f m + acc) 0 l.

(** The totals of an aggregate are the sums over its files. *)
Definition aggregate_consistent (d : lang_data) : Prop :=
  ld_total_lines d = sum_metrics total_lines (files d)
  /\ ld_code_lines d = sum_metrics fm_code_lines (files d)
  /\ ld_comment_lines d = sum_metrics fm_comment_lines (files d)
  /\ ld_empty_lines d = sum_metrics fm_empty_lines (files d).

(** The sample tree read as a file system. *)
Definition sample_read (path : pystr) : option pystr :=
  if bool_decide (path = str "proj/a.py")
  then Some (str "# header" ++ newline ++ newline ++ str "code()" ++ newline)
  else if bool_decide (path = str "proj/test_a.py")
  then Some (str "assert True" ++ newline)
  else if bool_decide (path = str "proj/src/b.c")
  then Some (str "/* a */ int x;" ++ newline)
  else None.

(** The record [analyze_directory] aggregates for a file of language
    [lang], if the file can be read. *)
Definition metrics_of (read : pystr -> option pystr)
    (table : list (pystr * language_config)) (lang file_path : pystr)
    : option file_metrics :=
  match analyze_file (read file_path) file_path (get_config table lang) with
  | Return (Some m) => Some m
  | _ => None
  end.

(** The file is classified as [lang], and [lang] is selected or is
    ["Unknown"]. *)
Definition taken (suffix lower : pystr -> pystr)
    (table : list (pystr * language_config)) (selected : list pystr)
    (lang file_path : pystr) : bool :=
  bool_decide (get_language_from_extension suffix lower file_path table = lang)
  && (bool_decide (lang ∈ selected) || bool_decide (lang = str "Unknown")).

(** The files of a language in the results, none when the language has
    no entry. *)
Definition files_of (r : gmap pystr lang_data) (lang : pystr)
    : list file_metrics :=
  files (default fresh_language (r !! lang)).

(** The bounds every file record satisfies. *)
Definition record_bounded (m : file_metrics) : Prop :=
  0 <= fm_empty_lines m <= total_lines m
  /\ 0 <= fm_comment_lines m <= total_lines m
  /\ 0 <= fm_code_lines m <= total_lines m
  /\ total_lines m
     <= fm_empty_lines m + fm_comment_lines m + fm_code_lines m
     <= 2 * total_lines m.

(** Every entry of the results has at least one file, totals equal to
    the sums over its files, and bounded file records. *)
Definition results_consistent (r : gmap pystr lang_data) : Prop :=
  forall lang d,
    r !! lang = Some d ->
    files d <> [] /\ aggregate_consistent d /\ Forall record_bounded (files d).

(** Sum of one column of the per-language blocks of a comparison. *)
Definition sum_deltas (f : language_delta -> Z) (l : list language_delta) : Z :=
  foldr (fun d acc => f d + acc) 0 l.

(** A table without the extension entries that lower-casing changes. *)
Definition lower_case_entries (lower : pystr -> pystr)
    (table : list (pystr * language_config))
    : list (pystr * language_config) :=
  (fun '(lang, cfg) =>
     (lang,
      LanguageConfig
        ((fun exts => List.filter (fun e => bool_decide (lower e = e)) exts)
           <$> extensions cfg)
        (single_line_comment cfg) (multi_line_comment cfg)
        (string_delimiters cfg))) <$> table.


(** *** Exported documents *)

(** The text [json.dump] writes for a value: the chunks of
    [iterencode] one after the other. *)
Fixpoint render (level : nat) (v : pyobj) {struct v} : pystr :=
  match v with
  | PNone => str "null"
  | PBool b => if b then str "true" else str "false"
  | PInt z => default [] (int_str z)
  | PStr s => encode_basestring s
  | PList items =>
      match items with
      | [] => str "[]"
      | first :: rest =>
          91%N :: newline_indent (S level) ++ render (S level) first
          ++ flat_map
               (fun x => 44%N :: newline_indent (S level) ++ render (S level) x)
               rest
          ++ newline_indent level ++ [93%N]
      end
  | PDict members =>
      match members with
      | [] => str "{}"
      | first :: rest =>
          123%N :: newline_indent (S level)
          ++ encode_basestring first.1 ++ str ": " ++ render (S level) first.2
          ++ flat_map
               (fun kv =>
                  44%N :: newline_indent (S level)
                  ++ encode_basestring kv.1 ++ str ": "
                  ++ render (S level) kv.2)
               rest
          ++ newline_indent level ++ [125%N]
      end
  end.

(** An [int] Python can print: at most [int_max_str_digits] digits. *)
Definition short (z : Z) : bool :=
  bool_decide (length (digits (Z.abs_N z)) <= int_max_str_digits)%nat.

(** A value [json.dump] writes to the end into a UTF-8 file: every
    string can be encoded and every [int] can be printed. *)
Fixpoint writable (v : pyobj) : bool :=
  match v with
  | PNone | PBool _ => true
  | PInt z => short z
  | PStr s => encodable s
  | PList items => forallb writable items
  | PDict members =>
      forallb (fun kv => encodable kv.1 && writable kv.2) members
  end.

(** Fuel that [scan_once] needs to read a value back. *)
Fixpoint need (v : pyobj) : nat :=
  match v with
  | PList items => S (list_sum ((fun x => S (need x)) <$> items))
  | PDict members => S (list_sum ((fun kv => S (need kv.2)) <$> members))
  | _ => 1
  end.

(** What may follow a value in a document the encoder wrote: the end
    of the text, a newline or a comma. *)
Definition delimited (rest : pystr) : Prop :=
  match rest with
  | [] => True
  | c :: _ => c = 10%N \/ c = 44%N
  end.

(** The first character of an encoded value. *)
Definition starts_value (c : N) : Prop :=
  is_ws c = false /\ c <> 93%N /\ c <> 125%N /\ c <> 65279%N.

(** [order] lists the keys of the dict [r], each once. *)
Definition dict_order (order : list pystr) (r : gmap pystr lang_data) : Prop :=
  NoDup order /\ forall k, k ∈ order <-> is_Some (r !! k).

Definition file_exportable (m : file_metrics) : bool :=
  encodable (file_path m) && encodable (file_name m)
  && short (total_lines m) && short (fm_empty_lines m)
  && short (fm_comment_lines m) && short (fm_code_lines m).

Definition language_exportable (d : lang_data) : bool :=
  forallb file_exportable (files d)
  && short (ld_total_lines d) && short (ld_code_lines d)
  && short (ld_comment_lines d) && short (ld_empty_lines d).

(** Every string of the exported document (the directory, the time
    stamp, the patterns, the language names, the paths and names of
    the files) can be encoded as UTF-8, that is, holds no surrogate
    code point, and every count has at most [int_max_str_digits]
    digits. *)
Definition exportable (self : app) (now : pystr) : Prop :=
  encodable (current_directory self) = true
  /\ encodable now = true
  /\ forallb encodable (include_patterns self) = true
  /\ forallb encodable (exclude_patterns self) = true
  /\ forallb encodable (selected_languages self) = true
  /\ map_Forall
       (fun k d => encodable k = true /\ language_exportable d = true)
       (results self).

(** A directory [proj] with one file, named by bytes that are no
    UTF-8 text: [os.walk] hands out its name with a lone surrogate
    (the [surrogateescape] of the file system encoding), here
    [a\udc80.py]. *)
Definition escaped_name : pystr := str "a" ++ [56448%N] ++ str ".py".

Definition escaped_tree : dir_tree := Dir [] [escaped_name].

Definition escaped_read (path : pystr) : option pystr :=
  if bool_decide (path = str "proj/" ++ escaped_name)
  then Some (str "# header" ++ newline ++ newline ++ str "code()" ++ newline)
  else None.

Definition escaped_file : file_metrics :=
  FileMetrics 3 1 1 1 (str "proj/" ++ escaped_name) escaped_name.

(** The session after the scan of that directory. *)
Definition escaped_app : app :=
  App {[ str "Python" := LangData [escaped_file] 3 1 1 1 ]}
    (str "proj") [str "*"] [] [str "Python"].

Definition no_files : file_system := FileSystem ∅ ∅.

End Spec.

Import Spec.

(** ** Facts about the string operations *)

Module PyStrFacts.

Lemma startswith_spec (s p : pystr) :
  startswith s p = true <-> exists rest, s = p ++ rest.
Proof.
  revert s. induction p as [|c p IH]; intros s; simpl.
  - split; [intros _; exists s; reflexivity | intros _; reflexivity].
  - destruct s as [|d s].
    + split; [done | intros [rest H]; discriminate].
    + rewrite andb_true_iff, N.eqb_eq, IH. split.
      * intros [-> [rest ->]]. by exists rest.
      * intros [rest H]. injection H as -> ->. eauto.
Qed.

Lemma startswith_app (p rest : pystr) : startswith (p ++ rest) p = true.
Proof. apply startswith_spec. by exists rest. Qed.

Lemma find_first_Some (sub s : pystr) (i : nat) :
  find_first sub s = Some i -> startswith (drop i s) sub = true.
Proof.
  revert i. induction s as [|c s IH]; intros i; simpl.
  - destruct (startswith [] sub) eqn:E; [|done].
    intros [= <-]. done.
  - destruct (startswith (c :: s) sub) eqn:E.
    + intros [= <-]. done.
    + destruct (find_first sub s) as [j|]; simpl; [|done].
      intros [= <-]. simpl. by apply IH.
Qed.

Lemma find_first_bound (sub s : pystr) (i : nat) :
  find_first sub s = Some i -> (i <= length s)%nat.
Proof.
  revert i. induction s as [|c s IH]; intros i; simpl.
  - destruct (startswith [] sub); [|done]. intros [= <-]. lia.
  - destruct (startswith (c :: s) sub).
    + intros [= <-]. lia.
    + destruct (find_first sub s) as [j|]; simpl; [|done].
      intros [= <-]. specialize (IH j eq_refl). lia.
Qed.

Lemma find_first_None (sub s : pystr) (k : nat) :
  find_first sub s = None -> startswith (drop k s) sub = false.
Proof.
  revert k. induction s as [|c s IH]; intros k; simpl.
  - destruct (startswith [] sub) eqn:E; [done|].
    intros _. by destruct k.
  - destruct (startswith (c :: s) sub) eqn:E; [done|].
    destruct (find_first sub s) as [j|] eqn:F; simpl; [done|].
    intros _. destruct k as [|k]; simpl; [done|]. by apply IH.
Qed.

(** [sub in s] holds exactly when [s] splits around an occurrence of
    [sub]. *)
Lemma contains_spec (sub s : pystr) :
  contains sub s = true <-> exists a b, s = a ++ sub ++ b.
Proof.
  unfold contains. split.
  - destruct (find_first sub s) as [i|] eqn:F; [|done]. intros _.
    apply find_first_Some, startswith_spec in F as [b Hb].
    exists (take i s), b. by rewrite <- Hb, take_drop.
  - intros (a & b & ->).
    destruct (find_first sub (a ++ sub ++ b)) eqn:F; [done|].
    apply (find_first_None _ _ (length a)) in F.
    rewrite drop_app_length, startswith_app in F. done.
Qed.

Lemma contains_false (sub s : pystr) :
  contains sub s = false <-> ~ exists a b, s = a ++ sub ++ b.
Proof. rewrite <- contains_spec. by destruct (contains sub s). Qed.




Lemma lstrip_app_keep (a : pystr) (c : N) (b : pystr) :
  isspace c = false -> lstrip (a ++ c :: b) = lstrip a ++ c :: b.
Proof.
  intros Hc. induction a as [|x a IH]; simpl.
  - by rewrite Hc.
  - destruct (isspace x); [apply IH | done].
Qed.

Lemma truthy_rev (s : pystr) : truthy (rev s) = truthy s.
Proof.
  destruct s as [|c s]; [done|]. simpl.
  by destruct (rev s).
Qed.

Lemma truthy_lstrip (s : pystr) : truthy (lstrip s) = existsb nonspace s.
Proof.
  induction s as [|c s IH]; simpl; [done|].
  unfold nonspace at 1. by destruct (isspace c).
Qed.

Lemma existsb_rev (f : N -> bool) (s : pystr) :
  existsb f (rev s) = existsb f s.
Proof.
  induction s as [|c s IH]; simpl; [done|].
  rewrite existsb_app, IH. simpl. rewrite orb_false_r. apply orb_comm.
Qed.

Lemma existsb_lstrip (s : pystr) :
  existsb nonspace (lstrip s) = existsb nonspace s.
Proof.
  induction s as [|c s IH]; simpl; [done|].
  unfold nonspace at 2. destruct (isspace c) eqn:E; simpl; [done|].
  unfold nonspace at 1. by rewrite E.
Qed.

(** A stripped string is non-empty exactly when the string holds a
    character that is not whitespace. *)
Lemma truthy_strip (s : pystr) : truthy (strip s) = existsb nonspace s.
Proof.
  unfold strip, rstrip.
  by rewrite truthy_rev, truthy_lstrip, existsb_rev, existsb_lstrip.
Qed.

Lemma strip_nil_iff (s : pystr) :
  strip s = [] <-> forallb isspace s = true.
Proof.
  assert (truthy (strip s) = false <-> strip s = []) as <-.
  { destruct (strip s); simpl; split; done. }
  rewrite truthy_strip. induction s as [|c s IH]; simpl; [done|].
  unfold nonspace at 1. destruct (isspace c); simpl; [done|]. split; done.
Qed.


End PyStrFacts.

Import PyStrFacts.

(** ** The line scanner *)

Module Scanner.

Lemma initial_well_formed : well_formed initial_state.
Proof. intros H. discriminate. Qed.

Lemma scan_single_cases (markers : list pystr) (st : scan_state) (lcc : pystr) :
  scan_single markers st lcc = (add_comment st, true)
  \/ scan_single markers st lcc = (st, false).
Proof.
  induction markers as [|m markers IH]; simpl; [by right|].
  destruct (truthy m && startswith lcc m); [by left | exact IH].
Qed.


(** The pair loop never raises from a well-formed state; it either
    leaves everything as it was, or classifies the line as a comment
    (clearing [line_comment_check]) and counts it once as a comment and
    at most once as code. *)
Lemma scan_pairs_cases (pairs : list (pystr * pystr)) (st : scan_state)
    (lcc : pystr) :
  well_formed st ->
  exists st' lcc',
    scan_pairs pairs st lcc = Return (st', lcc')
    /\ well_formed st'
    /\ ((lcc' = lcc /\ st' = st)
        \/ (lcc' = []
            /\ empty_lines st' = empty_lines st
            /\ comment_lines st' = comment_lines st + 1
            /\ (code_lines st' = code_lines st
                \/ code_lines st' = code_lines st + 1))).
Proof.
  intros Hwf. induction pairs as [|[s e] pairs IH]; simpl.
  - exists st, lcc. auto.
  - destruct (in_block_comment st) eqn:Hin; simpl.
    + destruct (Hwf Hin) as [active ->].
      eexists _, _. split; [reflexivity|].
      destruct (contains active lcc); (split; [|right; simpl; auto]).
      * intros H. discriminate.
      * intros _. simpl. eauto.
    + destruct (contains s lcc); [|exact IH].
      destruct (contains e lcc).
      * destruct (find lcc e (find lcc s 0 + len s) =? -1); simpl; [exact IH|].
        eexists _, _. split; [reflexivity|].
        destruct (truthy _); (split; [|right; simpl; auto]);
          intros H; simpl in H; congruence.
      * eexists _, _. split; [reflexivity|].
        split; [intros _; simpl; eauto | right; simpl; auto].
Qed.

(** One line, from a well-formed state: the scan returns, stays
    well-formed and counts the line once. *)
Lemma scan_line_counted (cfg : language_config) (st : scan_state) (line : pystr) :
  well_formed st ->
  exists st',
    scan_line cfg st line = Return st' /\ well_formed st' /\ counted_once st st'.
Proof.
  intros Hwf. unfold scan_line.
  destruct (truthy (strip line)) eqn:Hne; simpl.
  2:{ eexists. split; [reflexivity|]. split; [exact Hwf | left; simpl; auto]. }
  set (pairs := default [] (multi_line_comment cfg)).
  assert (exists st1 lcc1,
    match pairs with
    | [] => Return (st, strip line)
    | _ :: _ => scan_pairs pairs st (strip line)
    end = Return (st1, lcc1)
    /\ well_formed st1
    /\ ((lcc1 = strip line /\ st1 = st)
        \/ (lcc1 = []
            /\ empty_lines st1 = empty_lines st
            /\ comment_lines st1 = comment_lines st + 1
            /\ (code_lines st1 = code_lines st
                \/ code_lines st1 = code_lines st + 1)))) as H.
  { destruct pairs as [|p pairs'] eqn:Hp.
    - exists st, (strip line). auto.
    - apply scan_pairs_cases, Hwf. }
  destruct H as (st1 & lcc1 & -> & Hwf1 & [[-> ->] | (-> & He & Hc & Hd)]).
  - rewrite Hne. simpl.
    destruct (scan_single_cases (single_line_markers cfg) st (strip line))
      as [-> | ->]; simpl; eexists; (split; [reflexivity|]).
    + split; [exact Hwf | right; left; simpl; auto].
    + split; [exact Hwf | right; right; simpl; auto].
  - simpl. eexists. split; [reflexivity|]. split; [exact Hwf1|].
    right; left. auto.
Qed.

(** A whole file, from a well-formed state. *)
Lemma scan_lines_bounds (cfg : language_config) (lines : list pystr)
    (st : scan_state) :
  well_formed st ->
  exists st',
    scan_lines cfg st lines = Return st'
    /\ well_formed st'
    /\ (let n := Z.of_nat (length lines) in
        empty_lines st <= empty_lines st' <= empty_lines st + n
        /\ comment_lines st <= comment_lines st' <= comment_lines st + n
        /\ code_lines st <= code_lines st' <= code_lines st + n
        /\ n <= (empty_lines st' + comment_lines st' + code_lines st')
                - (empty_lines st + comment_lines st + code_lines st)
             <= 2 * n).
Proof.
  revert st. induction lines as [|line lines IH]; intros st Hwf.
  - exists st. simpl. split; [done|]. split; [done|]. lia.
  - destruct (scan_line_counted cfg st line Hwf) as (st1 & E1 & Hwf1 & Hc).
    destruct (IH st1 Hwf1) as (st' & E' & Hwf' & Hb).
    exists st'. simpl scan_lines. rewrite E1, E'.
    split; [done|]. split; [done|].
    cbv zeta in *. rewrite length_cons, Nat2Z.inj_succ.
    unfold counted_once in Hc. lia.
Qed.

Lemma scan_lines_app (cfg : language_config) (pre post : list pystr)
    (st : scan_state) :
  scan_lines cfg st (pre ++ post) =
  match scan_lines cfg st pre with
  | Raise => Raise
  | Return st' => scan_lines cfg st' post
  end.
Proof.
  revert st. induction pre as [|l pre IH]; intros st; simpl; [done|].
  destruct (scan_line cfg st l); [apply IH | done].
Qed.

(** C10. For every file that could be read, [analyze_file] returns
    metrics in which each of the blank, comment and code counters lies
    between 0 and the number of lines, and their sum lies between the
    number of lines and twice that number. *)
Theorem metrics_bounds (text path : pystr) (cfg : language_config) :
  exists m,
    analyze_file (Some text) path cfg = Return (Some m)
    /\ 0 <= fm_empty_lines m <= total_lines m
    /\ 0 <= fm_comment_lines m <= total_lines m
    /\ 0 <= fm_code_lines m <= total_lines m
    /\ total_lines m
       <= fm_empty_lines m + fm_comment_lines m + fm_code_lines m
       <= 2 * total_lines m.
Proof.
  unfold analyze_file, analyze_lines.
  destruct (scan_lines_bounds cfg (readlines text) initial_state
              initial_well_formed) as (st & -> & _ & Hb).
  eexists. split; [reflexivity|]. simpl in *. lia.
Qed.

(** C3. A line whose stripped form is empty is counted as a blank line
    and nothing else changes: the comment and code counters and the
    block-comment state are as before, also inside an open block
    comment. *)
Theorem blank_line_counted (cfg : language_config) (st : scan_state)
    (line : pystr) :
  strip line = [] ->
  scan_line cfg st line =
  Return (ScanState (empty_lines st + 1) (comment_lines st) (code_lines st)
            (in_block_comment st) (block_comment_start st)
            (block_comment_end st)).
Proof.
  intros H. unfold scan_line. rewrite H. reflexivity.
Qed.

Lemma blank_line_counted_witness :
  strip blank_sample = []
  /\ scan_line c_config inside_c_block blank_sample =
     Return (ScanState 1 1 0 true (Some (str "/*")) (Some (str "*/"))).
Proof.
  split; [reflexivity|].
  apply (blank_line_counted c_config inside_c_block blank_sample).
  reflexivity.
Defined.

Lemma pairs_guard (pairs : list (pystr * pystr)) (st : scan_state) (lcc : pystr) :
  match pairs with
  | [] => Return (st, lcc)
  | _ :: _ => scan_pairs pairs st lcc
  end = scan_pairs pairs st lcc.
Proof. by destruct pairs. Qed.

(** Outside a block comment the loop moves past every pair it passes
    over. *)
Lemma scan_pairs_skip (pre rest : list (pystr * pystr)) (st : scan_state)
    (lcc : pystr) :
  in_block_comment st = false ->
  forallb (passed_over lcc) pre = true ->
  scan_pairs (pre ++ rest) st lcc = scan_pairs rest st lcc.
Proof.
  intros Hout. induction pre as [|[s e] pre IH]; simpl; [done|].
  intros [Hp Hpre]%andb_true_iff. rewrite Hout. simpl.
  unfold passed_over in Hp. simpl in Hp.
  destruct (contains s lcc); simpl in Hp; [|by apply IH].
  apply andb_true_iff in Hp as [-> ->]. simpl. by apply IH.
Qed.

(** The first pair the loop does not pass over decides the line, when
    its end marker follows its start marker or is absent from the
    line: the pairs configured after it play no part. *)
Lemma first_pair_decides (pre post : list (pystr * pystr)) (s e : pystr)
    (st : scan_state) (lcc : pystr) :
  in_block_comment st = false ->
  forallb (passed_over lcc) pre = true ->
  passed_over lcc (s, e) = false ->
  scan_pairs (pre ++ (s, e) :: post) st lcc = scan_pairs [(s, e)] st lcc.
Proof.
  intros Hout Hpre Hp. rewrite scan_pairs_skip by done.
  simpl. rewrite Hout. simpl.
  unfold passed_over in Hp. simpl in Hp.
  destruct (contains s lcc); simpl in Hp; [|done].
  destruct (contains e lcc); simpl in Hp; [|done].
  by rewrite Hp.
Qed.

(** A start marker whose end marker is nowhere in the line opens a
    block comment: the line is a comment line and the scanner waits
    for that pair's end marker. *)
Lemma block_comment_opens (cfg : language_config) (st : scan_state)
    (line : pystr) (pre post : list (pystr * pystr)) (s e : pystr) :
  multi_line_comment cfg = Some (pre ++ (s, e) :: post) ->
  in_block_comment st = false ->
  strip line <> [] ->
  forallb (passed_over (strip line)) pre = true ->
  contains s (strip line) = true ->
  contains e (strip line) = false ->
  scan_line cfg st line =
  Return (ScanState (empty_lines st) (comment_lines st + 1) (code_lines st)
            true (Some s) (Some e)).
Proof.
  intros Hcfg Hout Hne Hpre Hs He. unfold scan_line.
  destruct (strip line) as [|c l] eqn:HL; [done|]. simpl truthy. cbv iota.
  simpl negb. cbv iota. rewrite Hcfg. simpl default.
  rewrite pairs_guard, scan_pairs_skip by done.
  simpl. rewrite Hout, Hs, He. reflexivity.
Qed.



(** The pair loop counts a line as code only for a block comment that
    opens and closes on the line with a character that is not
    whitespace after its end marker. *)
Lemma scan_pairs_code (pairs : list (pystr * pystr)) (st st' : scan_state)
    (lcc lcc' : pystr) :
  scan_pairs pairs st lcc = Return (st', lcc') ->
  code_lines st' <> code_lines st ->
  in_block_comment st = false
  /\ exists s e,
       (s, e) ∈ pairs
       /\ contains s lcc = true
       /\ find lcc e (find lcc s 0 + len s) <> -1
       /\ existsb nonspace
            (slice_from lcc (find lcc e (find lcc s 0 + len s) + len e))
          = true.
Proof.
  induction pairs as [|[s e] pairs IH]; simpl.
  - intros [= <- <-]. done.
  - destruct (in_block_comment st) eqn:Hin; simpl.
    + destruct (block_comment_end st); [|done].
      destruct (contains _ lcc); intros [= <- <-]; done.
    + destruct (contains s lcc) eqn:Hs.
      2:{ intros H1 H2. destruct (IH H1 H2) as [_ (s0 & e0 & Hm & HP)].
          split; [done|]. exists s0, e0.
          split; [by apply list_elem_of_further | done]. }
      destruct (contains e lcc) eqn:He.
      2:{ intros [= <- <-]. done. }
      destruct (find lcc e (find lcc s 0 + len s) =? -1) eqn:Hf; simpl.
      { intros H1 H2. destruct (IH H1 H2) as [_ (s0 & e0 & Hm & HP)].
        split; [done|]. exists s0, e0.
        split; [by apply list_elem_of_further | done]. }
      rewrite truthy_strip.
      destruct (existsb nonspace _) eqn:Hx; intros [= <- <-]; [|done].
      intros _. split; [done|]. exists s, e.
      split; [apply list_elem_of_here|].
      apply Z.eqb_neq in Hf. done.
Qed.






(** The HTML/CSS line [// <!-- /* x */ y]: the first pair the scanner
    acts on opens a block, so the later pair [/*], [*/] is never
    reached and the line is a comment line only. *)
Example marker_then_block_start :
  scan_line html_config initial_state (str "// <!-- /* x */ y")
  = Return (ScanState 0 1 0 true (Some (str "<!--")) (Some (str "-->"))).
Proof. reflexivity. Qed.

(** C1 on the code: a Python line that opens a docstring holds the
    start marker and no end marker after it, yet the scanner stays
    outside the block comment and counts the line as code; a
    three-line docstring is counted as three code lines. *)
Theorem unmatched_start_not_entered :
  contains triple_dquote (strip docstring_open) = true
  /\ find (strip docstring_open) triple_dquote
       (find (strip docstring_open) triple_dquote 0 + len triple_dquote) = -1
  /\ scan_line python_config initial_state docstring_open =
     Return (ScanState 0 0 1 false None None)
  /\ analyze_lines [] python_config docstring_file =
     Return (FileMetrics 3 0 0 3 [] []).
Proof. repeat split; reflexivity. Qed.

(** C5 on the code: in the HTML/CSS line [--> <!-- /* x */ y] the start
    marker of the first configured pair occurs, yet the second pair
    decides the line: the result is the one the second pair alone
    gives, not the one the first pair alone gives. *)
Theorem first_pair_passed_over :
  multi_line_comment html_config =
    Some [(str "<!--", str "-->"); (str "/*", str "*/")]
  /\ contains (str "<!--") (strip mixed_markers) = true
  /\ scan_line html_config initial_state mixed_markers =
     Return (ScanState 0 1 1 false None None)
  /\ scan_line (only_pairs [(str "/*", str "*/")]) initial_state mixed_markers =
     Return (ScanState 0 1 1 false None None)
  /\ scan_line (only_pairs [(str "<!--", str "-->")]) initial_state mixed_markers =
     Return (ScanState 0 0 1 false None None).
Proof. repeat split; reflexivity. Qed.

(** The scenarios of the specification, run on the model. *)
Example scenario_header_blank_code :
  analyze_file
    (Some (str "# header" ++ newline ++ newline ++ str "code()" ++ newline))
    (str "proj/a.py") python_config
  = Return (Some (FileMetrics 3 1 1 1 (str "proj/a.py") (str "a.py"))).
Proof. reflexivity. Qed.

Example scenario_block_over_three_lines :
  analyze_file
    (Some (str "/* start" ++ newline ++ str "middle" ++ newline
           ++ str "end */" ++ newline))
    (str "b.c") c_config
  = Return (Some (FileMetrics 3 0 3 0 (str "b.c") (str "b.c"))).
Proof. reflexivity. Qed.

Example scenario_blank_inside_block :
  analyze_file
    (Some (str "/* start" ++ newline ++ str "   " ++ newline
           ++ str "end */" ++ newline))
    (str "b.c") c_config
  = Return (Some (FileMetrics 3 1 2 0 (str "b.c") (str "b.c"))).
Proof. reflexivity. Qed.

Example unreadable_file (path : pystr) (cfg : language_config) :
  analyze_file None path cfg = Return None.
Proof. reflexivity. Qed.

End Scanner.

(** ** The file classifier *)

Module Classifier.

Lemma has_extension_spec (cfg : language_config) (ext : pystr) :
  has_extension cfg ext = true <-> lists_extension cfg ext.
Proof.
  unfold has_extension, lists_extension.
  destruct (extensions cfg) as [exts|].
  - rewrite bool_decide_eq_true. split.
    + intros H. by exists exts.
    + intros (exts' & [= <-] & H). done.
  - split; [done | intros (exts' & H & _); done].
Qed.

Lemma first_language_app (pre rest : list (pystr * language_config))
    (ext : pystr) :
  (forall l c, (l, c) ∈ pre -> ~ lists_extension c ext) ->
  first_language (pre ++ rest) ext = first_language rest ext.
Proof.
  induction pre as [|[l c] pre IH]; intros Hpre; simpl; [done|].
  destruct (has_extension c ext) eqn:E.
  - apply has_extension_spec in E.
    destruct (Hpre l c); [apply list_elem_of_here | done].
  - apply IH. intros l' c' Hin. apply (Hpre l' c').
    by apply list_elem_of_further.
Qed.

Lemma first_language_cases (table : list (pystr * language_config))
    (ext : pystr) :
  first_language table ext = str "Unknown"
  \/ exists cfg,
       (first_language table ext, cfg) ∈ table /\ lists_extension cfg ext.
Proof.
  induction table as [|[l c] table IH]; simpl; [by left|].
  destruct (has_extension c ext) eqn:E.
  - right. exists c. split; [apply list_elem_of_here|].
    by apply has_extension_spec.
  - destruct IH as [IH | (cfg & Hin & Hext)]; [by left|].
    right. exists cfg. split; [by apply list_elem_of_further | done].
Qed.

(** C8. Classification looks up the lower-cased extension of the path
    and returns the first language, in table order, whose extension
    list holds it; when no language lists it the answer is
    ["Unknown"]. The function is total, and its answer is always
    ["Unknown"] or a language of the table that lists the extension. *)
Theorem classify_first_match (suffix lower : pystr -> pystr)
    (file_path : pystr) (table : list (pystr * language_config)) :
  (forall pre lang cfg post,
      table = pre ++ (lang, cfg) :: post ->
      lists_extension cfg (lower (suffix file_path)) ->
      (forall l c, (l, c) ∈ pre ->
                   ~ lists_extension c (lower (suffix file_path))) ->
      get_language_from_extension suffix lower file_path table = lang)
  /\ ((forall l c, (l, c) ∈ table ->
                   ~ lists_extension c (lower (suffix file_path))) ->
      get_language_from_extension suffix lower file_path table = str "Unknown")
  /\ (get_language_from_extension suffix lower file_path table = str "Unknown"
      \/ exists cfg,
           (get_language_from_extension suffix lower file_path table, cfg)
             ∈ table
           /\ lists_extension cfg (lower (suffix file_path))).
Proof.
  unfold get_language_from_extension. split; [|split].
  - intros pre lang cfg post -> Hcfg Hpre.
    rewrite first_language_app by done. simpl.
    apply has_extension_spec in Hcfg. by rewrite Hcfg.
  - intros Hnone.
    pose proof (first_language_app table [] _ Hnone) as H.
    by rewrite app_nil_r in H.
  - apply first_language_cases.
Qed.

Lemma classify_first_match_witness :
  get_language_from_extension posix_suffix ascii_lower (str "src/Main.PY")
    DEFAULT_LANGUAGES = str "Python"
  /\ get_language_from_extension posix_suffix ascii_lower (str "notes.xyz")
       [] = str "Unknown".
Proof.
  split.
  - apply (proj1 (classify_first_match posix_suffix ascii_lower
                    (str "src/Main.PY") DEFAULT_LANGUAGES)
             (take 2 DEFAULT_LANGUAGES) (str "Python")
             (get_config DEFAULT_LANGUAGES (str "Python"))
             (drop 3 DEFAULT_LANGUAGES)).
    + reflexivity.
    + eexists. split; [reflexivity|]. vm_compute. apply list_elem_of_here.
    + intros l c Hin (exts & Hexts & Hext).
      vm_compute in Hin.
      apply elem_of_cons in Hin as [[= -> ->] | Hin].
      { vm_compute in Hexts. injection Hexts as <-. vm_compute in Hext.
        repeat (apply elem_of_cons in Hext as [Hext | Hext]; [discriminate|]).
        by apply elem_of_nil in Hext. }
      apply elem_of_cons in Hin as [[= -> ->] | Hin].
      { vm_compute in Hexts. injection Hexts as <-. vm_compute in Hext.
        repeat (apply elem_of_cons in Hext as [Hext | Hext]; [discriminate|]).
        by apply elem_of_nil in Hext. }
      by apply elem_of_nil in Hin.
  - apply (proj1 (proj2 (classify_first_match posix_suffix ascii_lower
                           (str "notes.xyz") []))).
    intros l c Hin. by apply elem_of_nil in Hin.
Defined.

Example classify_default_languages :
  get_language_from_extension posix_suffix ascii_lower (str "a/b/util.HPP")
    DEFAULT_LANGUAGES = str "C/C++"
  /\ get_language_from_extension posix_suffix ascii_lower (str "a/README")
       DEFAULT_LANGUAGES = str "Unknown"
  /\ get_language_from_extension posix_suffix ascii_lower (str "a/.bashrc")
       DEFAULT_LANGUAGES = str "Unknown"
  /\ get_language_from_extension posix_suffix ascii_lower (str "a/boot.S")
       DEFAULT_LANGUAGES = str "Assembly".
Proof. repeat split; reflexivity. Qed.

End Classifier.

(** ** The tree walker and its pattern filter *)

Module Walker.

Lemma truthy_spec (s : pystr) : truthy s = true <-> s <> [].
Proof. destruct s; simpl; split; done. Qed.

Lemma exclude_loop_spec (exclude_patterns : list pystr) (path : pystr) :
  exclude_loop exclude_patterns path = true
  <-> excluded_by exclude_patterns path.
Proof.
  unfold excluded_by, substring.
  induction exclude_patterns as [|pat pats IH]; simpl.
  - split; [done|]. intros (p & Hin & _). by apply elem_of_nil in Hin.
  - destruct (truthy pat && negb (bool_decide (pat = str "*"))
              && contains pat path) eqn:E.
    + split; [intros _ | done].
      apply andb_true_iff in E as [[Ht Hs]%andb_true_iff Hc].
      exists pat. split; [apply list_elem_of_here|].
      split; [by apply truthy_spec|].
      split; [by apply negb_true_iff, bool_decide_eq_false in Hs|].
      by apply contains_spec.
    + rewrite IH. split.
      * intros (p & Hin & H). exists p. split; [by apply list_elem_of_further | done].
      * intros (p & Hin & Hne & Hstar & Hsub).
        apply elem_of_cons in Hin as [-> | Hin]; [|by exists p].
        apply truthy_spec in Hne. apply contains_spec in Hsub.
        rewrite Hne, Hsub in E. simpl in E.
        rewrite andb_true_r in E.
        apply negb_false_iff, bool_decide_eq_true in E. done.
Qed.

Lemma include_loop_spec (include_patterns : list pystr) (path : pystr) :
  include_loop include_patterns path = true
  <-> exists pattern,
        pattern ∈ include_patterns /\ pattern <> [] /\ substring pattern path.
Proof.
  unfold substring.
  induction include_patterns as [|pat pats IH]; simpl.
  - split; [done|]. intros (p & Hin & _). by apply elem_of_nil in Hin.
  - destruct (truthy pat && contains pat path) eqn:E.
    + split; [intros _ | done].
      apply andb_true_iff in E as [Ht Hc].
      exists pat. split; [apply list_elem_of_here|].
      split; [by apply truthy_spec | by apply contains_spec].
    + rewrite IH. split.
      * intros (p & Hin & H). exists p. split; [by apply list_elem_of_further | done].
      * intros (p & Hin & Hne & Hsub).
        apply elem_of_cons in Hin as [-> | Hin]; [|by exists p].
        apply truthy_spec in Hne. apply contains_spec in Hsub.
        by rewrite Hne, Hsub in E.
Qed.

Lemma include_flag_spec (include_patterns : list pystr) (path : pystr) :
  include_flag include_patterns path = true
  <-> included_by include_patterns path.
Proof.
  unfold include_flag, included_by. case_bool_decide as Hstar.
  - split; [by left | done].
  - rewrite include_loop_spec. split; [by right|]. by intros [?|?].
Qed.

Lemma collect_in_dir_spec (inc exc : list pystr) (root_dir : pystr)
    (filenames : list pystr) (p : pystr) :
  p ∈ collect_in_dir inc exc root_dir filenames
  <-> p ∈ (path_join root_dir <$> filenames)
      /\ exclude_loop exc p = false /\ include_flag inc p = true.
Proof.
  induction filenames as [|f fs IH].
  - simpl. rewrite elem_of_nil. split; [done | by intros [? _]].
  - rewrite fmap_cons, (elem_of_cons (_ <$> fs)). cbn [collect_in_dir].
    destruct (exclude_loop exc (path_join root_dir f)) eqn:Ex.
    + rewrite IH. split; [tauto|].
      intros [[-> | H] [H1 H2]]; [congruence | tauto].
    + destruct (include_flag inc (path_join root_dir f)) eqn:In.
      * rewrite elem_of_cons, IH. split.
        -- intros [-> | H]; tauto.
        -- tauto.
      * rewrite IH. split; [tauto|].
        intros [[-> | H] [H1 H2]]; [congruence | tauto].
Qed.

Lemma collect_walk_spec (inc exc : list pystr)
    (visited : list (pystr * list pystr)) (p : pystr) :
  p ∈ collect_walk inc exc visited
  <-> p ∈ walk_paths visited
      /\ exclude_loop exc p = false /\ include_flag inc p = true.
Proof.
  induction visited as [|[root_dir filenames] visited IH].
  - simpl. rewrite elem_of_nil. split; [done | by intros [? _]].
  - cbn [collect_walk walk_paths].
    rewrite !elem_of_app, IH, collect_in_dir_spec. tauto.
Qed.

(** C9. A path offered by the walk is collected exactly when no
    exclude pattern other than the empty string and ["*"] occurs in it
    and, in addition, the include patterns hold ["*"] or a non-empty
    include pattern occurs in it. With no include pattern nothing is
    collected; with include ["*"] and exclude ["test"] the collected
    paths are the offered ones that do not contain ["test"]. *)
Theorem collect_files_filter :
  (forall (inc exc : list pystr) (dir : pystr) (tree : dir_tree) (p : pystr),
      p ∈ collect_files inc exc dir tree
      <-> p ∈ candidate_paths dir tree
          /\ ~ excluded_by exc p /\ included_by inc p)
  /\ (forall (exc : list pystr) (dir : pystr) (tree : dir_tree),
         collect_files [] exc dir tree = [])
  /\ (forall (dir : pystr) (tree : dir_tree) (p : pystr),
         p ∈ collect_files [str "*"] [str "test"] dir tree
         <-> p ∈ candidate_paths dir tree /\ ~ substring (str "test") p).
Proof.
  assert (forall inc exc dir tree p,
             p ∈ collect_files inc exc dir tree
             <-> p ∈ candidate_paths dir tree
                 /\ ~ excluded_by exc p /\ included_by inc p) as Hmain.
  { intros inc exc dir tree p. unfold collect_files, candidate_paths.
    rewrite collect_walk_spec, <- exclude_loop_spec, <- include_flag_spec.
    destruct (exclude_loop exc p); split; intros (H1 & H2 & H3);
      (split; [done|]); (split; [|done]); congruence. }
  split; [exact Hmain|]. split.
  - intros exc dir tree.
    apply elem_of_nil_inv. intros p [_ [_ Hinc]]%Hmain.
    destruct Hinc as [Hin | (pat & Hin & _)]; by apply elem_of_nil in Hin.
  - intros dir tree p. rewrite Hmain. split.
    + intros (Hc & Hex & _). split; [done|]. intros Hsub. apply Hex.
      exists (str "test"). split; [apply list_elem_of_here|].
      split; [done|]. split; [done | exact Hsub].
    + intros [Hc Hsub]. split; [done|]. split.
      * intros (pat & Hin & _ & _ & Hs).
        apply list_elem_of_singleton in Hin as ->. done.
      * left. apply list_elem_of_here.
Qed.

Lemma collect_files_filter_witness :
  collect_files [str "*"] [str "test"] (str "proj") sample_tree =
    [str "proj/a.py"; str "proj/src/b.c"]
  /\ (str "proj/test_a.py" ∈ candidate_paths (str "proj") sample_tree
      /\ ~ str "proj/test_a.py"
           ∈ collect_files [str "*"] [str "test"] (str "proj") sample_tree).
Proof.
  split; [reflexivity|]. split.
  - vm_compute. apply list_elem_of_further, list_elem_of_here.
  - intros H.
    apply (proj2 (proj2 collect_files_filter)) in H as [_ H].
    apply H. exists (str "proj/"), (str "_a.py"). reflexivity.
Defined.

End Walker.

(** ** JSON documents: what is written is read back *)

Module JsonFacts.

(** *** Numbers *)

Lemma is_digit_spec c : is_digit c = true <-> (48 <= c <= 57)%N.
Proof. unfold is_digit. rewrite andb_true_iff, !N.leb_le. tauto. Qed.

Lemma digits_fuel_S fuel n :
  digits_fuel (S fuel) n
  = if (n <? 10)%N then [(48 + n)%N]
    else digits_fuel fuel (n / 10) ++ [(48 + n mod 10)%N].
Proof. reflexivity. Qed.

Lemma digits_fuel_spec fuel n :
  (n < 2 ^ N.of_nat (S fuel))%N ->
  Forall (fun c => is_digit c = true) (digits_fuel (S fuel) n)
  /\ digits_value (digits_fuel (S fuel) n) = n
  /\ (exists c t, digits_fuel (S fuel) n = c :: t
                  /\ (c = 48%N -> n = 0%N /\ t = [])).
Proof.
  revert n. induction fuel as [|fuel IH]; intros n Hn.
  - assert (n < 10)%N as E by (simpl in Hn; lia).
    rewrite digits_fuel_S. apply N.ltb_lt in E as E'. rewrite E'.
    repeat split.
    + constructor; [apply is_digit_spec; lia|constructor].
    + unfold digits_value. simpl. lia.
    + exists (48 + n)%N, []. split; [reflexivity|]. intros. split; [lia|reflexivity].
  - rewrite digits_fuel_S. destruct (n <? 10)%N eqn:E.
    + apply N.ltb_lt in E. repeat split.
      * constructor; [apply is_digit_spec; lia|constructor].
      * unfold digits_value. simpl. lia.
      * exists (48 + n)%N, []. split; [reflexivity|]. intros. split; [lia|reflexivity].
    + apply N.ltb_ge in E.
      assert (n / 10 < 2 ^ N.of_nat (S fuel))%N as Hq.
      { rewrite (Nat2N.inj_succ (S fuel)), N.pow_succ_r' in Hn.
        apply N.Div0.div_lt_upper_bound.
        revert Hn. generalize (2 ^ N.of_nat (S fuel))%N. intros; lia. }
      destruct (IH _ Hq) as (Hd & Hv & c & t & Hc & Hz).
      assert (n mod 10 < 10)%N as Hr by (apply N.mod_lt; lia).
      assert (n = 10 * (n / 10) + n mod 10)%N as Hdm
        by (apply N.div_mod; lia).
      clear Hq IH Hn.
      revert Hd Hv Hc Hz Hr Hdm.
      generalize (n mod 10)%N as r. generalize (n / 10)%N as q.
      intros q r Hd Hv Hc Hz Hr Hdm.
      repeat split.
      * apply Forall_app. split; [exact Hd|].
        constructor; [apply is_digit_spec; lia|constructor].
      * unfold digits_value in *. rewrite fold_left_app. cbn [fold_left].
        rewrite Hv. lia.
      * rewrite Hc. exists c, (t ++ [(48 + r)%N]). split; [reflexivity|].
        intros Hc0. destruct (Hz Hc0) as [Hq0 _]. lia.
Qed.

Lemma digits_spec n :
  Forall (fun c => is_digit c = true) (digits n)
  /\ digits_value (digits n) = n
  /\ (exists c t, digits n = c :: t /\ (c = 48%N -> n = 0%N /\ t = [])).
Proof.
  unfold digits. apply digits_fuel_spec.
  rewrite Nat2N.inj_succ, N2Nat.id.
  destruct n as [|p]; [simpl; lia|].
  apply N.log2_spec. lia.
Qed.


Lemma span_digits_run ds rest :
  Forall (fun c => is_digit c = true) ds ->
  match rest with [] => True | c :: _ => is_digit c = false end ->
  span_digits (ds ++ rest) = (ds, rest).
Proof.
  induction 1 as [|c ds Hc _ IH]; cbn [List.app span_digits].
  - destruct rest; [reflexivity|]. cbn [span_digits]. intros ->. reflexivity.
  - intros Hrest. rewrite Hc, IH; auto.
Qed.

Lemma delimited_number_end rest :
  delimited rest ->
  match rest with [] => True | c :: _ => is_digit c = false end
  /\ scan_frac rest = ([], rest) /\ scan_exp rest = ([], rest).
Proof.
  destruct rest as [|c t]; simpl; [auto|]. intros [-> | ->]; auto.
Qed.

Lemma int_str_head z text :
  int_str z = Some text ->
  exists c t, text = c :: t /\ (c = 45%N \/ is_digit c = true).
Proof.
  unfold int_str. case_bool_decide; [|discriminate]. intros [= <-].
  destruct (digits_spec (Z.abs_N z)) as (Hd & _ & c & t & Hc & _).
  destruct (z <? 0); [eauto|].
  rewrite Hc in *. exists c, t. split; [reflexivity|].
  right. apply Forall_cons in Hd. tauto.
Qed.

Lemma scan_number_int z text rest :
  int_str z = Some text -> delimited rest ->
  scan_number (text ++ rest) = Some (JInt z, rest).
Proof.
  unfold int_str. case_bool_decide as Hlen; [|discriminate]. intros [= <-] Hrest.
  destruct (delimited_number_end rest Hrest) as (Hnd & Hfrac & Hexp).
  destruct (digits_spec (Z.abs_N z)) as (Hd & Hv & c & t & Hc & Hz).
  pose proof (span_digits_run _ _ Hd Hnd) as Hspan.
  assert (is_digit c = true) as Hcd
    by (rewrite Hc in Hd; apply Forall_cons in Hd; tauto).
  assert (scan_int_part (digits (Z.abs_N z) ++ rest)
          = Some (false, digits (Z.abs_N z), rest)) as Hpos.
  { unfold scan_int_part. rewrite Hc in *. cbn [List.app].
    assert ((c =? 45)%N = false) as ->
      by (apply is_digit_spec in Hcd; apply N.eqb_neq; lia).
    destruct (c =? 48)%N eqn:E.
    - apply N.eqb_eq in E. destruct (Hz E) as [_ ->]. reflexivity.
    - rewrite Hcd. cbn [List.app] in Hspan. rewrite Hspan. reflexivity. }
  unfold scan_number.
  destruct (z <? 0) eqn:Hneg.
  - apply Z.ltb_lt in Hneg.
    assert (scan_int_part ((45%N :: digits (Z.abs_N z)) ++ rest)
            = Some (true, digits (Z.abs_N z), rest)) as ->.
    { unfold scan_int_part. cbn [List.app N.eqb Pos.eqb].
      rewrite Hc in *. cbn [List.app] in *.
      destruct (c =? 48)%N eqn:E.
      + apply N.eqb_eq in E. destruct (Hz E) as [Hz0 _]. lia.
      + rewrite Hcd, Hspan. reflexivity. }
    rewrite Hfrac, Hexp. rewrite bool_decide_eq_true_2 by exact Hlen.
    rewrite Hv. do 3 f_equal. lia.
  - apply Z.ltb_ge in Hneg. rewrite Hpos.
    rewrite Hfrac, Hexp. rewrite bool_decide_eq_true_2 by exact Hlen.
    rewrite Hv. do 3 f_equal. lia.
Qed.

(** *** Strings *)

Lemma below_32 c :
  (c < 32)%N -> In c (map N.of_nat (seq 0 32)).
Proof.
  intros Hc. apply in_map_iff. exists (N.to_nat c).
  split; [lia|]. apply in_seq. lia.
Qed.

Lemma scanstring_escape_char c t acc :
  scanstring (escape_char c ++ t) acc = scanstring t (acc ++ [c]).
Proof.
  destruct (c <? 32)%N eqn:Hlow.
  - apply N.ltb_lt, below_32 in Hlow. simpl in Hlow.
    repeat (destruct Hlow as [<- | Hlow]; [reflexivity|]). destruct Hlow.
  - unfold escape_char. rewrite Hlow.
    destruct (c =? 34)%N eqn:E1; [apply N.eqb_eq in E1 as ->; reflexivity|].
    destruct (c =? 92)%N eqn:E2; [apply N.eqb_eq in E2 as ->; reflexivity|].
    apply N.ltb_ge in Hlow.
    repeat match goal with
           | |- context [(c =? ?k)%N] =>
               replace (c =? k)%N with false by (symmetry; apply N.eqb_neq; lia)
           end.
    cbn [List.app scanstring]. rewrite E1, E2.
    replace (c <? 32)%N with false by (symmetry; apply N.ltb_ge; lia).
    reflexivity.
Qed.

Lemma scanstring_encode s acc rest :
  scanstring (flat_map escape_char s ++ 34%N :: rest) acc = Some (acc ++ s, rest).
Proof.
  revert acc. induction s as [|c s IH]; intros acc.
  - simpl. rewrite app_nil_r. reflexivity.
  - cbn [flat_map]. rewrite <- app_assoc, scanstring_escape_char, IH.
    rewrite <- app_assoc. reflexivity.
Qed.

Lemma escape_char_chars c :
  Forall (fun x => x <> 13%N /\ (is_surrogate c = false -> is_surrogate x = false))
    (escape_char c).
Proof.
  destruct (c <? 32)%N eqn:Hlow.
  - apply N.ltb_lt, below_32 in Hlow. simpl in Hlow.
    repeat (destruct Hlow as [<- | Hlow];
            [vm_compute escape_char;
             repeat (constructor; [split; [discriminate|reflexivity]|]);
             constructor|]).
    destruct Hlow.
  - unfold escape_char. rewrite Hlow. apply N.ltb_ge in Hlow.
    repeat match goal with
           | |- context [(c =? ?k)%N] =>
               destruct (c =? k)%N;
               [repeat (constructor; [split; [discriminate|reflexivity]|]);
                constructor|]
           end.
    constructor; [|constructor]. split; [lia|auto].
Qed.

Lemma encode_basestring_chars s :
  Forall (fun x => x <> 13%N) (encode_basestring s)
  /\ (encodable s = true -> encodable (encode_basestring s) = true).
Proof.
  unfold encode_basestring, encodable. split.
  - constructor; [discriminate|]. apply Forall_app. split.
    + induction s as [|c s IH]; [constructor|]. cbn [flat_map].
      apply Forall_app. split; [|exact IH].
      eapply Forall_impl; [apply escape_char_chars|]. simpl. tauto.
    + constructor; [discriminate|constructor].
  - intros Hs. cbn [forallb]. rewrite forallb_app. cbn.
    rewrite andb_true_r.
    induction s as [|c s IH]; [reflexivity|]. cbn [flat_map].
    cbn [forallb] in Hs. apply andb_true_iff in Hs as [Hc Hs].
    rewrite forallb_app, (IH Hs), andb_true_r.
    apply forallb_forall. intros x Hx.
    pose proof (escape_char_chars c) as Hall.
    rewrite Forall_forall in Hall. apply list_elem_of_In in Hx.
    destruct (Hall x Hx) as [_ Hsur].
    rewrite Hsur; [reflexivity|]. destruct (is_surrogate c); [discriminate|reflexivity].
Qed.


(** *** Values *)

Lemma pyobj_induction (P : pyobj -> Prop) :
  P PNone -> (forall b, P (PBool b)) -> (forall z, P (PInt z)) ->
  (forall s, P (PStr s)) ->
  (forall items, Forall P items -> P (PList items)) ->
  (forall members, Forall (fun kv => P kv.2) members -> P (PDict members)) ->
  forall v, P v.
Proof.
  intros HN HB HI HS HL HD.
  refine (fix go (v : pyobj) : P v :=
            match v with
            | PNone => HN
            | PBool b => HB b
            | PInt z => HI z
            | PStr s => HS s
            | PList items =>
                HL items
                  ((fix all (l : list pyobj) : Forall P l :=
                      match l with
                      | [] => @List.Forall_nil _ P
                      | x :: l' => @List.Forall_cons _ P x l' (go x) (all l')
                      end) items)
            | PDict members =>
                HD members
                  ((fix all (l : list (pystr * pyobj))
                      : Forall (fun kv => P kv.2) l :=
                      match l with
                      | [] => @List.Forall_nil _ _
                      | kv :: l' =>
                          @List.Forall_cons _ (fun kv => P kv.2) kv l' (go kv.2) (all l')
                      end) members)
            end).
Qed.

Lemma skip_ws_indent n s : skip_ws (newline_indent n ++ s) = skip_ws s.
Proof.
  unfold newline_indent. cbn [List.app skip_ws is_ws N.eqb Pos.eqb orb].
  induction (2 * n)%nat as [|k IH]; [reflexivity|exact IH].
Qed.

Lemma skip_ws_head c t : is_ws c = false -> skip_ws (c :: t) = c :: t.
Proof. intros H. cbn [skip_ws]. rewrite H. reflexivity. Qed.

Lemma digit_starts_value c : is_digit c = true -> starts_value c.
Proof.
  intros H%is_digit_spec. unfold starts_value, is_ws.
  rewrite !orb_false_iff, !N.eqb_neq. lia.
Qed.

Lemma render_head level v :
  writable v = true ->
  exists c t, render level v = c :: t /\ starts_value c.
Proof.
  destruct v as [|[]|z|s|[|x items]|[|kv members]]; cbn [render writable]; intros Hw;
    try (eexists _, _; split; [reflexivity|];
         unfold starts_value; cbn; repeat split; discriminate).
  unfold short in Hw. apply bool_decide_eq_true in Hw.
  destruct (int_str z) as [text|] eqn:E.
  - destruct (int_str_head _ _ E) as (c & t & -> & [-> | Hd]).
    + eexists _, _; split; [reflexivity|].
      unfold starts_value; cbn; repeat split; discriminate.
    + eexists _, _; split; [reflexivity|]. apply digit_starts_value, Hd.
  - unfold int_str in E. rewrite bool_decide_eq_true_2 in E by exact Hw.
    discriminate.
Qed.

Lemma skip_ws_render level v rest :
  writable v = true -> skip_ws (render level v ++ rest) = render level v ++ rest.
Proof.
  intros Hw. destruct (render_head level v Hw) as (c & t & -> & Hc & _).
  apply skip_ws_head, Hc.
Qed.

Lemma indent_chars n :
  Forall (fun x => x <> 13%N) (newline_indent n)
  /\ encodable (newline_indent n) = true.
Proof.
  unfold newline_indent, encodable. split.
  - constructor; [discriminate|].
    induction (2 * n)%nat as [|k IH]; cbn [List.repeat];
      [constructor|constructor; [discriminate|exact IH]].
  - cbn [forallb]. induction (2 * n)%nat as [|k IH]; [reflexivity|exact IH].
Qed.

Lemma encodable_app a b : encodable (a ++ b) = encodable a && encodable b.
Proof. apply forallb_app. Qed.

Ltac norm_app :=
  repeat (progress cbn [List.app fst snd] || rewrite <- app_assoc).

(** *** Writing *)

Lemma write_chunks_app cs rest w :
  write_chunks (cs ++ rest) w
  = let '(w', complete) := write_chunks cs w in
    if complete then write_chunks rest w' else (w', false).
Proof.
  revert w. induction cs as [|[text|] cs IH]; intros w; cbn [List.app write_chunks].
  - reflexivity.
  - destruct (encodable text); [apply IH|reflexivity].
  - reflexivity.
Qed.

Lemma write_text text w rest :
  encodable text = true ->
  write_chunks (Some text :: rest) w = write_chunks rest (w ++ text).
Proof. intros H. cbn [write_chunks]. rewrite H. reflexivity. Qed.

Lemma with_buf_write buf v cs text w :
  encodable buf = true ->
  (forall w0, write_chunks cs w0 = (w0 ++ text, true)) ->
  write_chunks (with_buf buf v cs) w = (w ++ buf ++ text, true).
Proof.
  intros Hbuf Hcs. unfold with_buf.
  assert (write_chunks (Some buf :: cs) w = (w ++ buf ++ text, true)) as Hsep
    by (rewrite write_text, Hcs, app_assoc; auto).
  destruct (is_container v); [exact Hsep|].
  destruct cs as [|c [|c' cs']]; try exact Hsep.
  specialize (Hcs []).
  destruct c as [t|]; [|discriminate]. cbn [write_chunks fmap option_fmap option_map].
  cbn [write_chunks] in Hcs.
  rewrite encodable_app, Hbuf.
  destruct (encodable t); [|discriminate]. cbn in Hcs |- *.
  injection Hcs as <-. reflexivity.
Qed.

Lemma int_str_encodable z text : int_str z = Some text -> encodable text = true.
Proof.
  unfold int_str. case_bool_decide; [|discriminate]. intros [= <-].
  destruct (digits_spec (Z.abs_N z)) as (Hd & _).
  assert (encodable (digits (Z.abs_N z)) = true) as Hds.
  { unfold encodable. apply forallb_forall. intros x Hx.
    rewrite Forall_forall in Hd. apply list_elem_of_In, Hd, is_digit_spec in Hx.
    unfold is_surrogate. apply negb_true_iff, andb_false_iff. left.
    apply N.leb_gt. lia. }
  destruct (z <? 0); [|exact Hds]. unfold encodable in *. cbn. exact Hds.
Qed.

Lemma write_render v :
  forall level w,
    writable v = true ->
    write_chunks (iterencode level v) w = (w ++ render level v, true).
Proof.
  induction v as [|b|z|s|items IH|members IH] using pyobj_induction;
    intros level w Hw; cbn [iterencode render writable] in *.
  - reflexivity.
  - destruct b; reflexivity.
  - unfold short in Hw. apply bool_decide_eq_true in Hw.
    destruct (int_str z) as [text|] eqn:E.
    + rewrite write_text by (eapply int_str_encodable; eauto). reflexivity.
    + unfold int_str in E. rewrite bool_decide_eq_true_2 in E by exact Hw.
      discriminate.
  - rewrite write_text by (apply encode_basestring_chars, Hw). reflexivity.
  - destruct items as [|x items]; [reflexivity|].
    cbn [forallb] in Hw. apply andb_true_iff in Hw as [Hx Hitems].
    apply Forall_cons in IH as [IHx IHitems].
    destruct (indent_chars (S level)) as [_ Hind].
    destruct (indent_chars level) as [_ Hind0].
    rewrite write_chunks_app.
    rewrite (with_buf_write _ _ _ (render (S level) x))
      by (intros; auto; cbn; exact Hind).
    cbn iota. rewrite write_chunks_app.
    assert (forall w0,
              write_chunks
                (flat_map (fun y => with_buf (44%N :: newline_indent (S level)) y
                                      (iterencode (S level) y)) items) w0
              = (w0 ++ flat_map (fun y => 44%N :: newline_indent (S level)
                                          ++ render (S level) y) items, true))
      as ->.
    { induction items as [|y items IHl]; intros w0.
      - cbn. rewrite app_nil_r. reflexivity.
      - cbn [forallb] in Hitems. apply andb_true_iff in Hitems as [Hy Hitems].
        apply Forall_cons in IHitems as [IHy IHitems].
        cbn [flat_map]. rewrite write_chunks_app.
        rewrite (with_buf_write _ _ _ (render (S level) y))
          by (intros; auto; cbn; exact Hind).
        cbn iota. rewrite (IHl IHitems Hitems).
        f_equal. norm_app. reflexivity. }
    cbn iota. rewrite !write_text by (auto; reflexivity).
    cbn [write_chunks]. f_equal. norm_app. reflexivity.
  - destruct members as [|[k x] members]; [reflexivity|].
    cbn [forallb fst snd] in Hw.
    apply andb_true_iff in Hw as [Hkx Hmembers].
    apply andb_true_iff in Hkx as [Hk Hx].
    apply Forall_cons in IH as [IHx IHmembers]. cbn [snd] in IHx.
    destruct (indent_chars (S level)) as [_ Hind].
    destruct (indent_chars level) as [_ Hind0].
    cbn [List.app fst snd].
    rewrite !write_text
      by (auto; try reflexivity; apply encode_basestring_chars, Hk).
    rewrite write_chunks_app, IHx by exact Hx. cbn iota.
    rewrite write_chunks_app.
    assert (forall w0,
              write_chunks
                (flat_map
                   (fun kv =>
                      [Some (44%N :: newline_indent (S level));
                       Some (encode_basestring kv.1); Some (str ": ")]
                      ++ iterencode (S level) kv.2) members) w0
              = (w0 ++ flat_map
                         (fun kv =>
                            44%N :: newline_indent (S level)
                            ++ encode_basestring kv.1 ++ str ": "
                            ++ render (S level) kv.2) members, true))
      as ->.
    { induction members as [|[k' y] members IHl]; intros w0.
      - cbn. rewrite app_nil_r. reflexivity.
      - cbn [forallb fst snd] in Hmembers.
        apply andb_true_iff in Hmembers as [Hky Hmembers].
        apply andb_true_iff in Hky as [Hk' Hy].
        apply Forall_cons in IHmembers as [IHy IHmembers]. cbn [snd] in IHy.
        cbn [flat_map List.app fst snd].
        rewrite !write_text
          by (auto; try reflexivity; try (cbn; exact Hind);
              apply encode_basestring_chars, Hk').
        rewrite write_chunks_app, IHy by exact Hy. cbn iota.
        rewrite (IHl IHmembers Hmembers).
        f_equal. norm_app. reflexivity. }
    cbn iota. rewrite !write_text by (auto; reflexivity).
    cbn [write_chunks]. f_equal. norm_app. reflexivity.
Qed.


(** *** Reading back *)

Lemma array_loop_S fuel s acc :
  array_loop (S fuel) s acc
  = match scan_once fuel s with
    | None => None
    | Some (v, r) =>
        match skip_ws r with
        | [] => None
        | d :: r1 =>
            if (d =? 93)%N then Some (JArr (acc ++ [v]), r1)
            else if (d =? 44)%N then array_loop fuel (skip_ws r1) (acc ++ [v])
            else None
        end
    end.
Proof. reflexivity. Qed.

Lemma object_loop_key fuel key text acc :
  object_loop (S fuel) (encode_basestring key ++ str ": " ++ text) acc
  = match scan_once fuel (skip_ws text) with
    | None => None
    | Some (v, r2) =>
        match skip_ws r2 with
        | [] => None
        | d :: r3 =>
            if (d =? 125)%N then Some (JObj (acc ++ [(key, v)]), r3)
            else if (d =? 44)%N
            then object_loop fuel (skip_ws r3) (acc ++ [(key, v)])
            else None
        end
    end.
Proof.
  unfold encode_basestring. cbn [List.app object_loop N.eqb Pos.eqb].
  rewrite <- app_assoc. cbn [List.app].
  rewrite scanstring_encode. reflexivity.
Qed.

Lemma scan_once_number fuel c t r :
  c = 45%N \/ is_digit c = true ->
  scan_number (c :: t) = Some r ->
  scan_once (S fuel) (c :: t) = Some r.
Proof.
  intros Hc Hnum. cbn [scan_once].
  assert ((c =? 34)%N = false /\ (c =? 123)%N = false /\ (c =? 91)%N = false
          /\ (c =? 110)%N = false /\ (c =? 116)%N = false
          /\ (c =? 102)%N = false) as (-> & -> & -> & E1 & E2 & E3).
  { rewrite !N.eqb_neq. destruct Hc as [-> | Hc%is_digit_spec];
      repeat split; try discriminate; lia. }
  unfold scan_literal.
  change (str "null") with (110%N :: str "ull").
  change (str "true") with (116%N :: str "rue").
  change (str "false") with (102%N :: str "alse").
  cbn [startswith]. rewrite E1, E2, E3. cbn [andb]. rewrite Hnum. reflexivity.
Qed.

Lemma skip_ws_key key text :
  skip_ws (encode_basestring key ++ text) = encode_basestring key ++ text.
Proof. reflexivity. Qed.

Lemma array_loop_render level rest f items :
  delimited rest ->
  forall x acc fuel,
    Forall
      (fun v =>
         forall level fuel rest,
           writable v = true -> delimited rest -> (need v <= fuel)%nat ->
           scan_once fuel (render level v ++ rest) = Some (f v, rest))
      (x :: items) ->
    forallb writable (x :: items) = true ->
    (list_sum ((fun y => S (need y)) <$> (x :: items)) <= fuel)%nat ->
    array_loop fuel
      (render (S level) x
       ++ flat_map
            (fun y => 44%N :: newline_indent (S level) ++ render (S level) y)
            items
       ++ newline_indent level ++ 93%N :: rest) acc
    = Some (JArr (acc ++ (f <$> (x :: items))), rest).
Proof.
  intros Hrest.
  induction items as [|y items IH]; intros x acc fuel Hall Hw Hfuel;
    apply Forall_cons in Hall as [Hx Hall];
    cbn [forallb] in Hw; apply andb_true_iff in Hw as [Hwx Hw];
    rewrite fmap_cons in Hfuel; simpl in Hfuel;
    (destruct fuel as [|fuel]; [lia|]); rewrite array_loop_S.
  - cbn [flat_map List.app].
    rewrite Hx; [|exact Hwx|unfold newline_indent; cbn; auto|cbn in Hfuel; lia].
    rewrite skip_ws_indent. cbn. reflexivity.
  - cbn [flat_map List.app].
    rewrite Hx; [|exact Hwx|cbn; auto|lia].
    cbn [skip_ws is_ws N.eqb Pos.eqb orb].
    rewrite <- !app_assoc, skip_ws_indent, skip_ws_render
      by (cbn [forallb] in Hw; apply andb_true_iff in Hw; tauto).
    rewrite IH; [|exact Hall|exact Hw|simpl; lia].
    rewrite <- app_assoc. reflexivity.
Qed.

Lemma object_loop_render level rest f members :
  delimited rest ->
  forall kx acc fuel,
    Forall
      (fun kv : pystr * pyobj =>
         forall level fuel rest,
           writable kv.2 = true -> delimited rest -> (need kv.2 <= fuel)%nat ->
           scan_once fuel (render level kv.2 ++ rest) = Some (f kv.2, rest))
      (kx :: members) ->
    forallb (fun kv => encodable kv.1 && writable kv.2) (kx :: members) = true ->
    (list_sum ((fun kv => S (need kv.2)) <$> (kx :: members)) <= fuel)%nat ->
    object_loop fuel
      (encode_basestring kx.1 ++ str ": " ++ render (S level) kx.2
       ++ flat_map
            (fun kv =>
               44%N :: newline_indent (S level)
               ++ encode_basestring kv.1 ++ str ": " ++ render (S level) kv.2)
            members
       ++ newline_indent level ++ 125%N :: rest) acc
    = Some (JObj (acc ++ ((fun kv => (kv.1, f kv.2)) <$> (kx :: members))), rest).
Proof.
  intros Hrest.
  induction members as [|ky members IH]; intros kx acc fuel Hall Hw Hfuel;
    apply Forall_cons in Hall as [Hx Hall];
    cbn [forallb] in Hw; apply andb_true_iff in Hw as [Hwx Hw];
    apply andb_true_iff in Hwx as [_ Hwx];
    rewrite fmap_cons in Hfuel; simpl in Hfuel;
    (destruct fuel as [|fuel]; [lia|]); rewrite object_loop_key;
    rewrite skip_ws_render by exact Hwx.
  - cbn [flat_map List.app].
    rewrite Hx; [|exact Hwx|unfold newline_indent; cbn; auto|cbn in Hfuel; lia].
    rewrite skip_ws_indent. cbn. reflexivity.
  - cbn [flat_map List.app].
    rewrite Hx; [|exact Hwx|cbn; auto|lia].
    cbn [skip_ws is_ws N.eqb Pos.eqb orb].
    rewrite <- !app_assoc, skip_ws_indent, skip_ws_key.
    rewrite IH; [|exact Hall|exact Hw|simpl; lia].
    rewrite <- app_assoc. reflexivity.
Qed.

Lemma scan_render v :
  forall level fuel rest,
    writable v = true -> delimited rest -> (need v <= fuel)%nat ->
    scan_once fuel (render level v ++ rest) = Some (to_json v, rest).
Proof.
  induction v as [|b|z|s|items IH|members IH] using pyobj_induction;
    intros level fuel rest Hw Hrest Hfuel;
    (destruct fuel as [|fuel]; [cbn in Hfuel; lia|]);
    cbn [render writable to_json need] in *.
  - reflexivity.
  - destruct b; reflexivity.
  - unfold short in Hw. apply bool_decide_eq_true in Hw.
    destruct (int_str z) as [text|] eqn:E.
    + destruct (int_str_head _ _ E) as (c & t & -> & Hc).
      cbn [default List.app]. apply scan_once_number; [exact Hc|].
      apply (scan_number_int z (c :: t) rest E Hrest).
    + unfold int_str in E. rewrite bool_decide_eq_true_2 in E by exact Hw.
      discriminate.
  - unfold encode_basestring. cbn [List.app scan_once N.eqb Pos.eqb].
    rewrite <- app_assoc. cbn [List.app]. rewrite scanstring_encode. reflexivity.
  - destruct items as [|x items]; [reflexivity|].
    assert (writable x = true) as Hwx
      by (cbn [forallb] in Hw; apply andb_true_iff in Hw; tauto).
    cbn [List.app scan_once N.eqb Pos.eqb].
    rewrite <- !app_assoc, skip_ws_indent, skip_ws_render by exact Hwx.
    destruct (render_head (S level) x Hwx) as (c & t & Hhead & _ & Hc & _).
    rewrite Hhead at 1. cbn [List.app].
    apply N.eqb_neq in Hc. rewrite Hc.
    change (c :: t ++ ?r) with ((c :: t) ++ r). rewrite <- Hhead.
    cbn [List.app].
    rewrite (array_loop_render level rest to_json items Hrest x [] fuel IH Hw)
      by lia.
    reflexivity.
  - destruct members as [|kx members]; [reflexivity|].
    cbn [List.app scan_once N.eqb Pos.eqb].
    rewrite <- !app_assoc, skip_ws_indent, skip_ws_key.
    change (encode_basestring kx.1 ++ ?t)
      with (34%N :: (flat_map escape_char kx.1 ++ [34%N]) ++ t) at 1.
    cbn [N.eqb Pos.eqb].
    change (34%N :: (flat_map escape_char kx.1 ++ [34%N]) ++ ?t)
      with (encode_basestring kx.1 ++ t).
    cbn [List.app].
    rewrite (object_loop_render level rest to_json members Hrest kx [] fuel IH Hw)
      by lia.
    reflexivity.
Qed.


Lemma render_chars v :
  forall level, writable v = true -> Forall (fun x => x <> 13%N) (render level v).
Proof.
  induction v as [|b|z|s|items IH|members IH] using pyobj_induction;
    intros level Hw; cbn [render writable] in *.
  - repeat (constructor; [discriminate|]). constructor.
  - destruct b; repeat (constructor; [discriminate|]); constructor.
  - destruct (int_str z) as [text|] eqn:E; [|constructor].
    cbn [default]. unfold int_str in E. case_bool_decide; [|discriminate].
    injection E as <-.
    destruct (digits_spec (Z.abs_N z)) as (Hd & _).
    assert (Forall (fun x => x <> 13%N) (digits (Z.abs_N z))) as Hds.
    { eapply Forall_impl; [exact Hd|]. intros x Hx%is_digit_spec. lia. }
    destruct (z <? 0); [constructor; [discriminate|]|]; exact Hds.
  - apply encode_basestring_chars.
  - destruct items as [|x items];
      [repeat (constructor; [discriminate|]); constructor|].
    cbn [forallb] in Hw. apply andb_true_iff in Hw as [Hx Hitems].
    apply Forall_cons in IH as [IHx IHitems].
    constructor; [discriminate|].
    repeat (apply Forall_app; split);
      try (apply indent_chars); try (apply IHx, Hx);
      try (repeat (constructor; [discriminate|]); constructor).
    induction items as [|y items IHl]; [constructor|].
    cbn [forallb] in Hitems. apply andb_true_iff in Hitems as [Hy Hitems].
    apply Forall_cons in IHitems as [IHy IHitems].
    cbn [flat_map]. apply Forall_app. split; [|apply IHl; assumption].
    constructor; [discriminate|]. apply Forall_app. split;
      [apply indent_chars|apply IHy, Hy].
  - destruct members as [|[k x] members];
      [repeat (constructor; [discriminate|]); constructor|].
    cbn [forallb fst snd] in Hw. apply andb_true_iff in Hw as [Hkx Hmembers].
    apply andb_true_iff in Hkx as [_ Hx].
    apply Forall_cons in IH as [IHx IHmembers]. cbn [snd] in IHx.
    constructor; [discriminate|]. cbn [fst snd].
    repeat (apply Forall_app; split);
      try (apply indent_chars); try (apply IHx, Hx);
      try (apply encode_basestring_chars);
      try (repeat (constructor; [discriminate|]); constructor).
    induction members as [|[k' y] members IHl]; [constructor|].
    cbn [forallb fst snd] in Hmembers.
    apply andb_true_iff in Hmembers as [Hky Hmembers].
    apply andb_true_iff in Hky as [_ Hy].
    apply Forall_cons in IHmembers as [IHy IHmembers]. cbn [snd] in IHy.
    cbn [flat_map fst snd]. apply Forall_app. split; [|apply IHl; assumption].
    constructor; [discriminate|].
    repeat (apply Forall_app; split);
      try (apply indent_chars); try (apply IHy, Hy);
      try (apply encode_basestring_chars);
      try (repeat (constructor; [discriminate|]); constructor).
Qed.

Lemma universal_newlines_plain s :
  Forall (fun x => x <> 13%N) s -> universal_newlines s = s.
Proof.
  induction 1 as [|c s Hc _ IH]; [reflexivity|].
  cbn [universal_newlines]. apply N.eqb_neq in Hc. rewrite Hc, IH. reflexivity.
Qed.

Lemma indent_length n : (1 <= length (newline_indent n))%nat.
Proof. unfold newline_indent. cbn [length]. lia. Qed.

Lemma list_sum_cons a l : list_sum (a :: l) = (a + list_sum l)%nat.
Proof. reflexivity. Qed.

Lemma need_length v :
  forall level, writable v = true -> (need v <= length (render level v))%nat.
Proof.
  induction v as [|b|z|s|items IH|members IH] using pyobj_induction;
    intros level Hw.
  - cbn. lia.
  - destruct b; cbn; lia.
  - destruct (render_head level _ Hw) as (c & t & -> & _). cbn. lia.
  - destruct (render_head level _ Hw) as (c & t & -> & _). cbn. lia.
  - cbn [render writable need] in *.
    destruct items as [|x items]; [cbn; lia|].
    cbn [forallb] in Hw. apply andb_true_iff in Hw as [Hx Hitems].
    apply Forall_cons in IH as [IHx IHitems].
    rewrite fmap_cons, list_sum_cons. cbn [length]. rewrite !length_app.
    pose proof (indent_length (S level)). pose proof (indent_length level).
    pose proof (IHx (S level) Hx).
    assert (list_sum ((fun y => S (need y)) <$> items)
            <= length (flat_map (fun y => 44%N :: newline_indent (S level)
                                          ++ render (S level) y) items))%nat.
    { clear - Hitems IHitems. induction items as [|y items IHl]; [cbn; lia|].
      cbn [forallb] in Hitems. apply andb_true_iff in Hitems as [Hy Hitems].
      apply Forall_cons in IHitems as [IHy IHitems].
      rewrite fmap_cons, list_sum_cons. cbn [flat_map]. rewrite length_app.
      cbn [length]. rewrite length_app.
      pose proof (IHy (S level) Hy). pose proof (IHl IHitems Hitems).
      pose proof (indent_length (S level)). lia. }
    cbn [length]. lia.
  - cbn [render writable need] in *.
    destruct members as [|[k x] members]; [cbn; lia|].
    cbn [forallb fst snd] in Hw. apply andb_true_iff in Hw as [Hkx Hmembers].
    apply andb_true_iff in Hkx as [_ Hx].
    apply Forall_cons in IH as [IHx IHmembers]. cbn [snd] in IHx.
    rewrite fmap_cons, list_sum_cons. cbn [length fst snd]. rewrite !length_app.
    pose proof (indent_length (S level)). pose proof (indent_length level).
    pose proof (IHx (S level) Hx).
    assert (list_sum ((fun kv : pystr * pyobj => S (need kv.2)) <$> members)
            <= length (flat_map
                         (fun kv : pystr * pyobj =>
                            44%N :: newline_indent (S level)
                            ++ encode_basestring kv.1 ++ str ": "
                            ++ render (S level) kv.2) members))%nat.
    { clear - Hmembers IHmembers.
      induction members as [|[k' y] members IHl]; [cbn; lia|].
      cbn [forallb fst snd] in Hmembers.
      apply andb_true_iff in Hmembers as [Hky Hmembers].
      apply andb_true_iff in Hky as [_ Hy].
      apply Forall_cons in IHmembers as [IHy IHmembers]. cbn [snd] in IHy.
      rewrite fmap_cons, list_sum_cons. cbn [flat_map fst snd]. rewrite length_app.
      cbn [length]. rewrite !length_app.
      pose proof (IHy (S level) Hy). pose proof (IHl IHmembers Hmembers).
      pose proof (indent_length (S level)). lia. }
    cbn [length]. lia.
Qed.

(** A value written by [json.dump] is read back by [json.load]. *)
Lemma loads_render v :
  writable v = true -> loads (render 0 v) = Some (to_json v).
Proof.
  intros Hw. unfold loads.
  destruct (render_head 0 v Hw) as (c & t & Hhead & Hws & _ & _ & Hbom).
  assert (startswith (render 0 v) [65279%N] = false) as ->.
  { rewrite Hhead. cbn [startswith]. apply N.eqb_neq in Hbom. rewrite Hbom.
    reflexivity. }
  pose proof (skip_ws_render 0 v [] Hw) as Hskip. rewrite app_nil_r in Hskip.
  rewrite Hskip.
  pose proof (scan_render v 0 (S (length (render 0 v))) [] Hw I) as Hscan.
  rewrite app_nil_r in Hscan. rewrite Hscan; [reflexivity|].
  pose proof (need_length v 0 Hw). lia.
Qed.

(** *** When writing runs to its end *)

Lemma write_chunks_complete cs w :
  (write_chunks cs w).2 = forallb (from_option encodable false) cs.
Proof.
  revert w. induction cs as [|[text|] cs IH]; intros w; cbn [write_chunks forallb from_option].
  - reflexivity.
  - destruct (encodable text); [apply IH|reflexivity].
  - reflexivity.
Qed.

Lemma with_buf_ok buf v cs :
  forallb (from_option encodable false) (with_buf buf v cs)
  = encodable buf && forallb (from_option encodable false) cs.
Proof.
  unfold with_buf. destruct (is_container v); [reflexivity|].
  destruct cs as [|[t|] [|c' cs']]; try reflexivity.
  - cbn [fmap option_fmap option_map forallb from_option].
    rewrite encodable_app, !andb_true_r. reflexivity.
  - cbn. rewrite andb_false_r. reflexivity.
Qed.

Lemma escape_char_encodable c : encodable (escape_char c) = negb (is_surrogate c).
Proof.
  destruct (is_surrogate c) eqn:E.
  - unfold is_surrogate in E. apply andb_true_iff in E as [E1 E2].
    apply N.leb_le in E1. unfold escape_char.
    repeat match goal with
           | |- context [(c =? ?k)%N] =>
               replace (c =? k)%N with false by (symmetry; apply N.eqb_neq; lia)
           end.
    replace (c <? 32)%N with false by (symmetry; apply N.ltb_ge; lia).
    unfold encodable. cbn [forallb]. unfold is_surrogate.
    apply N.leb_le in E1. rewrite E1, E2. reflexivity.
  - unfold encodable. apply forallb_forall. intros x Hx.
    pose proof (escape_char_chars c) as Hall. rewrite Forall_forall in Hall.
    apply list_elem_of_In in Hx. destruct (Hall x Hx) as [_ Hs].
    rewrite (Hs E). reflexivity.
Qed.

Lemma encode_basestring_encodable s :
  encodable (encode_basestring s) = encodable s.
Proof.
  unfold encode_basestring.
  change (34%N :: ?l) with ([34%N] ++ l).
  rewrite !encodable_app.
  replace (encodable [34%N]) with true by reflexivity.
  rewrite andb_true_r. cbn [andb].
  induction s as [|c s IH]; [reflexivity|].
  cbn [flat_map]. rewrite encodable_app, IH, escape_char_encodable. reflexivity.
Qed.

Lemma int_str_ok z :
  from_option encodable false (int_str z) = short z.
Proof.
  unfold short. destruct (int_str z) as [text|] eqn:E; cbn [from_option].
  - rewrite (int_str_encodable _ _ E). symmetry. apply bool_decide_eq_true.
    unfold int_str in E. case_bool_decide; [assumption|discriminate].
  - symmetry. apply bool_decide_eq_false.
    unfold int_str in E. case_bool_decide; [discriminate|assumption].
Qed.

Lemma iterencode_ok v :
  forall level,
    forallb (from_option encodable false) (iterencode level v) = writable v.
Proof.
  induction v as [|b|z|s|items IH|members IH] using pyobj_induction;
    intros level; cbn [iterencode writable].
  - reflexivity.
  - destruct b; reflexivity.
  - cbn [forallb]. rewrite int_str_ok. apply andb_true_r.
  - cbn [forallb from_option]. rewrite encode_basestring_encodable.
    apply andb_true_r.
  - destruct items as [|x items]; [reflexivity|].
    apply Forall_cons in IH as [IHx IHitems].
    destruct (indent_chars (S level)) as [_ Hind].
    destruct (indent_chars level) as [_ Hind0].
    rewrite !forallb_app, with_buf_ok, IHx.
    cbn [forallb from_option]. rewrite Hind0.
    replace (encodable (91%N :: newline_indent (S level))) with true
      by (symmetry; exact Hind).
    replace (encodable [93%N]) with true by reflexivity.
    cbn [andb]. rewrite andb_true_r. f_equal.
    induction items as [|y items IHl]; [reflexivity|].
    apply Forall_cons in IHitems as [IHy IHitems].
    cbn [flat_map forallb]. rewrite forallb_app, with_buf_ok, IHy, (IHl IHitems).
    replace (encodable (44%N :: newline_indent (S level))) with true
      by (symmetry; exact Hind).
    reflexivity.
  - destruct members as [|[k x] members]; [reflexivity|].
    apply Forall_cons in IH as [IHx IHmembers]. cbn [snd] in IHx.
    destruct (indent_chars (S level)) as [_ Hind].
    destruct (indent_chars level) as [_ Hind0].
    cbn [fst snd]. rewrite !forallb_app, IHx.
    cbn [forallb from_option fst snd].
    rewrite Hind, Hind0, encode_basestring_encodable.
    replace (encodable [123%N]) with true by reflexivity.
    replace (encodable [125%N]) with true by reflexivity.
    replace (encodable (str ": ")) with true by reflexivity.
    cbn [andb]. rewrite !andb_true_r, andb_assoc. f_equal.
    induction members as [|[k' y] members IHl]; [reflexivity|].
    apply Forall_cons in IHmembers as [IHy IHmembers]. cbn [snd] in IHy.
    cbn [flat_map forallb fst snd]. rewrite forallb_app, forallb_app, IHy, (IHl IHmembers).
    cbn [forallb from_option]. rewrite encode_basestring_encodable.
    replace (encodable (44%N :: newline_indent (S level))) with true
      by (symmetry; exact Hind).
    replace (encodable (str ": ")) with true by reflexivity.
    cbn [andb]. rewrite !andb_true_r. reflexivity.
Qed.

End JsonFacts.

(** ** Export and import of snapshots *)

Module Snapshots.
Import JsonFacts.

Lemma file_round_trip m : file_of_json (to_json (file_obj m)) = Some m.
Proof. destruct m. vm_compute. reflexivity. Qed.

Lemma files_round_trip l :
  mapM file_of_json (to_json <$> (file_obj <$> l)) = Some l.
Proof.
  induction l as [|m l IH]; [reflexivity|].
  rewrite !fmap_cons. cbn [mapM]. rewrite file_round_trip, IH. reflexivity.
Qed.

Lemma language_round_trip d : language_of_json (to_json (language_obj d)) = Some d.
Proof.
  destruct d as [fs total code comment empty].
  change (to_json (language_obj (LangData fs total code comment empty)))
    with (JObj [(str "files", JArr (to_json <$> (file_obj <$> fs)));
                (str "total_lines", JInt total);
                (str "code_lines", JInt code);
                (str "comment_lines", JInt comment);
                (str "empty_lines", JInt empty)]).
  unfold language_of_json.
  set (ms := [(str "files", JArr (to_json <$> (file_obj <$> fs))); _; _; _; _]).
  replace (only_keys _ ms) with true by (vm_compute; reflexivity).
  replace (dict_get (str "files") ms)
    with (Some (JArr (to_json <$> (file_obj <$> fs))))
    by (vm_compute; reflexivity).
  rewrite files_round_trip.
  replace (get_int (str "total_lines") ms) with (Some total)
    by (vm_compute; reflexivity).
  replace (get_int (str "code_lines") ms) with (Some code)
    by (vm_compute; reflexivity).
  replace (get_int (str "comment_lines") ms) with (Some comment)
    by (vm_compute; reflexivity).
  replace (get_int (str "empty_lines") ms) with (Some empty)
    by (vm_compute; reflexivity).
  reflexivity.
Qed.


Lemma omap_keys (r : gmap pystr lang_data) (l : list (pystr * lang_data)) :
  Forall (fun kv => r !! kv.1 = Some kv.2) l ->
  omap (fun k => (fun d => (k, language_obj d)) <$> r !! k) (l.*1)
  = prod_map id language_obj <$> l.
Proof.
  induction 1 as [|[k d] l Hkd _ IH]; [reflexivity|].
  rewrite !fmap_cons. cbn [omap list_omap fst snd] in *.
  rewrite Hkd. cbn. f_equal. exact IH.
Qed.

Lemma results_members (order : list pystr) (r : gmap pystr lang_data) :
  dict_order order r ->
  omap (fun k => (fun d => (k, language_obj d)) <$> r !! k) order
  ≡ₚ prod_map id language_obj <$> map_to_list r.
Proof.
  intros [Hnd Hkeys].
  assert (order ≡ₚ (map_to_list r).*1) as ->.
  { apply NoDup_Permutation; [exact Hnd|apply NoDup_fst_map_to_list|].
    intros k. rewrite Hkeys, list_elem_of_fmap. split.
    - intros [d Hd]. exists (k, d). split; [reflexivity|].
      apply elem_of_map_to_list, Hd.
    - intros [[k' d] [-> Hd%elem_of_map_to_list]]. eauto. }
  rewrite omap_keys; [reflexivity|].
  apply Forall_forall. intros [k d] Hkd%elem_of_map_to_list. exact Hkd.
Qed.

Lemma results_round_trip (order : list pystr) (r : gmap pystr lang_data) :
  dict_order order r ->
  results_of_json (to_json (results_obj order r)) = Some r.
Proof.
  intros Horder. unfold results_obj. cbn [to_json results_of_json].
  assert (list_to_map
            (reverse
               ((fun kv : pystr * pyobj => (kv.1, to_json kv.2))
                  <$> omap (fun k => (fun d => (k, language_obj d)) <$> r !! k)
                        order))
          = ((fun d => to_json (language_obj d)) <$> r : gmap pystr json)) as ->.
  { transitivity
      (list_to_map (prod_map id (fun d => to_json (language_obj d))
                      <$> map_to_list r) : gmap pystr json);
      [|rewrite list_to_map_fmap, list_to_map_to_list; reflexivity].
    assert (reverse
              ((fun kv : pystr * pyobj => (kv.1, to_json kv.2))
                 <$> omap (fun k => (fun d => (k, language_obj d)) <$> r !! k)
                       order)
            ≡ₚ prod_map id (fun d => to_json (language_obj d)) <$> map_to_list r)
      as Hperm.
    { rewrite reverse_Permutation, (results_members order r Horder).
      rewrite <- list_fmap_compose.
      erewrite list_fmap_ext; [reflexivity|]. intros _ [k d] _. reflexivity. }
    apply list_to_map_proper; [|exact Hperm].
    rewrite Hperm. rewrite <- list_fmap_compose.
    erewrite list_fmap_ext; [apply NoDup_fst_map_to_list|].
    intros _ [k d] _. reflexivity. }
  rewrite bool_decide_eq_true_2.
  - f_equal. apply map_eq. intros k.
    rewrite lookup_omap, lookup_fmap.
    destruct (r !! k) as [d|]; [|reflexivity].
    apply language_round_trip.
  - apply map_Forall_fmap. intros k d _.
    change (is_Some (language_of_json (to_json (language_obj d)))).
    rewrite language_round_trip. eauto.
Qed.

Lemma file_writable m : writable (file_obj m) = file_exportable m.
Proof.
  destruct m as [total empty comment code path name].
  unfold file_obj, file_exportable.
  cbn [writable forallb fst snd total_lines fm_empty_lines fm_comment_lines
         fm_code_lines file_path file_name].
  replace (encodable (str "total_lines")) with true by reflexivity.
  replace (encodable (str "empty_lines")) with true by reflexivity.
  replace (encodable (str "comment_lines")) with true by reflexivity.
  replace (encodable (str "code_lines")) with true by reflexivity.
  replace (encodable (str "file_path")) with true by reflexivity.
  replace (encodable (str "file_name")) with true by reflexivity.
  cbn [andb].
  destruct (short total), (short empty), (short comment), (short code),
    (encodable path), (encodable name); reflexivity.
Qed.

Lemma language_writable d : writable (language_obj d) = language_exportable d.
Proof.
  destruct d as [fs total code comment empty].
  unfold language_obj, language_exportable.
  cbn [writable forallb fst snd files ld_total_lines ld_code_lines
         ld_comment_lines ld_empty_lines].
  replace (encodable (str "files")) with true by reflexivity.
  replace (encodable (str "total_lines")) with true by reflexivity.
  replace (encodable (str "code_lines")) with true by reflexivity.
  replace (encodable (str "comment_lines")) with true by reflexivity.
  replace (encodable (str "empty_lines")) with true by reflexivity.
  cbn [andb].
  assert (forallb writable (file_obj <$> fs) = forallb file_exportable fs) as ->.
  { induction fs as [|m fs IH]; [reflexivity|].
    rewrite fmap_cons. cbn [forallb]. rewrite file_writable, IH. reflexivity. }
  destruct (forallb file_exportable fs), (short total), (short code),
    (short comment), (short empty); reflexivity.
Qed.

Lemma str_list_writable l : writable (str_list l) = forallb encodable l.
Proof.
  unfold str_list. cbn [writable]. induction l as [|s l IH]; [reflexivity|].
  rewrite fmap_cons. cbn [forallb writable]. rewrite IH. reflexivity.
Qed.

Lemma results_writable (order : list pystr) (r : gmap pystr lang_data) :
  dict_order order r ->
  writable (results_obj order r) = true
  <-> map_Forall (fun k d => encodable k = true /\ language_exportable d = true) r.
Proof.
  intros [_ Hkeys]. unfold results_obj. cbn [writable].
  rewrite forallb_forall. split.
  - intros Hall k d Hkd.
    assert ((k, language_obj d)
              ∈ omap (fun k => (fun d => (k, language_obj d)) <$> r !! k) order)
      as Hin.
    { apply list_elem_of_omap. exists k. split; [apply Hkeys; eauto|].
      rewrite Hkd. reflexivity. }
    apply list_elem_of_In, Hall in Hin. cbn [fst snd] in Hin.
    rewrite language_writable in Hin. apply andb_true_iff in Hin. exact Hin.
  - intros Hall [k v] Hin%list_elem_of_In.
    apply list_elem_of_omap in Hin as (k' & _ & Hk').
    destruct (r !! k') as [d|] eqn:Hd; [|discriminate].
    injection Hk' as <- <-. cbn [fst snd].
    destruct (Hall k' d Hd) as [-> Hlang].
    rewrite language_writable, Hlang. reflexivity.
Qed.

Lemma export_data_writable self (order : list pystr) now :
  dict_order order (results self) ->
  writable (export_data self order now) = true <-> exportable self now.
Proof.
  intros Horder. unfold export_data, exportable.
  rewrite <- (results_writable order _ Horder).
  cbn [writable forallb fst snd].
  change (forallb writable (PStr <$> ?l)) with (writable (str_list l)).
  rewrite !str_list_writable.
  replace (encodable (str "directory")) with true by reflexivity.
  replace (encodable (str "timestamp")) with true by reflexivity.
  replace (encodable (str "results")) with true by reflexivity.
  replace (encodable (str "config")) with true by reflexivity.
  replace (encodable (str "include_patterns")) with true by reflexivity.
  replace (encodable (str "exclude_patterns")) with true by reflexivity.
  replace (encodable (str "selected_languages")) with true by reflexivity.
  cbn [andb]. rewrite !andb_true_r, !andb_true_iff. tauto.
Qed.

Lemma dict_get_results (d t value config : json) :
  dict_get (str "results")
    [(str "directory", d); (str "timestamp", t); (str "results", value);
     (str "config", config)]
  = Some value.
Proof. vm_compute. reflexivity. Qed.

Lemma import_reads_export other (order : list pystr) self chosen now fs :
  truthy chosen = true ->
  dict_order order (results self) ->
  writable (export_data self order now) = true ->
  import_results other chosen
    (FileSystem (<[chosen := render 0 (export_data self order now)]> (contents fs))
       (unwritable fs))
  = ImportDone (set_results other (results self)).
Proof.
  intros Hchosen Horder Hw. unfold import_results.
  rewrite Hchosen. cbn [contents]. rewrite lookup_insert_eq.
  rewrite universal_newlines_plain by (apply render_chars, Hw).
  rewrite (loads_render _ Hw).
  change (to_json (export_data self order now))
    with (JObj
            [(str "directory", JStr (current_directory self));
             (str "timestamp", JStr now);
             (str "results", to_json (results_obj order (results self)));
             (str "config",
              to_json
                (PDict
                   [(str "include_patterns", str_list (include_patterns self));
                    (str "exclude_patterns", str_list (exclude_patterns self));
                    (str "selected_languages",
                     str_list (selected_languages self))]))]).
  cbv beta iota.
  rewrite dict_get_results, (results_round_trip order _ Horder). reflexivity.
Qed.

(** C6. An empty result is not exported: [export_results] stops at
    the warning. The export runs to its end exactly when the result is
    not empty, a file is chosen, a scan has been started in the
    session, the file can be opened for writing, UTF-8 can encode
    every string of the document and every count has at most 4300
    digits. Whenever it runs to its end, the file holds the whole
    document, and importing that file, in the same or in another
    session, makes [self.results] the exported result: the same
    languages, each with the same file records and the same
    counters. *)
Theorem export_import_round_trip self other configured (order : list pystr)
    chosen now fs :
  dict_order order (results self) ->
  (results self = ∅ ->
   export_results self configured order chosen now fs = ExportRefused)
  /\ ((exists fs',
         export_results self configured order chosen now fs = ExportDone fs')
      <-> results self <> ∅
          /\ truthy chosen = true
          /\ configured = true
          /\ (chosen ∉ unwritable fs)
          /\ exportable self now)
  /\ (forall fs',
        export_results self configured order chosen now fs = ExportDone fs' ->
        contents fs' !! chosen = Some (render 0 (export_data self order now))
        /\ import_results other chosen fs'
           = ImportDone (set_results other (results self))).
Proof.
  intros Horder.
  assert (forall fs',
            export_results self configured order chosen now fs = ExportDone fs' ->
            results self <> ∅ /\ truthy chosen = true /\ configured = true
            /\ (chosen ∉ unwritable fs)
            /\ writable (export_data self order now) = true
            /\ fs' = FileSystem
                       (<[chosen := render 0 (export_data self order now)]>
                          (contents fs))
                       (unwritable fs)) as Hdone.
  { intros fs'. unfold export_results.
    case_bool_decide as Hempty; [discriminate|].
    destruct (truthy chosen); [|discriminate].
    destruct configured; [|discriminate].
    case_bool_decide as Hopen; [discriminate|].
    pose proof (write_chunks_complete
                  (iterencode 0 (export_data self order now)) []) as Hok.
    rewrite iterencode_ok in Hok.
    destruct (writable (export_data self order now)) eqn:Hw.
    - rewrite (write_render _ 0 [] Hw). cbn [List.app]. intros [= <-]. auto 10.
    - destruct (write_chunks _ []) as [written complete].
      cbn [snd] in Hok. subst complete. discriminate. }
  split; [|split].
  - intros Hempty. unfold export_results.
    rewrite bool_decide_eq_true_2 by exact Hempty. reflexivity.
  - split.
    + intros [fs' Hfs']. destruct (Hdone fs' Hfs') as (? & ? & ? & ? & Hw & _).
      repeat (split; [assumption|]).
      apply (export_data_writable self order now Horder), Hw.
    + intros (Hne & Hchosen & -> & Hopen & Hexp).
      apply (export_data_writable self order now Horder) in Hexp.
      unfold export_results.
      rewrite bool_decide_eq_false_2 by exact Hne. rewrite Hchosen.
      rewrite bool_decide_eq_false_2 by exact Hopen.
      rewrite (write_render _ 0 [] Hexp). eauto.
  - intros fs' Hfs'. destruct (Hdone fs' Hfs') as (_ & Hchosen & _ & _ & Hw & ->).
    split.
    + cbn [contents]. apply lookup_insert_eq.
    + apply import_reads_export; assumption.
Qed.

Lemma export_import_round_trip_witness :
  dict_order [str "Python"] (results sample_app)
  /\ exists fs',
       export_results sample_app true [str "Python"] (str "out.json")
         (str "2024-01-01T00:00:00") no_files = ExportDone fs'
       /\ import_results stale_app (str "out.json") fs'
          = ImportDone (set_results stale_app (results sample_app)).
Proof.
  assert (dict_order [str "Python"] (results sample_app)) as Horder.
  { split.
    - apply NoDup_singleton.
    - intros k. unfold sample_app, sample_results. cbn [results].
      rewrite list_elem_of_singleton. split.
      + intros ->. rewrite lookup_singleton_eq. eauto.
      + intros [d Hd]. apply lookup_singleton_Some in Hd. symmetry. apply Hd. }
  split; [exact Horder|].
  destruct (export_import_round_trip sample_app stale_app true [str "Python"]
              (str "out.json") (str "2024-01-01T00:00:00") no_files Horder)
    as (_ & Hiff & Hdone).
  destruct (proj2 Hiff) as [fs' Hfs'].
  { split; [apply map_non_empty_singleton|].
    split; [reflexivity|]. split; [reflexivity|].
    split; [cbn [unwritable no_files]; apply not_elem_of_empty|].
    unfold exportable, sample_app, sample_results.
    cbn [results current_directory include_patterns exclude_patterns
           selected_languages].
    do 5 (split; [reflexivity|]).
    apply map_Forall_singleton. split; vm_compute; reflexivity. }
  exists fs'. split; [exact Hfs'|]. apply (Hdone fs' Hfs').
Defined.

(** C6, the statement as written fails. The scan of a directory that
    holds a file whose name is no UTF-8 text gives a non-empty result;
    exporting it stops in the middle of the document, and importing
    the file that was written fails: the result does not come back. *)
Lemma export_import_counterexample :
  analyze_directory posix_suffix ascii_lower escaped_read empty_app
    DEFAULT_LANGUAGES escaped_tree
  = Return escaped_app
  /\ results escaped_app <> ∅
  /\ exists fs' text,
       export_results escaped_app true [str "Python"] (str "out.json")
         (str "2024-01-01T00:00:00") no_files = ExportFailed fs'
       /\ contents fs' !! str "out.json" = Some text
       /\ loads (universal_newlines text) = None
       /\ import_results empty_app (str "out.json") fs' = ImportFailed
       /\ results empty_app <> results escaped_app.
Proof.
  split; [vm_compute; reflexivity|].
  split; [apply map_non_empty_singleton|].
  assert (results escaped_app <> ∅) as Hne by apply map_non_empty_singleton.
  unfold export_results.
  rewrite bool_decide_eq_false_2 by exact Hne.
  change (truthy (str "out.json")) with true. cbn iota.
  rewrite bool_decide_eq_false_2
    by (cbn [unwritable no_files]; apply not_elem_of_empty).
  destruct (write_chunks _ []) as [written complete] eqn:Hwrite.
  vm_compute in Hwrite. injection Hwrite as <- <-.
  eexists _, _. split; [reflexivity|]. split; [apply lookup_insert_eq|].
  split; [vm_compute; reflexivity|]. split.
  - unfold import_results. change (truthy (str "out.json")) with true.
    cbn iota. cbn [contents]. rewrite lookup_insert_eq.
    match goal with
    | |- context [loads ?t] =>
        replace (loads t) with (@None json) by (vm_compute; reflexivity)
    end.
    reflexivity.
  - intros H. apply Hne. rewrite <- H. reflexivity.
Qed.

End Snapshots.

(** ** The comparator *)

Module Comparator.

Lemma all_languages_elem (r1 r2 : gmap pystr lang_data) (lang : pystr) :
  lang ∈ all_languages r1 r2 <-> lang ∈ dom r1 \/ lang ∈ dom r2.
Proof.
  unfold all_languages. rewrite merge_sort_Permutation, elem_of_elements.
  apply elem_of_union.
Qed.

Lemma all_languages_comm (r1 r2 : gmap pystr lang_data) :
  all_languages r1 r2 = all_languages r2 r1.
Proof. unfold all_languages. by rewrite (comm_L (∪) (dom r1)). Qed.

Lemma all_languages_same (r : gmap pystr lang_data) (lang : pystr) :
  lang ∈ all_languages r r <-> lang ∈ dom r.
Proof. rewrite all_languages_elem. tauto. Qed.

Lemma languages_of_comparison (r1 r2 : gmap pystr lang_data) (L : list pystr) :
  language <$> (compare_language r1 r2 <$> L) = L.
Proof.
  induction L as [|k L IH]; [done|]. rewrite !fmap_cons. by rewrite IH.
Qed.

Lemma all_languages_NoDup (r1 r2 : gmap pystr lang_data) :
  NoDup (all_languages r1 r2).
Proof.
  unfold all_languages. rewrite merge_sort_Permutation. apply NoDup_elements.
Qed.

Lemma sum_pairs_perm (f : lang_data -> Z) (l l' : list (pystr * lang_data)) :
  l ≡ₚ l' ->
  foldr (fun kv acc => f kv.2 + acc) 0 l
  = foldr (fun kv acc => f kv.2 + acc) 0 l'.
Proof. induction 1; simpl; lia. Qed.

Lemma sum_values_insert (f : lang_data -> Z) (m : gmap pystr lang_data)
    (i : pystr) (x : lang_data) :
  m !! i = None ->
  sum_values f (<[i:=x]> m) = f x + sum_values f m.
Proof.
  intros H. unfold sum_values.
  by rewrite (sum_pairs_perm f _ _ (map_to_list_insert m i x H)).
Qed.

(** Summing over a duplicate-free list of languages that covers the
    results, with zero for the languages that are absent, gives the
    sum over the results. *)
Lemma sum_over_languages (f : lang_data -> Z) (r : gmap pystr lang_data) :
  forall L : list pystr,
    NoDup L -> (forall k, is_Some (r !! k) -> k ∈ L) ->
    foldr (fun k acc => from_option f 0 (r !! k) + acc) 0 L = sum_values f r.
Proof.
  induction r as [|i x m Hi IH] using map_ind; intros L HL Hcover.
  - unfold sum_values. rewrite map_to_list_empty. simpl.
    clear. induction L as [|k L IH]; simpl; [done|].
    by rewrite lookup_empty, IH.
  - rewrite sum_values_insert by done.
    assert (i ∈ L) as HiL by (apply Hcover; rewrite lookup_insert_eq; eauto).
    rewrite <- (IH L HL).
    2:{ intros k Hk. apply Hcover. destruct (decide (i = k)) as [-> | Hne].
        - rewrite lookup_insert_eq. eauto.
        - by rewrite lookup_insert_ne. }
    clear IH Hcover. induction HL as [|k L Hk HL IHL]; [by apply elem_of_nil in HiL|].
    simpl. destruct (decide (i = k)) as [<- | Hne].
    + rewrite lookup_insert_eq, Hi. simpl.
      assert (forall L', i ∉ L' ->
                foldr (fun k acc => from_option f 0 (<[i:=x]> m !! k) + acc) 0 L'
                = foldr (fun k acc => from_option f 0 (m !! k) + acc) 0 L') as Hsame.
      { clear. induction L' as [|k L' IH]; intros Hni; simpl; [done|].
        apply not_elem_of_cons in Hni as [Hne Hni].
        by rewrite lookup_insert_ne, IH. }
      rewrite Hsame by done. lia.
    + rewrite lookup_insert_ne by done.
      apply elem_of_cons in HiL as [-> | HiL]; [done|].
      rewrite IHL by done. lia.
Qed.

Lemma sum_column (r1 r2 : gmap pystr lang_data) (L : list pystr)
    (h : pystr -> Z) (g : language_delta -> Z) :
  (forall k, g (compare_language r1 r2 k) = h k) ->
  sum_deltas g (compare_language r1 r2 <$> L)
  = foldr (fun k acc => h k + acc) 0 L.
Proof.
  intros Hg. unfold sum_deltas.
  induction L as [|k L IH]; [done|].
  rewrite fmap_cons. simpl foldr. by rewrite IH, Hg.
Qed.

(** C7. Comparing a snapshot with itself gives zero for the overall
    file and line deltas and for the file, line and code deltas of
    every language of the snapshot. Comparing two snapshots in the
    two orders gives the same languages in the same order with every
    delta negated. Each delta is the new value minus the old one,
    where a language missing from a snapshot counts as zero files and
    zero lines there. There is exactly one block for every language of
    either snapshot. The overall old and new values are the numbers of
    files and of lines summed over the snapshot's languages (they are
    also the sums of the per-language old and new values), and the
    overall deltas are new minus old. *)
Theorem comparison_deltas :
  (forall A : snapshot,
      total_files_diff (perform_comparison A A) = 0
      /\ total_lines_diff (perform_comparison A A) = 0
      /\ (forall lang, lang ∈ dom (get_results A) ->
            exists d, d ∈ per_language (perform_comparison A A)
                      /\ language d = lang)
      /\ Forall (fun d => files_diff d = 0 /\ lines_diff d = 0 /\ code_diff d = 0)
           (per_language (perform_comparison A A)))
  /\ (forall A B : snapshot,
         total_files_diff (perform_comparison A B)
         = - total_files_diff (perform_comparison B A)
         /\ total_lines_diff (perform_comparison A B)
            = - total_lines_diff (perform_comparison B A)
         /\ Forall2
              (fun d d' =>
                 language d = language d'
                 /\ files_diff d = - files_diff d'
                 /\ lines_diff d = - lines_diff d'
                 /\ code_diff d = - code_diff d')
              (per_language (perform_comparison A B))
              (per_language (perform_comparison B A)))
  /\ (forall (A B : snapshot) (d : language_delta),
         d ∈ per_language (perform_comparison A B) ->
         (language d ∈ dom (get_results A) \/ language d ∈ dom (get_results B))
         /\ files1 d = from_option file_count 0 (get_results A !! language d)
         /\ files2 d = from_option file_count 0 (get_results B !! language d)
         /\ lines1 d = from_option ld_total_lines 0 (get_results A !! language d)
         /\ lines2 d = from_option ld_total_lines 0 (get_results B !! language d)
         /\ code1 d = from_option ld_code_lines 0 (get_results A !! language d)
         /\ code2 d = from_option ld_code_lines 0 (get_results B !! language d)
         /\ files_diff d = files2 d - files1 d
         /\ lines_diff d = lines2 d - lines1 d
         /\ code_diff d = code2 d - code1 d)
  /\ (forall (A B : snapshot) (lang : pystr),
         lang ∈ dom (get_results A) \/ lang ∈ dom (get_results B) ->
         exists d, d ∈ per_language (perform_comparison A B)
                   /\ language d = lang)
  /\ (forall A B : snapshot,
         NoDup (language <$> per_language (perform_comparison A B)))
  /\ (forall A B : snapshot,
         total_files1 (perform_comparison A B)
         = sum_values file_count (get_results A)
         /\ total_files2 (perform_comparison A B)
            = sum_values file_count (get_results B)
         /\ total_files_diff (perform_comparison A B)
            = sum_values file_count (get_results B)
              - sum_values file_count (get_results A)
         /\ total_lines1 (perform_comparison A B)
            = sum_values ld_total_lines (get_results A)
         /\ total_lines2 (perform_comparison A B)
            = sum_values ld_total_lines (get_results B)
         /\ total_lines_diff (perform_comparison A B)
            = sum_values ld_total_lines (get_results B)
              - sum_values ld_total_lines (get_results A)
         /\ total_files1 (perform_comparison A B)
            = sum_deltas files1 (per_language (perform_comparison A B))
         /\ total_files2 (perform_comparison A B)
            = sum_deltas files2 (per_language (perform_comparison A B))
         /\ total_lines1 (perform_comparison A B)
            = sum_deltas lines1 (per_language (perform_comparison A B))
         /\ total_lines2 (perform_comparison A B)
            = sum_deltas lines2 (per_language (perform_comparison A B))).
Proof.
  split; [|split; [|split; [|split; [|split]]]].
  - intros A. simpl. split; [lia|]. split; [lia|]. split.
    + intros lang Hlang. exists (compare_language (get_results A) (get_results A) lang).
      split; [|done]. apply list_elem_of_fmap_2. by apply all_languages_same.
    + apply Forall_fmap, Forall_forall. intros lang _. simpl. lia.
  - intros A B. simpl. split; [lia|]. split; [lia|].
    rewrite (all_languages_comm (get_results B)).
    apply Forall2_fmap, Forall_Forall2_diag, Forall_forall.
    intros lang _. simpl. split; [done|]. lia.
  - intros A B d Hd. simpl in Hd.
    apply list_elem_of_fmap in Hd as (lang & -> & Hlang).
    apply all_languages_elem in Hlang. simpl. split; [exact Hlang|].
    destruct (get_results A !! lang), (get_results B !! lang); simpl;
      repeat split; reflexivity.
  - intros A B lang Hlang.
    exists (compare_language (get_results A) (get_results B) lang).
    split; [|done]. simpl. apply list_elem_of_fmap_2.
    by apply all_languages_elem.
  - intros A B. simpl. rewrite languages_of_comparison.
    apply all_languages_NoDup.
  - intros A B.
    assert (forall k, is_Some (get_results A !! k) ->
                      k ∈ all_languages (get_results A) (get_results B)) as HA.
    { intros k Hk. apply all_languages_elem. left. by apply elem_of_dom. }
    assert (forall k, is_Some (get_results B !! k) ->
                      k ∈ all_languages (get_results A) (get_results B)) as HB.
    { intros k Hk. apply all_languages_elem. right. by apply elem_of_dom. }
    pose proof (all_languages_NoDup (get_results A) (get_results B)) as HL.
    simpl. repeat split.
    + rewrite (sum_column _ _ _
                 (fun k => from_option file_count 0 (get_results A !! k)));
        [by rewrite sum_over_languages|].
      intros k. simpl. by destruct (get_results A !! k).
    + rewrite (sum_column _ _ _
                 (fun k => from_option file_count 0 (get_results B !! k)));
        [by rewrite sum_over_languages|].
      intros k. simpl. by destruct (get_results B !! k).
    + rewrite (sum_column _ _ _
                 (fun k => from_option ld_total_lines 0 (get_results A !! k)));
        [by rewrite sum_over_languages|].
      intros k. simpl. by destruct (get_results A !! k).
    + rewrite (sum_column _ _ _
                 (fun k => from_option ld_total_lines 0 (get_results B !! k)));
        [by rewrite sum_over_languages|].
      intros k. simpl. by destruct (get_results B !! k).
Qed.

Lemma comparison_deltas_witness :
  per_language
    (perform_comparison (snapshot_of sample_results) (snapshot_of other_results))
  = [ LanguageDelta (str "C/C++") 0 2 2 0 10 10 0 6 6;
      LanguageDelta (str "Python") 1 0 (-1) 3 0 (-3) 1 0 (-1) ]
  /\ files1 (LanguageDelta (str "C/C++") 0 2 2 0 10 10 0 6 6) = 0.
Proof.
  assert (per_language
            (perform_comparison (snapshot_of sample_results)
               (snapshot_of other_results))
          = [ LanguageDelta (str "C/C++") 0 2 2 0 10 10 0 6 6;
              LanguageDelta (str "Python") 1 0 (-1) 3 0 (-3) 1 0 (-1) ]) as E.
  { vm_compute. reflexivity. }
  split; [exact E|].
  destruct (proj1 (proj2 (proj2 comparison_deltas))
              (snapshot_of sample_results)
              (snapshot_of other_results)
              (LanguageDelta (str "C/C++") 0 2 2 0 10 10 0 6 6))
    as (_ & H & _).
  - rewrite E. apply list_elem_of_here.
  - rewrite H. reflexivity.
Defined.

End Comparator.

(** ** Further properties of the line scanner *)

Module ScannerFacts.

Import Scanner.

Lemma scan_single_existsb (markers : list pystr) (st : scan_state) (lcc : pystr) :
  scan_single markers st lcc =
  if existsb (fun m => truthy m && startswith lcc m) markers
  then (add_comment st, true) else (st, false).
Proof.
  induction markers as [|m markers IH]; simpl; [done|].
  by destruct (truthy m && startswith lcc m).
Qed.

Lemma count_lines_cons (f : pystr -> bool) (l : pystr) (lines : list pystr) :
  count_lines f (l :: lines) = (if f l then 1 else 0) + count_lines f lines.
Proof.
  unfold count_lines. simpl. destruct (f l); simpl length; lia.
Qed.

Lemma count_lines_nonneg (f : pystr -> bool) (lines : list pystr) :
  0 <= count_lines f lines.
Proof. unfold count_lines. lia. Qed.

(** Once no pair acts on a line outside a block comment, the
    single-line markers decide. *)
Lemma scan_line_markers_decide (cfg : language_config) (st : scan_state)
    (line : pystr) :
  in_block_comment st = false ->
  forallb (passed_over (strip line)) (default [] (multi_line_comment cfg)) = true ->
  scan_line cfg st line =
  Return (if is_blank line then add_empty st
          else if marker_prefix cfg line then add_comment st
          else add_code st).
Proof.
  intros Hout Hpass. unfold scan_line, is_blank.
  destruct (truthy (strip line)) eqn:Hne; simpl; [|done].
  rewrite pairs_guard.
  rewrite <- (app_nil_r (default [] (multi_line_comment cfg))).
  rewrite scan_pairs_skip by done. simpl. rewrite Hne. simpl.
  rewrite scan_single_existsb. unfold marker_prefix.
  by destruct (existsb _ _).
Qed.

(** X3. Outside a block comment, a non-blank line on which no
    block-comment pair acts is a comment line exactly when its stripped
    form starts with a non-empty single-line marker, and a code line
    otherwise: a marker further right in the line does not count. *)
Theorem marker_must_lead (cfg : language_config) (st : scan_state)
    (line : pystr) :
  in_block_comment st = false ->
  strip line <> [] ->
  forallb (passed_over (strip line)) (default [] (multi_line_comment cfg)) = true ->
  scan_line cfg st line =
  Return (if marker_prefix cfg line then add_comment st else add_code st).
Proof.
  intros Hout Hne Hpass. rewrite scan_line_markers_decide by done.
  unfold is_blank. by destruct (strip line).
Qed.

Lemma marker_must_lead_witness :
  scan_line c_config initial_state (str "x = 1; // note" ++ newline)
  = Return (ScanState 0 0 1 false None None).
Proof.
  apply (marker_must_lead c_config initial_state
           (str "x = 1; // note" ++ newline)).
  - reflexivity.
  - discriminate.
  - reflexivity.
Defined.

Lemma scan_lines_block_free (cfg : language_config) (lines : list pystr)
    (st : scan_state) :
  default [] (multi_line_comment cfg) = [] ->
  scan_lines cfg st lines =
  Return
    (ScanState
       (empty_lines st + count_lines is_blank lines)
       (comment_lines st
        + count_lines (fun l => negb (is_blank l) && marker_prefix cfg l) lines)
       (code_lines st
        + count_lines (fun l => negb (is_blank l) && negb (marker_prefix cfg l))
            lines)
       (in_block_comment st) (block_comment_start st) (block_comment_end st)).
Proof.
  intros Hnone. revert st.
  induction lines as [|l lines IH]; intros st.
  - simpl. unfold count_lines. simpl. rewrite !Z.add_0_r. by destruct st.
  - simpl scan_lines.
    assert (scan_line cfg st l =
            Return (if is_blank l then add_empty st
                    else if marker_prefix cfg l then add_comment st
                    else add_code st)) as ->.
    { unfold scan_line, is_blank.
      destruct (truthy (strip l)) eqn:Hne; simpl; [|done].
      rewrite Hnone. rewrite Hne. simpl.
      rewrite scan_single_existsb. unfold marker_prefix.
      by destruct (existsb _ _). }
    rewrite IH, !count_lines_cons.
    destruct (is_blank l); [|destruct (marker_prefix cfg l)]; simpl;
      f_equal; f_equal; lia.
Qed.

Lemma count_lines_partition (cfg : language_config) (lines : list pystr) :
  count_lines is_blank lines
  + count_lines (fun l => negb (is_blank l) && marker_prefix cfg l) lines
  + count_lines (fun l => negb (is_blank l) && negb (marker_prefix cfg l)) lines
  = Z.of_nat (length lines).
Proof.
  induction lines as [|l lines IH]; [done|].
  rewrite !count_lines_cons, length_cons, Nat2Z.inj_succ.
  destruct (is_blank l), (marker_prefix cfg l); simpl; lia.
Qed.

(** X2. For a language without block-comment pairs the scan is a plain
    count: blank lines, non-blank lines whose stripped form starts with
    a non-empty single-line marker (comments), and the other non-blank
    lines (code). The three counters then add up to the number of
    lines. *)
Theorem block_free_metrics (path : pystr) (cfg : language_config)
    (lines : list pystr) :
  default [] (multi_line_comment cfg) = [] ->
  exists m,
    analyze_lines path cfg lines = Return m
    /\ total_lines m = Z.of_nat (length lines)
    /\ fm_empty_lines m = count_lines is_blank lines
    /\ fm_comment_lines m
       = count_lines (fun l => negb (is_blank l) && marker_prefix cfg l) lines
    /\ fm_code_lines m
       = count_lines (fun l => negb (is_blank l) && negb (marker_prefix cfg l))
           lines
    /\ fm_empty_lines m + fm_comment_lines m + fm_code_lines m = total_lines m.
Proof.
  intros Hnone. unfold analyze_lines.
  rewrite scan_lines_block_free by done.
  eexists. split; [reflexivity|]. simpl.
  repeat split; try reflexivity.
  rewrite <- (count_lines_partition cfg lines). lia.
Qed.

Lemma block_free_metrics_witness :
  exists m,
    analyze_lines (str "run.sh") (get_config DEFAULT_LANGUAGES (str "Shell"))
      [str "# go" ++ newline; newline; str "echo hi # there" ++ newline]
    = Return m
    /\ fm_empty_lines m + fm_comment_lines m + fm_code_lines m = total_lines m.
Proof.
  destruct (block_free_metrics (str "run.sh")
              (get_config DEFAULT_LANGUAGES (str "Shell"))
              [str "# go" ++ newline; newline; str "echo hi # there" ++ newline])
    as (m & Hm & _ & _ & _ & _ & Hsum).
  - reflexivity.
  - exists m. split; [exact Hm | exact Hsum].
Defined.

(** X1. A file all of whose lines consist of whitespace only has every
    line counted as blank and none as comment or code, whatever the
    language. *)
Theorem blank_file_metrics (path : pystr) (cfg : language_config)
    (lines : list pystr) :
  Forall (fun l => forallb isspace l = true) lines ->
  analyze_lines path cfg lines =
  Return (FileMetrics (Z.of_nat (length lines)) (Z.of_nat (length lines)) 0 0
            path (basename path)).
Proof.
  intros Hall. unfold analyze_lines.
  assert (forall st,
             scan_lines cfg st lines =
             Return (ScanState (empty_lines st + Z.of_nat (length lines))
                       (comment_lines st) (code_lines st)
                       (in_block_comment st) (block_comment_start st)
                       (block_comment_end st))) as H.
  { induction Hall as [|l lines Hl _ IH]; intros st.
    - simpl. rewrite Z.add_0_r. by destruct st.
    - simpl scan_lines. unfold scan_line.
      apply strip_nil_iff in Hl. rewrite Hl. simpl.
      rewrite IH. simpl. f_equal. f_equal. lia. }
  rewrite H. reflexivity.
Qed.

Lemma blank_file_metrics_witness :
  analyze_lines (str "b.c") c_config [blank_sample; newline]
  = Return (FileMetrics 2 2 0 0 (str "b.c") (str "b.c")).
Proof.
  apply (blank_file_metrics (str "b.c") c_config [blank_sample; newline]).
  repeat constructor.
Defined.

(** Inside a block comment a non-blank line is a comment line, and the
    block ends when the awaited end marker occurs in the line. *)
Lemma scan_line_in_block (cfg : language_config) (st : scan_state)
    (line e : pystr) :
  default [] (multi_line_comment cfg) <> [] ->
  in_block_comment st = true ->
  block_comment_end st = Some e ->
  strip line <> [] ->
  scan_line cfg st line =
  Return (if contains e (strip line) then leave_block (add_comment st)
          else add_comment st).
Proof.
  intros Hpairs Hin He Hne. unfold scan_line.
  destruct (strip line) as [|c l] eqn:HL; [done|]. simpl truthy. simpl negb.
  cbv iota. rewrite pairs_guard.
  destruct (default [] (multi_line_comment cfg)) as [|[s0 e0] pairs]; [done|].
  simpl scan_pairs. rewrite Hin. simpl. rewrite He.
  by destruct (contains e (c :: l)).
Qed.

Lemma scan_lines_inside (cfg : language_config) (e : pystr)
    (middle : list pystr) (st : scan_state) :
  default [] (multi_line_comment cfg) <> [] ->
  in_block_comment st = true ->
  block_comment_end st = Some e ->
  Forall (fun l => contains e (strip l) = false) middle ->
  scan_lines cfg st middle =
  Return (ScanState (empty_lines st + count_lines is_blank middle)
            (comment_lines st + count_lines (fun l => negb (is_blank l)) middle)
            (code_lines st) true (block_comment_start st) (Some e)).
Proof.
  intros Hpairs Hin He Hall. revert st Hin He.
  induction Hall as [|l middle Hl _ IH]; intros st Hin He.
  - simpl. unfold count_lines. simpl. rewrite !Z.add_0_r.
    destruct st; simpl in *; by subst.
  - simpl scan_lines. rewrite !count_lines_cons.
    destruct (is_blank l) eqn:Hb.
    + unfold scan_line. unfold is_blank in Hb. rewrite Hb.
      rewrite IH by done. simpl. f_equal. f_equal; lia.
    + rewrite (scan_line_in_block cfg st l e) by
        (try done; unfold is_blank in Hb; by destruct (strip l)).
      rewrite Hl. rewrite IH by done. simpl. f_equal. f_equal; lia.
Qed.

(** X4. A block comment over several lines: the opening line holds a
    start marker the scanner acts on and not its end marker, the lines
    in between do not hold the end marker, the closing line holds it.
    Then the opening line, every non-blank line in between and the
    closing line are comment lines, the blank lines in between are
    blank lines, no line is a code line (also when text follows the end
    marker on the closing line), and the scanner is outside a block
    comment afterwards. *)
Theorem block_comment_span (cfg : language_config) (st : scan_state)
    (pre post : list (pystr * pystr)) (s e : pystr)
    (opening closing : pystr) (middle : list pystr) :
  multi_line_comment cfg = Some (pre ++ (s, e) :: post) ->
  in_block_comment st = false ->
  strip opening <> [] ->
  forallb (passed_over (strip opening)) pre = true ->
  contains s (strip opening) = true ->
  contains e (strip opening) = false ->
  Forall (fun l => contains e (strip l) = false) middle ->
  strip closing <> [] ->
  contains e (strip closing) = true ->
  scan_lines cfg st (opening :: middle ++ [closing]) =
  Return (ScanState (empty_lines st + count_lines is_blank middle)
            (comment_lines st + 2
             + count_lines (fun l => negb (is_blank l)) middle)
            (code_lines st) false None None).
Proof.
  intros Hcfg Hout Hopen Hpre Hs He Hmid Hclose Hce.
  assert (default [] (multi_line_comment cfg) <> []) as Hpairs.
  { rewrite Hcfg. simpl. by destruct pre. }
  simpl scan_lines.
  rewrite (block_comment_opens cfg st opening pre post s e) by done.
  rewrite scan_lines_app.
  rewrite (scan_lines_inside cfg e) by done.
  simpl scan_lines.
  rewrite (scan_line_in_block cfg _ closing e) by done.
  rewrite Hce. unfold leave_block, add_comment. simpl.
  f_equal. f_equal. lia.
Qed.

Lemma block_comment_span_witness :
  scan_lines c_config initial_state
    [str "/* start" ++ newline; str "middle" ++ newline; newline;
     str "end */ int x;" ++ newline]
  = Return (ScanState 1 3 0 false None None).
Proof.
  apply (block_comment_span c_config initial_state [] [] (str "/*") (str "*/")
           (str "/* start" ++ newline) (str "end */ int x;" ++ newline)
           [str "middle" ++ newline; newline]).
  - reflexivity.
  - reflexivity.
  - discriminate.
  - reflexivity.
  - reflexivity.
  - reflexivity.
  - repeat constructor.
  - discriminate.
  - reflexivity.
Defined.

Lemma scan_pairs_consistent (cfg : language_config)
    (pairs : list (pystr * pystr)) (st st' : scan_state) (lcc lcc' : pystr) :
  (forall p, p ∈ pairs -> p ∈ default [] (multi_line_comment cfg)) ->
  state_consistent cfg st ->
  scan_pairs pairs st lcc = Return (st', lcc') ->
  state_consistent cfg st'.
Proof.
  intros Hsub Hst. induction pairs as [|[s e] pairs IH]; simpl.
  - by intros [= <- <-].
  - assert (forall p, p ∈ pairs -> p ∈ default [] (multi_line_comment cfg))
      as Hsub' by (intros p Hp; apply Hsub; by apply list_elem_of_further).
    destruct (in_block_comment st) eqn:Hin; simpl.
    + destruct Hst as [(Hf & _) | (_ & s0 & e0 & Hmem & Hs0 & He0)];
        [congruence|].
      rewrite He0. destruct (contains e0 lcc); intros [= <- <-].
      * left. done.
      * right. split; [done|]. exists s0, e0. done.
    + destruct (contains s lcc); [|by apply IH].
      destruct (contains e lcc).
      * destruct (find lcc e (find lcc s 0 + len s) =? -1); simpl;
          [by apply IH|].
        destruct Hst as [(_ & Hs0 & He0) | (Ht & _)]; [|congruence].
        destruct (truthy _); intros [= <- <-]; left; done.
      * intros [= <- <-]. right. split; [done|]. exists s, e.
        split; [apply Hsub, list_elem_of_here | done].
Qed.

Lemma scan_line_consistent (cfg : language_config) (st st' : scan_state)
    (line : pystr) :
  state_consistent cfg st ->
  scan_line cfg st line = Return st' ->
  state_consistent cfg st'.
Proof.
  intros Hst. unfold scan_line.
  destruct (truthy (strip line)); simpl.
  2:{ intros [= <-]. destruct Hst as [H | H]; [left | right]; exact H. }
  rewrite pairs_guard.
  destruct (scan_pairs _ st (strip line)) as [[st1 lcc1]|] eqn:Hp; [|done].
  apply (scan_pairs_consistent cfg) in Hp; [|done|done].
  destruct (truthy lcc1); simpl; [|by intros [= <-]].
  destruct (scan_single_cases (single_line_markers cfg) st1 lcc1) as [-> | ->];
    simpl; intros [= <-]; destruct Hp as [H | H]; [left | right | left | right];
    exact H.
Qed.

(** X5. At every point of every file the block-comment variables of
    the scanner agree: outside a block comment the recorded start and
    end markers are unset; inside, they are the two markers of one
    configured pair. *)
Theorem scanner_state_consistent (cfg : language_config) (lines : list pystr) :
  exists st,
    scan_lines cfg initial_state lines = Return st
    /\ state_consistent cfg st.
Proof.
  destruct (scan_lines_bounds cfg lines initial_state initial_well_formed)
    as (st & Hst & _). exists st. split; [exact Hst|].
  assert (forall st0, state_consistent cfg st0 ->
                      scan_lines cfg st0 lines = Return st ->
                      state_consistent cfg st) as H.
  { clear Hst. induction lines as [|l lines IH]; intros st0 H0; simpl.
    - by intros [= <-].
    - destruct (scan_line cfg st0 l) as [st1|] eqn:E; [|done].
      apply IH. by apply (scan_line_consistent cfg st0 st1 l). }
  apply (H initial_state); [|exact Hst]. left. done.
Qed.

Lemma scan_pairs_same_markers (pairs : list (pystr * pystr))
    (st st' : scan_state) (lcc lcc' : pystr) :
  (forall p, p ∈ pairs -> p.1 = p.2) ->
  in_block_comment st = false ->
  scan_pairs pairs st lcc = Return (st', lcc') ->
  in_block_comment st' = false.
Proof.
  intros Hsame Hout. induction pairs as [|[s e] pairs IH]; simpl.
  - by intros [= <- <-].
  - assert (forall p, p ∈ pairs -> p.1 = p.2) as Hsame'
      by (intros p Hp; apply Hsame; by apply list_elem_of_further).
    assert (s = e) as <- by (apply (Hsame (s, e)), list_elem_of_here).
    rewrite Hout. simpl.
    destruct (contains s lcc); [|by apply IH].
    destruct (find lcc s (find lcc s 0 + len s) =? -1); simpl; [by apply IH|].
    destruct (truthy _); by intros [= <- <-].
Qed.

(** X6. When the two markers of every configured block-comment pair
    are the same string, as for Python's triple quotes, the scanner
    never enters a block comment, whatever the file holds: a comment
    spanning several lines is not recognised as a block. *)
Theorem same_markers_never_open (cfg : language_config) (lines : list pystr) :
  (forall p, p ∈ default [] (multi_line_comment cfg) -> p.1 = p.2) ->
  exists st,
    scan_lines cfg initial_state lines = Return st
    /\ in_block_comment st = false.
Proof.
  intros Hsame.
  destruct (scan_lines_bounds cfg lines initial_state initial_well_formed)
    as (st & Hst & _). exists st. split; [exact Hst|].
  assert (forall st0, in_block_comment st0 = false ->
                      scan_lines cfg st0 lines = Return st ->
                      in_block_comment st = false) as H.
  { clear Hst. induction lines as [|l lines IH]; intros st0 H0; simpl.
    - by intros [= <-].
    - destruct (scan_line cfg st0 l) as [st1|] eqn:E; [|done].
      apply IH. revert E. unfold scan_line.
      destruct (truthy (strip l)); simpl; [|by intros [= <-]].
      rewrite pairs_guard.
      destruct (scan_pairs _ st0 (strip l)) as [[st2 lcc2]|] eqn:Hp; [|done].
      apply scan_pairs_same_markers in Hp; [|done|done].
      destruct (truthy lcc2); simpl; [|by intros [= <-]].
      destruct (scan_single_cases (single_line_markers cfg) st2 lcc2)
        as [-> | ->]; simpl; by intros [= <-]. }
  by apply (H initial_state).
Qed.

Lemma same_markers_never_open_witness :
  exists st,
    scan_lines python_config initial_state docstring_file = Return st
    /\ in_block_comment st = false.
Proof.
  apply (same_markers_never_open python_config docstring_file).
  intros p Hp. vm_compute in Hp.
  apply elem_of_cons in Hp as [-> | Hp]; [reflexivity|].
  apply elem_of_cons in Hp as [-> | Hp]; [reflexivity|].
  by apply elem_of_nil in Hp.
Defined.

End ScannerFacts.

(** ** Further properties of the tree walker *)

Module WalkerFacts.

(** Induction over a directory tree, with the hypothesis for every
    sub-directory. *)
Lemma dir_tree_nested_ind (P : dir_tree -> Prop) :
  (forall subdirs filenames,
      Forall (fun p => P p.2) subdirs -> P (Dir subdirs filenames)) ->
  forall t, P t.
Proof.
  intros H.
  refine (fix IH (t : dir_tree) : P t :=
            match t with
            | Dir subdirs filenames =>
                H subdirs filenames
                  ((fix go (ds : list (pystr * dir_tree))
                      : Forall (fun p => P p.2) ds :=
                      match ds with
                      | [] => @List.Forall_nil _ (fun p => P p.2)
                      | p :: rest =>
                          @List.Forall_cons _ (fun p => P p.2) p rest
                            (match p return P p.2 with (_, sub) => IH sub end)
                            (go rest)
                      end) subdirs)
            end).
Qed.

Lemma collect_in_dir_filter (inc exc : list pystr) (root_dir : pystr)
    (filenames : list pystr) :
  collect_in_dir inc exc root_dir filenames =
  List.filter (passes inc exc) (path_join root_dir <$> filenames).
Proof.
  induction filenames as [|f fs IH]; [done|].
  rewrite fmap_cons. cbn [collect_in_dir List.filter]. unfold passes at 1.
  destruct (exclude_loop exc (path_join root_dir f)); simpl; [exact IH|].
  destruct (include_flag inc (path_join root_dir f)); by rewrite IH.
Qed.

Lemma collect_walk_filter (inc exc : list pystr)
    (visited : list (pystr * list pystr)) :
  collect_walk inc exc visited =
  List.filter (passes inc exc) (walk_paths visited).
Proof.
  induction visited as [|[root_dir filenames] visited IH]; [done|].
  cbn [collect_walk walk_paths].
  by rewrite List.filter_app, IH, collect_in_dir_filter.
Qed.

(** X7. [collect_files] returns the paths offered by the walk that
    pass the two pattern tests, in the order of the walk and as often
    as the walk offers them. *)
Theorem collect_files_in_walk_order (inc exc : list pystr) (dir : pystr)
    (tree : dir_tree) :
  collect_files inc exc dir tree =
  List.filter (fun p => negb (exclude_loop exc p) && include_flag inc p)
    (candidate_paths dir tree)
  /\ collect_files inc exc dir tree `sublist_of` candidate_paths dir tree.
Proof.
  assert (collect_files inc exc dir tree =
          List.filter (passes inc exc) (candidate_paths dir tree)) as H
    by apply collect_walk_filter.
  split; [exact H|]. rewrite H.
  generalize (candidate_paths dir tree). intros l.
  induction l as [|x l IH]; simpl; [constructor|].
  destruct (passes inc exc x); by constructor.
Qed.

Lemma os_walk_prune (t : dir_tree) :
  forall root_dir, os_walk root_dir (prune t) = os_walk root_dir t.
Proof.
  induction t as [subdirs filenames IH] using dir_tree_nested_ind.
  intros root_dir. cbn -[startswith str path_join]. f_equal.
  induction IH as [|[d sub] rest Hsub _ IHrest];
    cbn -[startswith str path_join]; [done|].
  destruct (startswith d (str ".")) eqn:E;
    cbn -[startswith str path_join]; rewrite ?E; [exact IHrest|].
  rewrite IHrest. f_equal. apply Hsub.
Qed.

(** X8. What lies inside hidden directories has no influence: two
    trees that are equal once their hidden directories are removed, at
    every depth, give the same collected files. *)
Theorem hidden_directories_ignored (inc exc : list pystr) (dir : pystr)
    (tree tree' : dir_tree) :
  prune tree = prune tree' ->
  collect_files inc exc dir tree = collect_files inc exc dir tree'.
Proof.
  intros H. unfold collect_files.
  by rewrite <- (os_walk_prune tree), <- (os_walk_prune tree'), H.
Qed.

Lemma hidden_directories_ignored_witness :
  collect_files [str "*"] [] (str "proj") sample_tree =
  collect_files [str "*"] [] (str "proj")
    (Dir [ (str "src", Dir [(str ".cache", Dir [] [str "x.c"])] [str "b.c"]) ]
         [str "a.py"; str "test_a.py"]).
Proof.
  apply (hidden_directories_ignored [str "*"] [] (str "proj") sample_tree
           (Dir [ (str "src", Dir [(str ".cache", Dir [] [str "x.c"])]
                                [str "b.c"]) ]
                [str "a.py"; str "test_a.py"])).
  reflexivity.
Defined.

Lemma exclude_loop_active (exc : list pystr) (p : pystr) :
  exclude_loop
    (List.filter (fun pat => truthy pat && negb (bool_decide (pat = str "*")))
       exc) p
  = exclude_loop exc p.
Proof.
  induction exc as [|pat exc IH]; [done|]. cbn [List.filter exclude_loop].
  destruct (truthy pat && negb (bool_decide (pat = str "*"))) eqn:E; simpl.
  - rewrite E. simpl. by rewrite IH.
  - exact IH.
Qed.

(** X9. The empty string and ["*"] have no effect as exclude
    patterns: dropping them from the exclude list leaves the collected
    files unchanged. In particular excluding ["*"] excludes nothing. *)
Theorem inert_exclude_patterns (inc exc : list pystr) (dir : pystr)
    (tree : dir_tree) :
  collect_files inc exc dir tree =
  collect_files inc
    (List.filter (fun pat => truthy pat && negb (bool_decide (pat = str "*")))
       exc)
    dir tree.
Proof.
  unfold collect_files. rewrite !collect_walk_filter.
  apply List.filter_ext. intros p. unfold passes.
  by rewrite exclude_loop_active.
Qed.

End WalkerFacts.

(** ** The pattern entries *)

Module PatternFacts.

Lemma lstrip_suffix (s : pystr) : exists ws, s = ws ++ lstrip s.
Proof.
  induction s as [|c s [ws IH]]; simpl.
  - by exists [].
  - destruct (isspace c).
    + exists (c :: ws). simpl. by rewrite <- IH.
    + by exists [].
Qed.

Lemma elem_of_lstrip (c : N) (s : pystr) : c ∈ lstrip s -> c ∈ s.
Proof.
  destruct (lstrip_suffix s) as [ws H]. intros Hc. rewrite H.
  apply elem_of_app. by right.
Qed.

Lemma elem_of_strip (c : N) (s : pystr) : c ∈ strip s -> c ∈ s.
Proof.
  unfold strip, rstrip. intros H.
  apply list_elem_of_In in H. apply List.in_rev in H.
  apply list_elem_of_In, elem_of_lstrip in H.
  apply list_elem_of_In in H. apply List.in_rev in H.
  apply list_elem_of_In in H. by apply elem_of_lstrip.
Qed.

Lemma lstrip_idempotent (s : pystr) : lstrip (lstrip s) = lstrip s.
Proof.
  induction s as [|c s IH]; simpl; [done|].
  destruct (isspace c) eqn:E; [exact IH|]. simpl. by rewrite E.
Qed.

Lemma lstrip_head (s : pystr) :
  lstrip s = [] \/ exists c t, lstrip s = c :: t /\ isspace c = false.
Proof.
  induction s as [|c s IH]; simpl; [by left|].
  destruct (isspace c) eqn:E; [exact IH|]. right. by exists c, s.
Qed.

(** Stripping twice is stripping once. *)
Lemma strip_idempotent (s : pystr) : strip (strip s) = strip s.
Proof.
  unfold strip.
  assert (lstrip (rstrip (lstrip s)) = rstrip (lstrip s)) as ->.
  { destruct (lstrip_head s) as [-> | (c & t & -> & Hc)]; [done|].
    unfold rstrip. simpl rev. rewrite lstrip_app_keep by done.
    rewrite rev_app_distr. simpl. by rewrite Hc. }
  unfold rstrip at 1 2. by rewrite rev_involutive, lstrip_idempotent.
Qed.

Lemma split_on_pieces (sep : N) (s cur piece : pystr) :
  sep ∉ cur -> piece ∈ split_on sep cur s -> sep ∉ piece.
Proof.
  revert cur. induction s as [|c s IH]; intros cur Hcur; simpl.
  - by intros ->%list_elem_of_singleton.
  - destruct (c =? sep)%N eqn:E.
    + intros [-> | H]%elem_of_cons; [done|].
      apply (IH []); [apply not_elem_of_nil | done].
    + apply IH. intros [H | H%list_elem_of_singleton]%elem_of_app; [done|].
      apply N.eqb_neq in E. done.
Qed.

Lemma strip_pieces_elem (pieces : list pystr) (p : pystr) :
  p ∈ strip_pieces pieces ->
  exists q, q ∈ pieces /\ p = strip q /\ p <> [].
Proof.
  induction pieces as [|q pieces IH]; simpl.
  - by intros H%elem_of_nil.
  - destruct (truthy (strip q)) eqn:E.
    + intros [-> | H]%elem_of_cons.
      * exists q. split; [apply list_elem_of_here|]. split; [done|].
        by destruct (strip q).
      * destruct (IH H) as (q' & Hq' & Hp). exists q'.
        split; [by apply list_elem_of_further | done].
    + intros H. destruct (IH H) as (q' & Hq' & Hp). exists q'.
      split; [by apply list_elem_of_further | done].
Qed.

(** X10. Every pattern read from an entry is non-empty, has no
    whitespace at either end and holds no comma, whatever the text of
    the entry. *)
Theorem parsed_patterns_clean (entry : pystr) (p : pystr) :
  p ∈ parse_patterns entry -> clean_pattern p.
Proof.
  unfold parse_patterns. intros (q & Hq & -> & Hne)%strip_pieces_elem.
  split; [done|]. split; [apply strip_idempotent|].
  intros Hc%elem_of_strip. revert Hc.
  apply (split_on_pieces 44 entry [] q); [apply not_elem_of_nil | done].
Qed.

Lemma parsed_patterns_clean_witness :
  parse_patterns (str " src , ,*.py,") = [str "src"; str "*.py"]
  /\ clean_pattern (str "src").
Proof.
  split; [reflexivity|].
  apply (parsed_patterns_clean (str " src , ,*.py,") (str "src")).
  vm_compute. apply list_elem_of_here.
Defined.

Lemma split_on_last (sep : N) (x cur : pystr) :
  sep ∉ x -> split_on sep cur x = [cur ++ x].
Proof.
  revert cur. induction x as [|c x IH]; intros cur Hx; simpl.
  - by rewrite app_nil_r.
  - apply not_elem_of_cons in Hx as [Hc Hx].
    destruct (c =? sep)%N eqn:E; [by apply N.eqb_eq in E|].
    rewrite IH by done. by rewrite <- app_assoc.
Qed.

Lemma split_on_sep (sep : N) (x cur rest : pystr) :
  sep ∉ x ->
  split_on sep cur (x ++ sep :: rest) = (cur ++ x) :: split_on sep [] rest.
Proof.
  revert cur. induction x as [|c x IH]; intros cur Hx; simpl.
  - by rewrite N.eqb_refl, app_nil_r.
  - apply not_elem_of_cons in Hx as [Hc Hx].
    destruct (c =? sep)%N eqn:E; [by apply N.eqb_eq in E|].
    rewrite IH by done. by rewrite <- app_assoc.
Qed.

Lemma strip_after_space (p : pystr) :
  strip p = p -> strip (32%N :: p) = p.
Proof. intros H. unfold strip. simpl. exact H. Qed.

Lemma parse_join (ps : list pystr) (lead : pystr) :
  lead = [] \/ lead = [32%N] ->
  ps <> [] ->
  Forall clean_pattern ps ->
  strip_pieces (split_on 44 [] (lead ++ join (str ", ") ps)) = ps.
Proof.
  intros Hlead Hne Hall. revert lead Hlead.
  induction Hall as [|p ps (Hp & Hstrip & Hcomma) Hall IH]; [done|].
  intros lead Hlead.
  assert (44%N ∉ lead ++ p) as Hlp.
  { intros [H | H]%elem_of_app; [|done].
    destruct Hlead as [-> | ->]; [by apply elem_of_nil in H|].
    by apply list_elem_of_singleton in H. }
  assert (strip (lead ++ p) = p) as Hs.
  { destruct Hlead as [-> | ->]; [done | by apply strip_after_space]. }
  assert (truthy p = true) as Ht by (by destruct p).
  destruct ps as [|q ps].
  - simpl join. rewrite split_on_last by done. simpl.
    by rewrite Hs, Ht.
  - change (join (str ", ") (p :: q :: ps))
      with (p ++ 44%N :: ([32%N] ++ join (str ", ") (q :: ps))).
    rewrite app_assoc, split_on_sep by done. rewrite app_nil_l.
    cbn [strip_pieces]. rewrite Hs, Ht. f_equal.
    apply IH; [done | by right].
Qed.

(** X11. A list of patterns that are non-empty, without surrounding
    whitespace and without comma survives the entry: the text
    [reload_config] writes for it is read back by
    [update_config_from_ui] as the same list (the include and the
    exclude entry alike). *)
Theorem pattern_entry_round_trip (self : app) (inc exc : list pystr)
    (lang_vars : list (pystr * bool)) :
  Forall clean_pattern inc -> Forall clean_pattern exc ->
  include_patterns
    (update_config_from_ui self (entry_text inc) (entry_text exc) lang_vars)
  = inc
  /\ exclude_patterns
       (update_config_from_ui self (entry_text inc) (entry_text exc) lang_vars)
     = exc.
Proof.
  assert (forall ps, Forall clean_pattern ps ->
                     parse_patterns (entry_text ps) = ps) as H.
  { intros ps Hps. destruct ps as [|p ps]; [done|].
    unfold parse_patterns, entry_text.
    apply (parse_join (p :: ps) []); [by left | done | done]. }
  intros Hinc Hexc. simpl. by rewrite !H.
Qed.

Lemma pattern_entry_round_trip_witness :
  include_patterns
    (update_config_from_ui sample_app (entry_text [str "src"; str ".py"])
       (entry_text [str "test"]) [])
  = [str "src"; str ".py"].
Proof.
  apply (pattern_entry_round_trip sample_app [str "src"; str ".py"]
           [str "test"] []).
  - repeat constructor; try done; vm_compute;
      intros H; repeat (apply elem_of_cons in H as [H | H]; [done|]);
      by apply elem_of_nil in H.
  - repeat constructor; try done; vm_compute;
      intros H; repeat (apply elem_of_cons in H as [H | H]; [done|]);
      by apply elem_of_nil in H.
Defined.

End PatternFacts.

(** ** Recent directories and custom languages *)

Module ConfigFacts.

Lemma list_remove_elem (x y : pystr) (l : list pystr) :
  y ∈ list_remove x l -> y ∈ l.
Proof.
  induction l as [|z l IH]; simpl; [done|].
  case_bool_decide as E.
  - intros Hy. by apply list_elem_of_further.
  - intros [-> | Hy]%elem_of_cons; [apply list_elem_of_here|].
    by apply list_elem_of_further, IH.
Qed.

Lemma list_remove_NoDup (x : pystr) (l : list pystr) :
  NoDup l -> NoDup (list_remove x l) /\ x ∉ list_remove x l.
Proof.
  induction 1 as [|z l Hz Hl [IH1 IH2]]; simpl.
  - split; [constructor | apply not_elem_of_nil].
  - case_bool_decide as E.
    + subst z. done.
    + split.
      * constructor; [|done]. intros H. by apply Hz, (list_remove_elem x).
      * intros [-> | H]%elem_of_cons; done.
Qed.

Lemma list_remove_keeps (x y : pystr) (l : list pystr) :
  y <> x -> y ∈ l -> y ∈ list_remove x l.
Proof.
  intros Hne. induction l as [|z l IH]; simpl; [done|].
  intros [-> | H]%elem_of_cons.
  - case_bool_decide; [done | apply list_elem_of_here].
  - case_bool_decide; [done | by apply list_elem_of_further, IH].
Qed.

Lemma list_remove_length (x : pystr) (l : list pystr) :
  x ∈ l -> S (length (list_remove x l)) = length l.
Proof.
  induction l as [|z l IH]; simpl.
  - by intros H%elem_of_nil.
  - case_bool_decide as E; [done|].
    intros [-> | H]%elem_of_cons; [done|]. simpl. by rewrite IH.
Qed.

(** X12. Choosing a directory keeps the list of recent directories a
    most-recently-used list: the chosen directory comes first, the list
    has at most ten entries and stays free of duplicates, every entry
    is the chosen directory or was in the list before, and when the
    list held fewer than ten entries none of them is lost. *)
Theorem recent_directories_mru (directory current : pystr) (l : list pystr) :
  directory <> [] -> NoDup l ->
  exists l',
    select_directory directory current (Some l) = Return (directory, Some l')
    /\ head l' = Some directory
    /\ (length l' <= 10)%nat
    /\ NoDup l'
    /\ (forall x, x ∈ l' -> x = directory \/ x ∈ l)
    /\ ((length l < 10)%nat -> forall x, x ∈ l -> x ∈ l').
Proof.
  intros Hdir Hl. unfold select_directory.
  assert (truthy directory = true) as -> by (by destruct directory).
  set (l1 := if bool_decide (directory ∈ l) then list_remove directory l else l).
  assert (NoDup l1 /\ (directory ∉ l1) /\ (forall x, x ∈ l1 -> x ∈ l)
          /\ (forall x, x <> directory -> x ∈ l -> x ∈ l1)
          /\ (length l1 <= length l)%nat) as (Hn1 & Hd1 & Hsub & Hkeep & Hlen).
  { unfold l1. case_bool_decide as Hin.
    - destruct (list_remove_NoDup directory l Hl) as [H1 H2].
      split; [done|]. split; [done|].
      split; [intros x; apply list_remove_elem|].
      split; [intros x; apply list_remove_keeps|].
      pose proof (list_remove_length directory l Hin). lia.
    - repeat split; try done. }
  exists (take 10 (directory :: l1)). split; [done|].
  split; [done|].
  split; [rewrite length_take; lia|].
  split; [apply (sublist_NoDup _ (directory :: l1));
          [by constructor | apply sublist_take]|].
  split.
  - intros x Hx. apply elem_of_take in Hx as (i & Hx & _).
    apply list_elem_of_lookup_2 in Hx.
    apply elem_of_cons in Hx as [-> | Hx]; [by left | right; by apply Hsub].
  - intros Hshort x Hx. rewrite take_ge by (simpl; lia).
    destruct (decide (x = directory)) as [-> | Hne];
      [apply list_elem_of_here | by apply list_elem_of_further, Hkeep].
Qed.

Lemma recent_directories_mru_witness :
  exists l',
    select_directory (str "/b") (str "/a") (Some [str "/a"; str "/b"; str "/c"])
    = Return (str "/b", Some l')
    /\ head l' = Some (str "/b") /\ NoDup l'.
Proof.
  destruct (recent_directories_mru (str "/b") (str "/a")
              [str "/a"; str "/b"; str "/c"]) as (l' & H & Hh & _ & Hn & _).
  - discriminate.
  - apply NoDup_ListNoDup.
    repeat (constructor; [vm_compute; intuition discriminate|]). constructor.
  - exists l'. split; [exact H|]. split; [exact Hh | exact Hn].
Defined.

Example select_directory_moves_to_front :
  select_directory (str "/b") (str "/a") (Some [str "/a"; str "/b"; str "/c"])
  = Return (str "/b", Some [str "/b"; str "/a"; str "/c"]).
Proof. reflexivity. Qed.

Lemma get_config_dict_set (d : list (pystr * language_config)) (k k' : pystr)
    (v : language_config) :
  get_config (dict_set d k v) k' =
  if bool_decide (k = k') then v else get_config d k'.
Proof.
  induction d as [|[k0 v0] d IH]; simpl; [done|].
  destruct (decide (k0 = k)) as [-> | E0].
  - rewrite (bool_decide_eq_true_2 (k = k)) by done. simpl.
    by case_bool_decide.
  - rewrite (bool_decide_eq_false_2 (k0 = k)) by done. simpl.
    rewrite IH. repeat case_bool_decide; congruence.
Qed.


Lemma get_config_dict_update_other (other d : list (pystr * language_config))
    (k : pystr) :
  k ∉ other.*1 -> get_config (dict_update d other) k = get_config d k.
Proof.
  revert d. induction other as [|[k0 v0] other IH]; intros d Hk; simpl; [done|].
  simpl in Hk. apply not_elem_of_cons in Hk as [Hne Hk].
  rewrite IH by done. rewrite get_config_dict_set.
  by rewrite bool_decide_eq_false_2.
Qed.

(** X13. Loading custom languages merges them into the table: a
    language the custom file defines gets the custom configuration, and
    every other language keeps the configuration it had. *)
Theorem custom_languages_merge (table custom : list (pystr * language_config))
    (k : pystr) :
  (k ∉ custom.*1 ->
   get_config (load_custom_language_configs table (Some custom)) k
   = get_config table k)
  /\ (NoDup custom.*1 ->
      forall v, (k, v) ∈ custom ->
                get_config (load_custom_language_configs table (Some custom)) k
                = v).
Proof.
  simpl. split; [apply get_config_dict_update_other|].
  intros Hnd v Hin. revert table.
  induction custom as [|[k0 v0] custom IH]; intros table; simpl.
  - by apply elem_of_nil in Hin.
  - simpl in Hnd. apply NoDup_cons in Hnd as [Hk0 Hnd].
    apply elem_of_cons in Hin as [[= <- <-] | Hin].
    + rewrite get_config_dict_update_other by done.
      rewrite get_config_dict_set. by rewrite bool_decide_eq_true_2.
    + by apply IH.
Qed.

Lemma custom_languages_merge_witness :
  get_config
    (load_custom_language_configs DEFAULT_LANGUAGES
       (Some [(str "Go", only_pairs [])]))
    (str "Go") = only_pairs []
  /\ get_config
       (load_custom_language_configs DEFAULT_LANGUAGES
          (Some [(str "Go", only_pairs [])]))
       (str "Rust") = get_config DEFAULT_LANGUAGES (str "Rust").
Proof.
  split.
  - apply (proj2 (custom_languages_merge DEFAULT_LANGUAGES
                    [(str "Go", only_pairs [])] (str "Go"))).
    + apply NoDup_singleton.
    + apply list_elem_of_here.
  - apply (proj1 (custom_languages_merge DEFAULT_LANGUAGES
                    [(str "Go", only_pairs [])] (str "Rust"))).
    intros H%list_elem_of_singleton. discriminate.
Defined.






End ConfigFacts.

(** ** The aggregator *)

Module AggregatorFacts.

Import Scanner.

Lemma analyze_file_returns (content : option pystr) (path : pystr)
    (cfg : language_config) :
  (content = None /\ analyze_file content path cfg = Return None)
  \/ exists m,
       analyze_file content path cfg = Return (Some m)
       /\ file_path m = path /\ record_bounded m.
Proof.
  destruct content as [text|]; [right | by left].
  unfold analyze_file, analyze_lines.
  destruct (scan_lines_bounds cfg (readlines text) initial_state
              initial_well_formed) as (st & -> & _ & Hb).
  eexists. split; [reflexivity|]. split; [reflexivity|].
  unfold record_bounded. simpl in *. lia.
Qed.

Lemma sum_metrics_snoc (f : file_metrics -> Z) (l : list file_metrics)
    (m : file_metrics) :
  sum_metrics f (l ++ [m]) = sum_metrics f l + f m.
Proof.
  unfold sum_metrics. induction l as [|x l IH]; simpl; [lia|].
  rewrite IH. lia.
Qed.

Lemma add_result_consistent (r : gmap pystr lang_data) (lang : pystr)
    (m : file_metrics) :
  results_consistent r -> record_bounded m ->
  results_consistent (add_result r lang m).
Proof.
  intros Hr Hm lang' d. unfold add_result.
  destruct (decide (lang = lang')) as [<- | Hne].
  - rewrite lookup_insert_eq. intros [= <-]. simpl.
    split; [by destruct (files _)|].
    assert (aggregate_consistent (default fresh_language (r !! lang))
            /\ Forall record_bounded (files (default fresh_language (r !! lang))))
      as [(H1 & H2 & H3 & H4) Hall].
    { destruct (r !! lang) as [d0|] eqn:E; simpl.
      - destruct (Hr lang d0 E) as (_ & H & H'). done.
      - split; [done | constructor]. }
    split.
    + unfold aggregate_consistent. simpl.
      rewrite !sum_metrics_snoc, H1, H2, H3, H4. done.
    + apply Forall_app. split; [done | by constructor].
  - rewrite lookup_insert_ne by done. apply Hr.
Qed.

Section Aggregation.
Variable suffix : pystr -> pystr.
Variable lower : pystr -> pystr.
Variable read : pystr -> option pystr.
Variable table : list (pystr * language_config).
Variable selected : list pystr.

Lemma analyze_files_consistent (file_paths : list pystr)
    (r0 : gmap pystr lang_data) :
  results_consistent r0 ->
  exists r,
    analyze_files suffix lower read table selected file_paths r0 = Return r
    /\ results_consistent r.
Proof.
  revert r0. induction file_paths as [|f rest IH]; intros r0 Hr0;
    cbn [analyze_files].
  - by exists r0.
  - destruct (negb _ && negb _); [by apply IH|].
    destruct (analyze_file_returns (read f) f
                (get_config table
                   (get_language_from_extension suffix lower f table)))
      as [[_ ->] | (m & -> & _ & Hm)]; [by apply IH|].
    apply IH. by apply add_result_consistent.
Qed.

Lemma taken_other (lang f : pystr) :
  get_language_from_extension suffix lower f table <> lang ->
  taken suffix lower table selected lang f = false.
Proof.
  intros H. unfold taken. by rewrite bool_decide_eq_false_2.
Qed.

Lemma files_of_add_result (r : gmap pystr lang_data) (lang lang' : pystr)
    (m : file_metrics) :
  files_of (add_result r lang m) lang' =
  if bool_decide (lang = lang') then files_of r lang' ++ [m]
  else files_of r lang'.
Proof.
  unfold files_of, add_result. case_bool_decide as E.
  - subst lang'. by rewrite lookup_insert_eq.
  - by rewrite lookup_insert_ne.
Qed.

Lemma analyze_files_spec (file_paths : list pystr)
    (r0 : gmap pystr lang_data) :
  exists r,
    analyze_files suffix lower read table selected file_paths r0 = Return r
    /\ forall lang,
         files_of r lang =
         files_of r0 lang
         ++ omap (metrics_of read table lang)
              (List.filter (taken suffix lower table selected lang) file_paths)
         /\ (r0 !! lang = None ->
             r !! lang = None <->
             omap (metrics_of read table lang)
               (List.filter (taken suffix lower table selected lang) file_paths)
             = []).
Proof.
  revert r0. induction file_paths as [|f rest IH]; intros r0;
    cbn [analyze_files].
  - exists r0. split; [done|]. intros lang. simpl. rewrite app_nil_r.
    split; [done|]. intros H. by split.
  - set (lf := get_language_from_extension suffix lower f table).
    assert (forall lang, lang <> lf ->
              List.filter (taken suffix lower table selected lang) (f :: rest)
              = List.filter (taken suffix lower table selected lang) rest)
      as Hother.
    { intros lang Hne. cbn [List.filter].
      rewrite taken_other; [done | unfold lf in Hne; congruence]. }
    destruct (negb (bool_decide (lf ∈ selected))
              && negb (bool_decide (lf = str "Unknown"))) eqn:Hskip.
    + destruct (IH r0) as (r & Hr & Hspec). exists r. split; [done|].
      intros lang.
      assert (List.filter (taken suffix lower table selected lang) (f :: rest)
              = List.filter (taken suffix lower table selected lang) rest) as ->.
      { destruct (decide (lang = lf)) as [-> | Hne]; [|by apply Hother].
        cbn [List.filter]. unfold taken at 1. fold lf.
        apply andb_true_iff in Hskip as [H1%negb_true_iff H2%negb_true_iff].
        by rewrite H1, H2, andb_false_r. }
      apply Hspec.
    + assert (taken suffix lower table selected lf f = true) as Htaken.
      { unfold taken. fold lf. rewrite bool_decide_eq_true_2 by done. simpl.
        destruct (bool_decide (lf ∈ selected)), (bool_decide (lf = str "Unknown"));
          done. }
      destruct (analyze_file_returns (read f) f (get_config table lf))
        as [[_ Hnone] | (m & Hsome & _ & _)].
      * rewrite Hnone. destruct (IH r0) as (r & Hr & Hspec). exists r.
        split; [done|]. intros lang.
        assert (omap (metrics_of read table lang)
                  (List.filter (taken suffix lower table selected lang) (f :: rest))
                = omap (metrics_of read table lang)
                    (List.filter (taken suffix lower table selected lang) rest))
          as ->.
        { destruct (decide (lang = lf)) as [-> | Hne];
            [|by rewrite Hother].
          cbn [List.filter]. rewrite Htaken. cbn [omap list_omap].
          unfold metrics_of at 1. by rewrite Hnone. }
        apply Hspec.
      * rewrite Hsome. destruct (IH (add_result r0 lf m)) as (r & Hr & Hspec).
        exists r. split; [done|]. intros lang.
        destruct (Hspec lang) as [Hfiles Hnone]. rewrite Hfiles.
        rewrite files_of_add_result.
        destruct (decide (lang = lf)) as [-> | Hne].
        -- rewrite bool_decide_eq_true_2 by done.
           cbn [List.filter]. rewrite Htaken. cbn [omap list_omap].
           assert (metrics_of read table lf f = Some m) as Hmf
             by (unfold metrics_of; by rewrite Hsome).
           rewrite !Hmf.
           split; [by rewrite <- app_assoc|].
           intros H0. split; [|done]. intros Hr0.
           assert (files_of r lf = []) as Hf by (unfold files_of; by rewrite Hr0).
           rewrite Hfiles, files_of_add_result, bool_decide_eq_true_2 in Hf
             by done.
           by destruct (files_of r0 lf).
        -- rewrite bool_decide_eq_false_2 by done. rewrite Hother by done.
           split; [done|]. intros H0. apply Hnone.
           unfold add_result. by rewrite lookup_insert_ne.
Qed.

End Aggregation.

(** X15. From consistent results, and in particular from the empty
    results a scan starts with, [analyze_directory] never takes its
    error branch and leaves consistent results: every language entry
    has at least one file, its four totals are the sums over its files,
    and every file record is within the per-file bounds. Nothing but
    the results changes. *)
Theorem aggregation_consistent (suffix lower : pystr -> pystr)
    (read : pystr -> option pystr) (self : app)
    (table : list (pystr * language_config)) (tree : dir_tree) :
  results_consistent (results self) ->
  exists r,
    analyze_directory suffix lower read self table tree
    = Return (set_results self r)
    /\ results_consistent r.
Proof.
  intros H. unfold analyze_directory.
  destruct (analyze_files_consistent suffix lower read table
              (selected_languages self)
              (collect_files (include_patterns self) (exclude_patterns self)
                 (current_directory self) tree)
              (results self) H) as (r & -> & Hr).
  by exists r.
Qed.

Lemma empty_results_consistent : results_consistent ∅.
Proof. intros lang d H. by rewrite lookup_empty in H. Qed.

Lemma aggregation_consistent_witness :
  exists r,
    analyze_directory posix_suffix ascii_lower sample_read empty_app
      DEFAULT_LANGUAGES sample_tree
    = Return (set_results empty_app r)
    /\ results_consistent r.
Proof.
  apply (aggregation_consistent posix_suffix ascii_lower sample_read empty_app
           DEFAULT_LANGUAGES sample_tree).
  exact empty_results_consistent.
Defined.

Lemma not_taken_filter (suffix lower : pystr -> pystr)
    (table : list (pystr * language_config)) (selected : list pystr)
    (lang : pystr) (file_paths : list pystr) :
  lang ∉ selected -> lang <> str "Unknown" ->
  List.filter (taken suffix lower table selected lang) file_paths = [].
Proof.
  intros Hsel Hunk. induction file_paths as [|f rest IH]; [done|].
  cbn [List.filter]. unfold taken at 1.
  rewrite (bool_decide_eq_false_2 (lang ∈ selected)) by done.
  rewrite (bool_decide_eq_false_2 (lang = str "Unknown")) by done.
  by rewrite andb_false_r.
Qed.

(** X16. A scan from empty results files every path under exactly one
    language: the files of a language are the records of the readable
    paths classified as that language, in the order given, provided the
    language is selected or is ["Unknown"]; a language has an entry
    only if it has such a file, so a language that is neither selected
    nor ["Unknown"] has none. *)
Theorem aggregated_files (suffix lower : pystr -> pystr)
    (read : pystr -> option pystr) (table : list (pystr * language_config))
    (selected file_paths : list pystr) :
  exists r,
    analyze_files suffix lower read table selected file_paths ∅ = Return r
    /\ forall lang,
         files_of r lang =
         omap (metrics_of read table lang)
           (List.filter (taken suffix lower table selected lang) file_paths)
         /\ (r !! lang = None <->
             omap (metrics_of read table lang)
               (List.filter (taken suffix lower table selected lang) file_paths)
             = [])
         /\ (lang ∉ selected -> lang <> str "Unknown" -> r !! lang = None).
Proof.
  destruct (analyze_files_spec suffix lower read table selected file_paths ∅)
    as (r & Hr & Hspec).
  exists r. split; [exact Hr|]. intros lang.
  destruct (Hspec lang) as [Hfiles Hnone].
  split; [exact Hfiles|].
  split; [apply Hnone, lookup_empty|].
  intros Hsel Hunk. apply Hnone; [apply lookup_empty|].
  by rewrite not_taken_filter.
Qed.

Lemma count_lines_none (lines : list pystr) :
  count_lines (fun l => negb (is_blank l) && marker_prefix empty_config l) lines
  = 0.
Proof.
  unfold count_lines. induction lines as [|l lines IH]; [done|].
  cbn [List.filter]. unfold marker_prefix at 1. simpl existsb.
  by rewrite andb_false_r.
Qed.

(** With the empty configuration every non-blank line is code. *)
Lemma analyze_file_empty_config (text path : pystr) (m : file_metrics) :
  analyze_file (Some text) path empty_config = Return (Some m) ->
  fm_comment_lines m = 0
  /\ fm_empty_lines m + fm_code_lines m = total_lines m.
Proof.
  unfold analyze_file, analyze_lines.
  rewrite (ScannerFacts.scan_lines_block_free empty_config) by done.
  intros [= <-].
  cbn [fm_comment_lines fm_empty_lines fm_code_lines total_lines].
  rewrite count_lines_none.
  pose proof (ScannerFacts.count_lines_partition empty_config (readlines text))
    as H.
  rewrite count_lines_none in H. simpl in *. lia.
Qed.

(** X17. A readable file whose extension no language lists is always
    scanned and filed under ["Unknown"], whatever languages are
    selected. When no language is named ["Unknown"] it is scanned with
    the empty configuration: none of its lines is a comment line and
    every non-blank line is a code line. *)
Theorem unknown_always_scanned (suffix lower : pystr -> pystr)
    (read : pystr -> option pystr) (table : list (pystr * language_config))
    (selected file_paths : list pystr) (f text : pystr) :
  f ∈ file_paths ->
  get_language_from_extension suffix lower f table = str "Unknown" ->
  get_config table (str "Unknown") = empty_config ->
  read f = Some text ->
  exists r d m,
    analyze_files suffix lower read table selected file_paths ∅ = Return r
    /\ r !! str "Unknown" = Some d
    /\ m ∈ files d
    /\ file_path m = f
    /\ fm_comment_lines m = 0
    /\ fm_empty_lines m + fm_code_lines m = total_lines m.
Proof.
  intros Hf Hlang Hcfg Hread.
  destruct (analyze_files_spec suffix lower read table selected file_paths ∅)
    as (r & Hr & Hspec).
  destruct (Hspec (str "Unknown")) as [Hfiles _].
  destruct (analyze_file_returns (read f) f (get_config table (str "Unknown")))
    as [[Hnone _] | (m & Hm & Hpath & _)]; [congruence|].
  assert (m ∈ files_of r (str "Unknown")) as Hin.
  { rewrite Hfiles. apply elem_of_app. right.
    apply list_elem_of_omap. exists f. split.
    - apply list_elem_of_In, List.filter_In. split; [by apply list_elem_of_In|].
      unfold taken. rewrite bool_decide_eq_true_2 by done.
      rewrite (bool_decide_eq_true_2 (str "Unknown" = str "Unknown")) by done.
      apply orb_true_r.
    - unfold metrics_of. by rewrite Hm. }
  unfold files_of in Hin.
  destruct (r !! str "Unknown") as [d|] eqn:Hd;
    [|by apply elem_of_nil in Hin].
  exists r, d, m. split; [done|]. split; [done|]. split; [done|].
  split; [done|].
  rewrite Hcfg, Hread in Hm. by apply (analyze_file_empty_config text f).
Qed.

Lemma unknown_always_scanned_witness :
  exists r d m,
    analyze_files posix_suffix ascii_lower
      (fun _ => Some (str "# not a comment" ++ newline))
      DEFAULT_LANGUAGES [] [str "notes.txt"] ∅ = Return r
    /\ r !! str "Unknown" = Some d
    /\ m ∈ files d
    /\ fm_comment_lines m = 0.
Proof.
  destruct (unknown_always_scanned posix_suffix ascii_lower
              (fun _ => Some (str "# not a comment" ++ newline))
              DEFAULT_LANGUAGES [] [str "notes.txt"] (str "notes.txt")
              (str "# not a comment" ++ newline))
    as (r & d & m & H1 & H2 & H3 & _ & H4 & _).
  - apply list_elem_of_here.
  - reflexivity.
  - reflexivity.
  - reflexivity.
  - exists r, d, m. split; [exact H1|]. split; [exact H2|].
    split; [exact H3 | exact H4].
Defined.

Lemma entry_bounds (d : lang_data) :
  files d <> [] -> aggregate_consistent d ->
  Forall record_bounded (files d) ->
  1 <= file_count d
  /\ 0 <= ld_empty_lines d <= ld_total_lines d
  /\ 0 <= ld_comment_lines d <= ld_total_lines d
  /\ 0 <= ld_code_lines d <= ld_total_lines d
  /\ ld_total_lines d
     <= ld_empty_lines d + ld_comment_lines d + ld_code_lines d
     <= 2 * ld_total_lines d.
Proof.
  intros Hne (H1 & H2 & H3 & H4) Hall.
  split; [unfold file_count; destruct (files d); [done | simpl length; lia]|].
  rewrite H1, H2, H3, H4. clear H1 H2 H3 H4 Hne.
  induction Hall as [|m l Hm _ IH]; [simpl; lia|].
  unfold sum_metrics in *. simpl. unfold record_bounded in Hm. lia.
Qed.

Lemma sum_values_bounds (l : list (pystr * lang_data)) :
  Forall (fun kv =>
            1 <= file_count kv.2
            /\ 0 <= ld_empty_lines kv.2 <= ld_total_lines kv.2
            /\ 0 <= ld_comment_lines kv.2 <= ld_total_lines kv.2
            /\ 0 <= ld_code_lines kv.2 <= ld_total_lines kv.2
            /\ ld_total_lines kv.2
               <= ld_empty_lines kv.2 + ld_comment_lines kv.2
                  + ld_code_lines kv.2
               <= 2 * ld_total_lines kv.2) l ->
  let total f := foldr (fun kv acc => f kv.2 + acc) 0 l in
  Z.of_nat (length l) <= total file_count
  /\ 0 <= total ld_empty_lines <= total ld_total_lines
  /\ 0 <= total ld_comment_lines <= total ld_total_lines
  /\ 0 <= total ld_code_lines <= total ld_total_lines
  /\ total ld_total_lines
     <= total ld_empty_lines + total ld_comment_lines + total ld_code_lines
     <= 2 * total ld_total_lines.
Proof.
  induction 1 as [|kv l Hkv _ IH]; [simpl; lia|].
  cbv zeta beta in *. cbn [foldr]. rewrite length_cons, Nat2Z.inj_succ. lia.
Qed.

(** X18. On consistent results, such as those of a scan, the summary
    line is coherent: there are at least as many files as languages,
    each of the blank, comment and code totals lies between 0 and the
    total number of lines, and their sum lies between the total number
    of lines and twice that number. *)
Theorem summary_bounds (r : gmap pystr lang_data) :
  results_consistent r ->
  Z.of_nat (size r) <= sum_files (update_results_ui r)
  /\ 0 <= sum_empty (update_results_ui r) <= sum_lines (update_results_ui r)
  /\ 0 <= sum_comment (update_results_ui r) <= sum_lines (update_results_ui r)
  /\ 0 <= sum_code (update_results_ui r) <= sum_lines (update_results_ui r)
  /\ sum_lines (update_results_ui r)
     <= sum_empty (update_results_ui r) + sum_comment (update_results_ui r)
        + sum_code (update_results_ui r)
     <= 2 * sum_lines (update_results_ui r).
Proof.
  intros Hr. unfold update_results_ui, sum_values. simpl.
  rewrite <- length_map_to_list.
  apply (sum_values_bounds (map_to_list r)).
  apply Forall_forall. intros [k d] Hin. simpl.
  apply elem_of_map_to_list in Hin.
  destruct (Hr k d Hin) as (H1 & H2 & H3). by apply entry_bounds.
Qed.

Lemma sample_results_consistent : results_consistent sample_results.
Proof.
  intros lang d. unfold sample_results.
  intros [_ <-]%lookup_singleton_Some. simpl.
  split; [done|]. split; [done|].
  repeat constructor; simpl; lia.
Qed.

Lemma summary_bounds_witness :
  sum_lines (update_results_ui sample_results)
  <= sum_empty (update_results_ui sample_results)
     + sum_comment (update_results_ui sample_results)
     + sum_code (update_results_ui sample_results)
  <= 2 * sum_lines (update_results_ui sample_results).
Proof.
  apply (summary_bounds sample_results). exact sample_results_consistent.
Defined.

End AggregatorFacts.

(** ** Further properties of the comparator *)

Module ComparatorFacts.

Import Comparator.

Lemma str_leb_total (a b : pystr) : str_leb a b = true \/ str_leb b a = true.
Proof.
  revert b. induction a as [|x a IH]; intros [|y b]; simpl; auto.
  destruct (N.ltb_spec x y), (N.ltb_spec y x); auto; lia.
Qed.

Lemma str_leb_trans (a b c : pystr) :
  str_leb a b = true -> str_leb b c = true -> str_leb a c = true.
Proof.
  revert b c. induction a as [|x a IH]; intros [|y b] [|z c]; simpl; try done.
  destruct (N.ltb_spec x y), (N.ltb_spec y x), (N.ltb_spec y z),
    (N.ltb_spec z y), (N.ltb_spec x z), (N.ltb_spec z x);
    try done; try lia.
  apply IH.
Qed.

#[local] Instance str_le_total : Total str_le.
Proof.
  intros a b. unfold str_le.
  destruct (str_leb_total a b) as [-> | ->]; [by left | by right].
Qed.

#[local] Instance str_le_trans : Transitive str_le.
Proof.
  intros a b c. unfold str_le. rewrite !Is_true_true. apply str_leb_trans.
Qed.

(** X19. The per-language blocks of a comparison come in ascending
    order of the language name (Python's order on strings), one block
    per language, without repetition. *)
Theorem comparison_sorted (A B : snapshot) :
  StronglySorted str_le (language <$> per_language (perform_comparison A B))
  /\ NoDup (language <$> per_language (perform_comparison A B)).
Proof.
  simpl. rewrite languages_of_comparison. split.
  - apply StronglySorted_merge_sort; apply _.
  - apply all_languages_NoDup.
Qed.

Lemma sum_deltas_languages (r1 r2 : gmap pystr lang_data) (L : list pystr)
    (f : lang_data -> Z) (g : language_delta -> Z) :
  (forall k, g (compare_language r1 r2 k)
             = from_option f 0 (r2 !! k) - from_option f 0 (r1 !! k)) ->
  sum_deltas g (compare_language r1 r2 <$> L)
  = foldr (fun k acc => from_option f 0 (r2 !! k) + acc) 0 L
    - foldr (fun k acc => from_option f 0 (r1 !! k) + acc) 0 L.
Proof.
  intros Hg. unfold sum_deltas.
  induction L as [|k L IH]; [done|].
  rewrite fmap_cons. simpl foldr. rewrite IH, Hg. lia.
Qed.

(** X20. The overall deltas of a comparison are the sums of the
    per-language deltas: the file-count delta is the sum of the
    per-language file deltas, the total-line delta the sum of the
    per-language line deltas. *)
Theorem overall_is_sum_of_languages (A B : snapshot) :
  total_files_diff (perform_comparison A B)
  = sum_deltas files_diff (per_language (perform_comparison A B))
  /\ total_lines_diff (perform_comparison A B)
     = sum_deltas lines_diff (per_language (perform_comparison A B)).
Proof.
  simpl.
  assert (forall k, is_Some (get_results A !! k) ->
                    k ∈ all_languages (get_results A) (get_results B)) as HA.
  { intros k Hk. apply Comparator.all_languages_elem. left.
    by apply elem_of_dom. }
  assert (forall k, is_Some (get_results B !! k) ->
                    k ∈ all_languages (get_results A) (get_results B)) as HB.
  { intros k Hk. apply Comparator.all_languages_elem. right.
    by apply elem_of_dom. }
  pose proof (all_languages_NoDup (get_results A) (get_results B)) as HL.
  split.
  - rewrite (sum_deltas_languages _ _ _ file_count).
    + by rewrite !sum_over_languages.
    + intros k. simpl.
      by destruct (get_results A !! k), (get_results B !! k).
  - rewrite (sum_deltas_languages _ _ _ ld_total_lines).
    + by rewrite !sum_over_languages.
    + intros k. simpl.
      by destruct (get_results A !! k), (get_results B !! k).
Qed.

End ComparatorFacts.

(** ** Further properties of the classifier and of a whole scan *)

Module ScanFacts.

Lemma ascii_lower_idempotent (s : pystr) :
  ascii_lower (ascii_lower s) = ascii_lower s.
Proof.
  unfold ascii_lower. induction s as [|c s IH]; [done|].
  rewrite !fmap_cons, IH. f_equal.
  destruct ((65 <=? c) && (c <=? 90))%N eqn:E; [|by rewrite E].
  apply andb_true_iff in E as [H1%N.leb_le H2%N.leb_le].
  assert ((c + 32 <=? 90)%N = false) as -> by (apply N.leb_gt; lia).
  by rewrite andb_false_r.
Qed.

(** X21. Since the extension of the path is lower-cased before the
    look-up and the entries of the table are not, an extension entry
    that lower-casing changes can never match: dropping all such
    entries from the table changes no classification (for a [lower]
    that leaves its own results unchanged). *)
Theorem mixed_case_entries_dead (suffix lower : pystr -> pystr)
    (file_path : pystr) (table : list (pystr * language_config)) :
  (forall s, lower (lower s) = lower s) ->
  get_language_from_extension suffix lower file_path
    (lower_case_entries lower table)
  = get_language_from_extension suffix lower file_path table.
Proof.
  intros Hidem. unfold get_language_from_extension.
  set (ext := lower (suffix file_path)).
  assert (lower ext = ext) as Hext by apply Hidem.
  induction table as [|[lang cfg] table IH]; [done|].
  unfold lower_case_entries. rewrite fmap_cons. fold (lower_case_entries lower table).
  cbn [first_language].
  assert (has_extension
            (LanguageConfig
               ((fun exts => List.filter (fun e => bool_decide (lower e = e)) exts)
                  <$> extensions cfg)
               (single_line_comment cfg) (multi_line_comment cfg)
               (string_delimiters cfg)) ext
          = has_extension cfg ext) as ->.
  { unfold has_extension. simpl. destruct (extensions cfg) as [exts|]; [|done].
    simpl. apply bool_decide_ext.
    rewrite !list_elem_of_In, List.filter_In, bool_decide_eq_true.
    split; [by intros [H _] | by intros H]. }
  by rewrite IH.
Qed.

Lemma mixed_case_entries_dead_witness :
  get_language_from_extension posix_suffix ascii_lower (str "boot.S")
    (lower_case_entries ascii_lower DEFAULT_LANGUAGES)
  = get_language_from_extension posix_suffix ascii_lower (str "boot.S")
      DEFAULT_LANGUAGES.
Proof.
  apply (mixed_case_entries_dead posix_suffix ascii_lower (str "boot.S")
           DEFAULT_LANGUAGES).
  exact ascii_lower_idempotent.
Defined.

(** X22. Every file record in the results of a scan that starts from
    empty results belongs to a path that the walk offered and the
    pattern filter let through: no exclude pattern other than the empty
    string and ["*"] occurs in it, and the include patterns admit it.
    The record is filed under the language its path classifies to. *)
Theorem scanned_files_pass_filter (suffix lower : pystr -> pystr)
    (read : pystr -> option pystr) (self : app)
    (table : list (pystr * language_config)) (tree : dir_tree) :
  results self = ∅ ->
  exists r,
    analyze_directory suffix lower read self table tree
    = Return (set_results self r)
    /\ forall lang d m,
         r !! lang = Some d -> m ∈ files d ->
         file_path m ∈ candidate_paths (current_directory self) tree
         /\ ~ excluded_by (exclude_patterns self) (file_path m)
         /\ included_by (include_patterns self) (file_path m)
         /\ get_language_from_extension suffix lower (file_path m) table = lang.
Proof.
  intros Hempty. unfold analyze_directory. rewrite Hempty.
  destruct (AggregatorFacts.analyze_files_spec suffix lower read table
              (selected_languages self)
              (collect_files (include_patterns self) (exclude_patterns self)
                 (current_directory self) tree) ∅) as (r & -> & Hspec).
  exists r. split; [done|]. intros lang d m Hd Hm.
  destruct (Hspec lang) as [Hfiles _].
  unfold files_of in Hfiles. rewrite Hd in Hfiles. simpl in Hfiles.
  rewrite Hfiles in Hm.
  apply list_elem_of_omap in Hm as (f & Hf & Hmf).
  apply list_elem_of_In, List.filter_In in Hf as [Hf Htaken].
  apply list_elem_of_In in Hf.
  assert (file_path m = f) as ->.
  { unfold metrics_of in Hmf.
    destruct (AggregatorFacts.analyze_file_returns (read f) f
                (get_config table lang)) as [[_ E] | (m' & E & Hp & _)];
      rewrite E in Hmf; [done|]. by injection Hmf as <-. }
  unfold collect_files in Hf.
  apply Walker.collect_walk_spec in Hf as (Hc & Hex & Hinc).
  split; [exact Hc|]. split.
  - rewrite <- Walker.exclude_loop_spec. by rewrite Hex.
  - split; [by apply Walker.include_flag_spec|].
    unfold taken in Htaken.
    apply andb_true_iff in Htaken as [H%bool_decide_eq_true _]. exact H.
Qed.

Lemma scanned_files_pass_filter_witness :
  exists r,
    analyze_directory posix_suffix ascii_lower sample_read empty_app
      DEFAULT_LANGUAGES sample_tree
    = Return (set_results empty_app r).
Proof.
  destruct (scanned_files_pass_filter posix_suffix ascii_lower sample_read
              empty_app DEFAULT_LANGUAGES sample_tree) as (r & H & _).
  - reflexivity.
  - exists r. exact H.
Defined.

Example scan_of_sample_tree :
  exists r,
    analyze_directory posix_suffix ascii_lower sample_read empty_app
      DEFAULT_LANGUAGES sample_tree
    = Return (set_results empty_app r)
    /\ files_of r (str "Python")
       = [FileMetrics 3 1 1 1 (str "proj/a.py") (str "a.py");
          FileMetrics 1 0 0 1 (str "proj/test_a.py") (str "test_a.py")]
    /\ files_of r (str "C/C++") = []
    /\ update_results_ui r = Summary 2 4 2 1 1.
Proof.
  eexists. split; [reflexivity|]. repeat split; vm_compute; reflexivity.
Qed.

End ScanFacts.
